(** * jaxns: nested sampling engine and prior transforms

    A shallow embedding of [jaxns/nested_sampling.py] and
    [jaxns/prior_transforms/common.py].

    Floating-point arrays are lists of binary64 values (the package switches
    JAX to 64-bit mode when [nested_sampling] is imported), integer counters
    are 64-bit signed integers kept in [Z] with the wrap-around written out,
    Python dictionaries are [gmap string _], and Python exceptions are the
    [Raise] results of a small error monad. *)

From Stdlib Require Import ZArith Floats Uint63 Lia.
From stdpp Require Import base option list gmap strings fin_maps.

Local Open Scope Z_scope.

(** ** Binary64 values

    [jnp] comparisons are the IEEE ones: every comparison with NaN is false. *)
Module F64.

Definition is_nan (x : float) : bool := PrimFloat.is_nan x.
Definition lt (x y : float) : bool := PrimFloat.ltb x y.
Definition le (x y : float) : bool := PrimFloat.leb x y.
Definition inf : float := PrimFloat.infinity.
Definition ninf : float := PrimFloat.neg_infinity.

(** The order is the lexicographic one on (class, exponent, mantissa). *)
Definition rank (s : spec_float) : Z * Z * Z :=
  match s with
  | S754_nan => (0, 0, 0)
  | S754_zero _ => (0, 0, 0)
  | S754_infinity true => (-2, 0, 0)
  | S754_infinity false => (2, 0, 0)
  | S754_finite true m e => (-1, - e, - Z.pos m)
  | S754_finite false m e => (1, e, Z.pos m)
  end.

Definition lex_le (a b : Z * Z * Z) : Prop :=
  let '(a1, a2, a3) := a in
  let '(b1, b2, b3) := b in
  a1 < b1 \/ (a1 = b1 /\ (a2 < b2 \/ (a2 = b2 /\ a3 <= b3))).

Definition lex_lt (a b : Z * Z * Z) : Prop :=
  let '(a1, a2, a3) := a in
  let '(b1, b2, b3) := b in
  a1 < b1 \/ (a1 = b1 /\ (a2 < b2 \/ (a2 = b2 /\ a3 < b3))).

End F64.

(** ** Exceptions

    A Python call either returns or raises; [result] is the error monad the
    rest of the development threads through fallible code. *)
Inductive exn : Type :=
  | ValueError (msg : string)
  | KeyError (key : string)
  | TypeError (msg : string)
  | IndexError (msg : string).

Inductive result (A : Type) : Type :=
  | Ok (a : A)
  | Raise (e : exn).
Arguments Ok {A} a.
Arguments Raise {A} e.

#[export] Instance result_ret : MRet result := fun A a => Ok a.
#[export] Instance result_bind : MBind result := fun A B f m =>
  match m with
  | Ok a => f a
  | Raise e => Raise e
  end.
#[export] Instance result_fmap : FMap result := fun A B f m =>
  match m with
  | Ok a => Ok (f a)
  | Raise e => Raise e
  end.

Definition is_Ok {A} (r : result A) : bool :=
  match r with Ok _ => true | Raise _ => false end.

(** [mapM] for [result]: the first exception wins, as in a Python loop. *)
Fixpoint result_mapM {A B} (f : A -> result B) (l : list A) : result (list B) :=
  match l with
  | [] => Ok []
  | x :: l' => y ← f x; ys ← result_mapM f l'; Ok (y :: ys)
  end.

(** ** The [jax.numpy] and [jax.lax] operations the sources call *)
Module Jnp.

(** 64-bit signed integers: the value a [Z] denotes after wrap-around. *)
Definition wrap64 (z : Z) : Z := (z + 2 ^ 63) mod 2 ^ 64 - 2 ^ 63.

(** Conversion of a 64-bit integer to binary64 (round to nearest). *)
Definition float_of_int (z : Z) : float :=
  if z =? - 2 ^ 63 then (-0x1p63)%float
  else if z <? 0 then PrimFloat.opp (PrimFloat.of_uint63 (Uint63.of_Z (- z)))
  else PrimFloat.of_uint63 (Uint63.of_Z z).

(** [jnp.isnan], [jnp.where] on one element, [jnp.maximum] (NaN propagates). *)
Definition isnan (x : float) : bool := F64.is_nan x.
Definition where_ {A} (c : bool) (x y : A) : A := if c then x else y.
Definition maximum (x y : float) : float :=
  if F64.is_nan x then x
  else if F64.is_nan y then y
  else if F64.lt x y then y else x.

(** [jnp.argmin]: index of the first minimum; a NaN counts as the minimum;
    an empty array raises. *)
Definition takes_min (x best : float) : bool :=
  F64.lt x best || (F64.is_nan x && negb (F64.is_nan best)).

Fixpoint argmin_from (l : list float) (i bi : nat) (best : float) : nat :=
  match l with
  | [] => bi
  | x :: l' =>
      if takes_min x best then argmin_from l' (S i) i x
      else argmin_from l' (S i) bi best
  end.

Definition argmin (l : list float) : result nat :=
  match l with
  | [] => Raise (ValueError "attempt to get argmin of an empty sequence")
  | x :: l' => Ok (argmin_from l' 1%nat 0%nat x)
  end.

(** [jnp.argmax]: index of the first maximum; a NaN counts as the maximum. *)
Definition takes_max (x best : float) : bool :=
  F64.lt best x || (F64.is_nan x && negb (F64.is_nan best)).

Fixpoint argmax_from (l : list float) (i bi : nat) (best : float) : nat :=
  match l with
  | [] => bi
  | x :: l' =>
      if takes_max x best then argmax_from l' (S i) i x
      else argmax_from l' (S i) bi best
  end.

Definition argmax (l : list float) : result nat :=
  match l with
  | [] => Raise (ValueError "attempt to get argmax of an empty sequence")
  | x :: l' => Ok (argmax_from l' 1%nat 0%nat x)
  end.

(** [lax.dynamic_update_slice] along the leading axis: a negative start
    counts from the end, the start is then clamped so that the update fits,
    and an update longer than the operand is a type error. *)
Definition clamp_start (len_operand len_update : nat) (start : Z) : nat :=
  let n := Z.of_nat len_operand in
  let m := Z.of_nat len_update in
  let s := if start <? 0 then start + n else start in
  Z.to_nat (Z.max 0 (Z.min s (n - m))).

Definition dynamic_update_slice {A} (operand update : list A) (start : Z)
  : result (list A) :=
  if (length operand <? length update)%nat
  then Raise (TypeError "dynamic_update_slice update shape must be smaller than operand shape")
  else
    let s := clamp_start (length operand) (length update) start in
    Ok (take s operand ++ update ++ drop (s + length update)%nat operand).

(** The order [jnp.argmin] follows: NaN below every number. *)
Definition min_key (x : float) : Z * Z * Z :=
  if F64.is_nan x then (-3, 0, 0) else F64.rank (Prim2SF x).

(** What [argmin] returns: the first index whose element no element takes
    the minimum from. *)
Definition is_first_min (l : list float) (r : nat) : Prop :=
  exists m, l !! r = Some m
    /\ (forall j x, l !! j = Some x -> takes_min x m = false)
    /\ (forall j x, (j < r)%nat -> l !! j = Some x -> takes_min m x = true).

(** The order [jnp.argmax] follows: NaN above every number. *)
Definition max_key (x : float) : Z * Z * Z :=
  if F64.is_nan x then (3, 0, 0) else F64.rank (Prim2SF x).

(** What [argmax] returns: the first index whose element no element takes
    the maximum from. *)
Definition is_first_max (l : list float) (r : nat) : Prop :=
  exists m, l !! r = Some m
    /\ (forall j x, l !! j = Some x -> takes_max x m = false)
    /\ (forall j x, (j < r)%nat -> l !! j = Some x -> takes_max m x = true).

End Jnp.

(** ** Prior transforms ([jaxns/prior_transforms/common.py])

    Hyperparameters are arrays of rank one ([jnp.atleast_1d] of a number or
    of a flat sequence), which is what every constructor below builds for a
    plain value. An array is then the list of its elements, each an integer
    or a binary64 value, with NumPy's promotion of a mixed pair to binary64.
    The classes embedded are [DeltaPrior], [UniformPrior], [CategoricalPrior]
    and [Gumbel]; the normal, log-normal, multivariate normal, Laplace and
    Bernoulli transforms rest on [ndtri], matrix factorisations and
    logarithms of the platform and are left out. *)
Module PriorTransforms.
Import Jnp.

Inductive num : Type :=
  | NInt (z : Z)
  | NFloat (x : float).

Definition to_float (a : num) : float :=
  match a with
  | NInt z => float_of_int z
  | NFloat x => x
  end.

Definition num_add (a b : num) : num :=
  match a, b with
  | NInt x, NInt y => NInt (wrap64 (x + y))
  | _, _ => NFloat (to_float a + to_float b)
  end.

Definition num_sub (a b : num) : num :=
  match a, b with
  | NInt x, NInt y => NInt (wrap64 (x - y))
  | _, _ => NFloat (to_float a - to_float b)
  end.

Definition num_mul (a b : num) : num :=
  match a, b with
  | NInt x, NInt y => NInt (wrap64 (x * y))
  | _, _ => NFloat (to_float a * to_float b)
  end.

Definition num_is_finite (a : num) : bool :=
  match a with
  | NInt _ => true
  | NFloat x => PrimFloat.is_finite x
  end.

(** A value handed to a constructor: a Python number or a flat sequence. *)
Inductive pyvalue : Type :=
  | PyNum (x : num)
  | PySeq (xs : list num).

(** [jnp.asarray] of a sequence gives the array one dtype: binary64 as soon
    as one element is a Python float, 64-bit integers otherwise. *)
Definition is_float (a : num) : bool :=
  match a with
  | NInt _ => false
  | NFloat _ => true
  end.

Definition asarray (xs : list num) : list num :=
  if existsb is_float xs then map (fun a => NFloat (to_float a)) xs else xs.

(** [jnp.atleast_1d(jnp.asarray(value))]. *)
Definition atleast_1d (v : pyvalue) : list num :=
  match v with
  | PyNum x => [x]
  | PySeq xs => asarray xs
  end.

(** An elementwise binary operation on rank-one arrays, with broadcasting of
    a length-one operand; other length mismatches raise. *)
Definition elementwise (f : num -> num -> num) (a b : list num)
  : result (list num) :=
  if (length a =? length b)%nat then Ok (zip_with f a b)
  else match a, b with
       | [x], _ => Ok (map (f x) b)
       | _, [y] => Ok (map (fun x => f x y) a)
       | _, _ => Raise (TypeError "incompatible shapes for broadcasting")
       end.

(** Modelled from the spec: [jaxns.utils.broadcast_shapes] is not among the
    sources. Shapes are aligned on the right; two dimensions agree when they
    are equal or one of them is 1; otherwise construction fails. *)
Fixpoint broadcast_rev (a b : list nat) : result (list nat) :=
  match a, b with
  | [], _ => Ok b
  | _, [] => Ok a
  | x :: a', y :: b' =>
      d ← (if (x =? y)%nat then Ok x
           else if (x =? 1)%nat then Ok y
           else if (y =? 1)%nat then Ok x
           else Raise (ValueError "shapes cannot be broadcast together"));
      r ← broadcast_rev a' b';
      Ok (d :: r)
  end.

Definition broadcast_shapes (s1 s2 : list nat) : result (list nat) :=
  reverse <$> broadcast_rev (reverse s1) (reverse s2).

(** Modelled from the spec: [jaxns.utils.tuple_prod], the number of elements
    of a shape. *)
Definition tuple_prod (shape : list nat) : nat := fold_right Nat.mul 1%nat shape.

(** The fields [PriorTransform.__init__(name, U_ndims, prior_chain, tracked)]
    receives, and what each subclass stores next to them. *)
Inductive PriorClass : Type :=
  | ClsDelta (value : list num)
  | ClsUniform (broadcast_shape : list nat)
  | ClsCategorical (shape : list nat)
  | ClsGumbel (shape : list nat).

#[local] Unset Elimination Schemes.
Inductive PriorTransform : Type :=
  | mkPriorTransform (name : string) (U_ndims : nat)
      (prior_chain : list PriorTransform) (tracked : bool) (cls : PriorClass).
#[local] Set Elimination Schemes.

Definition name (p : PriorTransform) : string :=
  let 'mkPriorTransform n _ _ _ _ := p in n.
Definition U_ndims (p : PriorTransform) : nat :=
  let 'mkPriorTransform _ d _ _ _ := p in d.
Definition prior_chain (p : PriorTransform) : list PriorTransform :=
  let 'mkPriorTransform _ _ c _ _ := p in c.
Definition tracked (p : PriorTransform) : bool :=
  let 'mkPriorTransform _ _ _ t _ := p in t.
Definition cls (p : PriorTransform) : PriorClass :=
  let 'mkPriorTransform _ _ _ _ c := p in c.

(** The [to_shape] property of each class. *)
Definition to_shape (p : PriorTransform) : list nat :=
  match cls p with
  | ClsDelta value => [length value]
  | ClsUniform broadcast_shape => broadcast_shape
  | ClsCategorical shape => shape
  | ClsGumbel shape => shape
  end.

(** Modelled from the spec: [prior_utils.get_shape] of a prior is its
    output shape. *)
Definition get_shape (p : PriorTransform) : list nat := to_shape p.

(** [DeltaPrior.__init__]. *)
Definition DeltaPrior (name : string) (value : pyvalue) (tracked : bool)
  : PriorTransform :=
  mkPriorTransform name 0%nat [] tracked (ClsDelta (atleast_1d value)).

(** [if not isinstance(x, PriorTransform): x = DeltaPrior(label, x, False)]. *)
Definition as_prior (label : string) (x : PriorTransform + pyvalue)
  : PriorTransform :=
  match x with
  | inl p => p
  | inr v => DeltaPrior label v false
  end.

(** [UniformPrior.__init__]. *)
Definition UniformPrior (name : string) (low high : PriorTransform + pyvalue)
    (tracked : bool) : result PriorTransform :=
  let low := as_prior ("_" +:+ name +:+ "_low") low in
  let high := as_prior ("_" +:+ name +:+ "_high") high in
  broadcast_shape ← broadcast_shapes (get_shape low) (get_shape high);
  Ok (mkPriorTransform name (tuple_prod broadcast_shape) [low; high] tracked
        (ClsUniform broadcast_shape)).

(** [Gumbel.__init__]. *)
Definition Gumbel (name : string) (num : nat) (tracked : bool) : PriorTransform :=
  mkPriorTransform name num [] tracked (ClsGumbel [num]).

(** [CategoricalPrior.__init__]; [get_shape(logits)[0]] raises on a shape of
    rank zero. *)
Definition CategoricalPrior (name : string) (logits : PriorTransform + pyvalue)
    (tracked : bool) : result PriorTransform :=
  let logits := as_prior ("_" +:+ name +:+ "_logits") logits in
  match get_shape logits with
  | [] => Raise (IndexError "tuple index out of range")
  | U_dims :: _ =>
      let gumbel := Gumbel ("_" +:+ name +:+ "_gumbel") U_dims false in
      Ok (mkPriorTransform name U_dims [gumbel; logits] tracked
            (ClsCategorical [1%nat]))
  end.

(** [jnp.reshape(U, shape)] keeps the elements and needs as many of them as
    the shape holds. *)
Definition reshape (U : list float) (shape : list nat) : result (list num) :=
  if (length U =? tuple_prod shape)%nat then Ok (map NFloat U)
  else Raise (TypeError "cannot reshape array").

(** [jnp.finfo(jnp.float64).eps]. *)
Definition eps : float := 0x1p-52%float.

Section Forward.
(** [jnp.log] on binary64: the platform's logarithm. *)
Variable log : float -> float.

(** [Gumbel.forward] on one component. *)
Definition gumbel_of (u : float) : float :=
  (- log (- log (maximum u eps)))%float.

(** The [forward] method: [U] is this prior's slice of the unit cube and
    [parents] the outputs of [prior_chain], in order. *)
Definition forward (p : PriorTransform) (U : list float)
    (parents : list (list num)) : result (list num) :=
  match cls p, parents with
  | ClsDelta value, _ => Ok value
  | ClsUniform _, low :: high :: _ =>
      u ← reshape U (to_shape p);
      d ← elementwise num_sub high low;
      m ← elementwise num_mul u d;
      elementwise num_add low m
  | ClsCategorical _, gumbel :: logits :: _ =>
      s ← elementwise num_add logits gumbel;
      k ← argmax (map to_float s);
      Ok [NInt (Z.of_nat k)]
  | ClsGumbel _, _ => Ok (map (fun u => NFloat (gumbel_of u)) U)
  | _, _ => Raise (TypeError "forward() missing required positional arguments")
  end.

(** A prior called on its slice [U] when every prior of its [prior_chain]
    is a fixed value, which takes no part of the unit cube: the parents are
    evaluated on the empty slice and handed to [forward]. *)
Definition forward_fixed (p : PriorTransform) (U : list float)
  : result (list num) :=
  parents ← result_mapM (fun q => forward q [] []) (prior_chain p);
  forward p U parents.
End Forward.

End PriorTransforms.

(** ** Dictionaries of arrays ([jaxns.utils.dict_multimap]) *)
Module Dict.

(** Run a fallible function over every value of a dictionary. *)
Definition mapM_kv {A B} (f : string -> A -> result B)
  (kvs : list (string * A)) : result (list (string * B)) :=
result_mapM (fun kv => y ← f kv.1 kv.2; Ok (kv.1, y)) kvs.

Definition imapM {A B} (f : string -> A -> result B) (d : gmap string A)
: result (gmap string B) :=
kvs ← mapM_kv f (map_to_list d); Ok (list_to_map kvs).

(** Modelled from the spec: [dict_multimap(f, d)] applies [f] to every value
  of [d]; [jaxns.utils] is not among the sources. *)
Definition dict_multimap {A B} (f : A -> result B) (d : gmap string A)
: result (gmap string B) :=
imapM (fun _ x => f x) d.

(** Modelled from the spec: [dict_multimap(f, d, arg)] walks the keys of [d]
  and applies [f] to [d[key]] and [arg[key]]; a key that [arg] lacks is a
  [KeyError]. *)
Definition dict_multimap2 {A B C} (f : A -> B -> result C)
  (d : gmap string A) (arg : gmap string B) : result (gmap string C) :=
imapM (fun key x =>
         match arg !! key with
         | Some y => f x y
         | None => Raise (KeyError key)
         end) d.

End Dict.

(** ** The nested sampler ([jaxns/nested_sampling.py]) *)
Module NestedSampling.
Import Jnp Dict.

(** What a likelihood function returns: an array of shape [()] or an array
  with at least one axis. *)
Inductive ndarray : Type :=
| Scalar (x : float)
| Tensor (dim : nat) (dims : list nat) (data : list float).

Definition shape (a : ndarray) : list nat :=
match a with
| Scalar _ => []
| Tensor dim dims _ => dim :: dims
end.

(** [NestedSamplerResults.sampler_results] of a constrained sampler. *)
Record SamplerResults {Key Val SamplerState : Type} : Type := {
sr_key : Key;
sr_num_likelihood_evaluations : Z;
sr_u_new : list float;
sr_x_new : gmap string Val;
sr_log_L_new : float;
sr_sampler_state : SamplerState;
}.
Arguments SamplerResults : clear implicits.

(** The library functions of [jax] the engine calls and the development
  does not define: the PRNG, the logarithms, casts and allocation.
  [Val] is the value of one prior variable for one sample. *)
Class Jax (Key Val : Type) : Type := {
random_split : Key -> nat -> list Key;
random_uniform : Key -> nat -> list float;
logsumexp : list float -> float;
log : float -> float;
(** [y.astype(x.dtype)] for an array [x] of stacked values *)
astype_like : list Val -> Val -> Val;
zeros : list nat -> Val;
argsort : list float -> list nat;
}.

(** The prior chain, as the engine uses it ([jaxns.prior_transforms.PriorChain]
  is not among the sources): [prior_chain(U)], [U_ndims], [to_shapes] and
  the named priors with their [tracked] flag. *)
Record PriorChain (Val : Type) : Type := {
pc_call : list float -> gmap string Val;
pc_U_ndims : nat;
pc_to_shapes : gmap string (list nat);
pc_prior_chain : list (string * PriorTransforms.PriorTransform);
}.
Arguments pc_call {Val}.
Arguments pc_U_ndims {Val}.
Arguments pc_to_shapes {Val}.
Arguments pc_prior_chain {Val}.

(** A marginalised function maps a constrained sample to an array, of which
  the engine only reads the shape. *)
Definition marginal (Val : Type) : Type := gmap string Val -> list nat * Val.

(** [jaxns.param_tracking.TrackedExpectation] (not among the sources): the
  state it is built around and the methods the engine calls. *)
Class Tracker (Val TrackedState : Type) : Type := {
te_initial : option (gmap string (marginal Val)) ->
             option (gmap string (list nat)) -> TrackedState;
te_update : option (gmap string (marginal Val)) -> TrackedState ->
            gmap string Val -> nat -> float -> TrackedState;
te_update_from_live_points :
  option (gmap string (marginal Val)) -> TrackedState ->
  gmap string (list Val) -> list float ->
  TrackedState * (list float * list float * list float * list float);
te_X_log_value : TrackedState -> float;
te_dw_log_value : TrackedState -> float;
evidence_mean : TrackedState -> float;
evidence_variance : TrackedState -> float;
effective_sample_size : TrackedState -> float;
information_gain_mean : TrackedState -> float;
information_gain_variance : TrackedState -> float;
marg_mean : option (gmap string (marginal Val)) -> TrackedState ->
            gmap string Val;
}.

(** [jaxns.likelihood_samplers] (not among the sources): the two constrained
  samplers and the initialisation of their state. *)
Class Samplers (Key Val SamplerState : Type) : Type := {
init_slice_sampler_state :
  Key -> list (list float) -> Z -> float -> Z -> SamplerState;
slice_sampling :
  Key -> float -> list (list float) -> Z ->
  (gmap string Val -> result float) -> PriorChain Val -> nat -> float ->
  SamplerState -> result (SamplerResults Key Val SamplerState);
init_multi_ellipsoid_sampler_state :
  Key -> list (list float) -> Z -> float -> SamplerState;
multi_ellipsoid_sampler :
  Key -> float -> list (list float) ->
  (gmap string Val -> result float) -> PriorChain Val -> SamplerState ->
  float -> nat -> result (SamplerResults Key Val SamplerState);
}.

(** [class NestedSamplerState(NamedTuple)]; the buffers are [None] under
  [only_marginalise]. *)
Record NestedSamplerState {Key Val SamplerState TrackedState : Type} : Type := {
key : Key;
done : bool;
i : Z;
num_likelihood_evaluations : Z;
live_points_U : list (list float);
live_points : gmap string (list Val);
log_L_live : list float;
dead_points : option (gmap string (list Val));
log_X : option (list float);
log_w : option (list float);
num_dead : Z;
log_L_dead : option (list float);
sampler_efficiency : option (list float);
status : Z;
sampler_state : SamplerState;
tracked_expectations_state : TrackedState;
}.
Arguments NestedSamplerState : clear implicits.

(** The attributes [NestedSampler.__init__] sets. *)
Record NestedSampler {Val : Type} : Type := {
sampler_name : string;
loglikelihood : gmap string Val -> result float;
prior_chain : PriorChain Val;
marginalised : option (gmap string (marginal Val));
marginalised_shapes : option (gmap string (list nat));
}.
Arguments NestedSampler : clear implicits.

(** The named tuple [_finalise_results] builds: the names in [collect],
  and [samples] when samples were collected. *)
Record NestedSamplerResults {Val : Type} : Type := {
logZ : float;
logZerr : float;
ESS : float;
ESS_err : option float;
H : float;
H_err : float;
res_num_likelihood_evaluations : Z;
efficiency : float;
res_marginalised : option (gmap string Val);
marginalised_uncert : option (gmap string Val);
log_L_samples : option (list float);
n_per_sample : option (list float);
log_p : option (list float);
res_log_X : option (list float);
res_sampler_efficiency : option (list float);
num_samples : Z;
samples : option (gmap string (list Val));
}.
Arguments NestedSamplerResults : clear implicits.

Definition _available_samplers : list string := ["slice"; "multi_ellipsoid"].

(** Indexing along the leading axis with a traced index: the index is
  clamped into range. *)
Definition getitem {A} (x : list A) (idx : nat) : result A :=
match x !! Nat.min idx (length x - 1) with
| Some v => Ok v
| None => Raise (IndexError "index is out of bounds for axis 0 with size 0")
end.

(** A buffer that [only_marginalise] left unallocated cannot be updated. *)
Definition the_buffer {A} (b : option A) : result A :=
match b with
| Some x => Ok x
| None => Raise (TypeError "NoneType has no shape")
end.

(** [key, subkey = random.split(key, 2)]. *)
Definition split2 {Key Val} `{!Jax Key Val} (k : Key) : result (Key * Key) :=
match random_split k 2 with
| [k1; k2] => Ok (k1, k2)
| _ => Raise (ValueError "not enough values to unpack")
end.

(** [sampler_kwargs.get(name, default)]. *)
Definition kwargs_get (kwargs : gmap string Z) (name : string) (default : Z) : Z :=
match kwargs !! name with
| Some v => v
| None => default
end.

(** [lax.while_loop(cond, body, init)]; [fuel] bounds the number of
  iterations the model follows, and [None] means it ran out. *)
Fixpoint while_loop {S} (fuel : nat) (cond : S -> bool)
  (body : S -> result S) (s : S) : option (result S) :=
match fuel with
| O => None
| Datatypes.S fuel' =>
    if cond s then
      match body s with
      | Ok s' => while_loop fuel' cond body s'
      | Raise e => Some (Raise e)
      end
    else Some (Ok s)
end.

(** [jnp.zeros((n,) + shape)] and the like: [n] copies of a row; a negative
  dimension is not a shape, which [jax] reports as a [TypeError]. *)
Definition full {A} (n : Z) (row : A) : result (list A) :=
if n <? 0
then Raise (TypeError "Shapes must be 1D sequences of concrete values of integer type")
else Ok (replicate (Z.to_nat n) row).

(** [lax.dynamic_update_slice] of rows into a matrix at [[row, col]]: the
  rows are placed along the leading axis and each of them is written into
  its row from column [col] on. *)
Definition dynamic_update_slice2 {A} (operand update : list (list A))
  (row col : Z) : result (list (list A)) :=
if (length operand <? length update)%nat
then Raise (TypeError "dynamic_update_slice update shape must be smaller than operand shape")
else
  let s := clamp_start (length operand) (length update) row in
  rows ← result_mapM (fun ou => dynamic_update_slice ou.1 ou.2 col)
           (zip (take (length update) (drop s operand)) update);
  Ok (take s operand ++ rows ++ drop (s + length update)%nat operand).

Section Engine.
Context {Key Val SamplerState TrackedState : Type}.
Context `{!Jax Key Val, !Tracker Val TrackedState,
          !Samplers Key Val SamplerState}.

Local Abbreviation State :=
  (NestedSamplerState Key Val SamplerState TrackedState).

(** The closure [fixed_likelihood] of [__init__]: the shape test, then
    [jnp.where(jnp.isnan(log_L), -jnp.inf, log_L)]. *)
Definition fixed_likelihood (loglikelihood : gmap string Val -> ndarray)
    (x : gmap string Val) : result float :=
  let log_L := loglikelihood x in
  match log_L with
  | Tensor _ _ _ => Raise (ValueError "Shape of likelihood should be scalar")
  | Scalar v => Ok (where_ (isnan v) (- F64.inf)%float v)
  end.

(** [NestedSampler.__init__]. *)
Definition __init__ (loglikelihood : gmap string Val -> ndarray)
    (prior_chain : PriorChain Val) (sampler_name : string)
    (marginalised : gmap string (marginal Val))
  : result (NestedSampler Val) :=
  if bool_decide (sampler_name ∈ _available_samplers) then
    test_input ← dict_multimap (fun shape => Ok (zeros shape))
                   (pc_to_shapes prior_chain);
    Ok {| sampler_name := sampler_name;
          loglikelihood := fixed_likelihood loglikelihood;
          prior_chain := prior_chain;
          marginalised :=
            if (0 <? size marginalised)%nat then Some marginalised else None;
          marginalised_shapes :=
            if (0 <? size marginalised)%nat
            then Some ((fun marg : marginal Val => (marg test_input).1)
                         <$> marginalised)
            else None |}
  else Raise (ValueError "sampler should be one of the available samplers").

(** [_filter_prior_chain]: the entries of [d] whose prior is tracked. *)
Definition _filter_prior_chain {A} (self : NestedSampler Val)
    (d : gmap string A) : result (gmap string A) :=
  kvs ← result_mapM
          (fun np : string * PriorTransforms.PriorTransform =>
             match d !! np.1 with
             | Some v => Ok (np.1, v)
             | None => Raise (KeyError np.1)
             end)
          (filter (fun np => PriorTransforms.tracked np.2 = true)
             (pc_prior_chain (prior_chain self)));
  Ok (list_to_map kvs).

(** [single_sample] of [initial_state]. *)
Definition single_sample (self : NestedSampler Val) (key : Key)
  : result (list float * gmap string Val * float) :=
  let U := random_uniform key (pc_U_ndims (prior_chain self)) in
  let constrained := pc_call (prior_chain self) U in
  log_L ← loglikelihood self constrained;
  Ok (U, constrained, log_L).

(** [vmap] stacks the dictionaries of the samples key by key; the keys are
    those of a sample, which are the keys of [to_shapes]. *)
Definition stack_dicts (structure : gmap string (list nat))
    (ds : list (gmap string Val)) : gmap string (list Val) :=
  foldr (map_zip_with cons) ((fun _ => []) <$> structure) ds.

(** The sampler state [initial_state] builds for the chosen sampler. *)
Definition init_sampler (self : NestedSampler Val) (key : Key)
    (live_points_U : list (list float)) (log_X0 : float)
    (sampler_kwargs : gmap string Z) : result (Key * SamplerState) :=
  if String.eqb (sampler_name self) "slice" then
    '(key, init_sampler_state_key) ← split2 key;
    let depth := kwargs_get sampler_kwargs "depth" 3 in
    let num_slices := kwargs_get sampler_kwargs "num_slices" 1 in
    Ok (key, init_slice_sampler_state init_sampler_state_key live_points_U
               depth log_X0 num_slices)
  else if String.eqb (sampler_name self) "multi_ellipsoid" then
    '(key, init_sampler_state_key) ← split2 key;
    let depth := kwargs_get sampler_kwargs "depth" 3 in
    Ok (key, init_multi_ellipsoid_sampler_state init_sampler_state_key
               live_points_U depth log_X0)
  else Raise (ValueError "Invalid sampler name").

(** [NestedSampler.initial_state]. [vmap(single_sample)] is followed as a
    map over the keys of the batch; [vmap] traces [single_sample] once also
    when the batch is empty, so the shape test of the likelihood raises for
    [num_live_points = 0] too, and the model follows that trace on the key
    that is split. *)
Definition initial_state (self : NestedSampler Val) (key : Key)
    (num_live_points max_samples : Z)
    (collect_samples only_marginalise : bool)
    (sampler_kwargs : gmap string Z) : result State :=
  '(key, init_key) ← split2 key;
  keys ← (if num_live_points <? 0
          then Raise (ValueError "negative dimensions are not allowed")
          else Ok (random_split init_key (Z.to_nat num_live_points)));
  batch ← match keys with
          | [] => _ ← single_sample self init_key; Ok []
          | _ :: _ => result_mapM (single_sample self) keys
          end;
  let live_points_U := batch.*1.*1 in
  let live_points :=
    stack_dicts (pc_to_shapes (prior_chain self)) batch.*1.*2 in
  let log_L_live := batch.*2 in
  dead_points ←
    (if negb only_marginalise && collect_samples then
       shapes ← _filter_prior_chain self (pc_to_shapes (prior_chain self));
       Some <$> dict_multimap (fun shape => full max_samples (zeros shape))
                  shapes
     else Ok None);
  log_L_dead ←
    (if negb only_marginalise then Some <$> full max_samples 0%float
     else Ok None);
  sampler_efficiency ←
    (if negb only_marginalise then Some <$> full max_samples 1%float
     else Ok None);
  log_X ←
    (if negb only_marginalise
     then Some <$> full max_samples (- F64.inf * 1)%float
     else Ok None);
  log_w ←
    (if negb only_marginalise
     then Some <$> full max_samples (- F64.inf * 1)%float
     else Ok None);
  let tracked_expectations :=
    te_initial (marginalised self) (marginalised_shapes self) in
  '(key, sampler_state) ←
    init_sampler self key live_points_U
      (te_X_log_value tracked_expectations) sampler_kwargs;
  Ok {| key := key;
        done := false;
        i := 0;
        num_likelihood_evaluations := num_live_points;
        live_points := live_points;
        live_points_U := live_points_U;
        log_L_live := log_L_live;
        dead_points := dead_points;
        log_L_dead := log_L_dead;
        sampler_efficiency := sampler_efficiency;
        num_dead := 0;
        status := 0;
        sampler_state := sampler_state;
        tracked_expectations_state := tracked_expectations;
        log_X := log_X;
        log_w := log_w |}.

(** [state._replace(...)], one function per group of fields the source
    replaces together. *)
Definition replace_buffers (state : State)
    (log_X' log_w' log_L_dead' : list float) : State :=
  {| key := key state; done := done state; i := i state;
     num_likelihood_evaluations := num_likelihood_evaluations state;
     live_points_U := live_points_U state; live_points := live_points state;
     log_L_live := log_L_live state; dead_points := dead_points state;
     log_X := Some log_X'; log_w := Some log_w'; num_dead := num_dead state;
     log_L_dead := Some log_L_dead';
     sampler_efficiency := sampler_efficiency state; status := status state;
     sampler_state := sampler_state state;
     tracked_expectations_state := tracked_expectations_state state |}.

Definition replace_dead_points (state : State)
    (dead_points' : gmap string (list Val)) : State :=
  {| key := key state; done := done state; i := i state;
     num_likelihood_evaluations := num_likelihood_evaluations state;
     live_points_U := live_points_U state; live_points := live_points state;
     log_L_live := log_L_live state; dead_points := Some dead_points';
     log_X := log_X state; log_w := log_w state; num_dead := num_dead state;
     log_L_dead := log_L_dead state;
     sampler_efficiency := sampler_efficiency state; status := status state;
     sampler_state := sampler_state state;
     tracked_expectations_state := tracked_expectations_state state |}.

Definition replace_sampler_efficiency (state : State)
    (sampler_efficiency' : list float) : State :=
  {| key := key state; done := done state; i := i state;
     num_likelihood_evaluations := num_likelihood_evaluations state;
     live_points_U := live_points_U state; live_points := live_points state;
     log_L_live := log_L_live state; dead_points := dead_points state;
     log_X := log_X state; log_w := log_w state; num_dead := num_dead state;
     log_L_dead := log_L_dead state;
     sampler_efficiency := Some sampler_efficiency'; status := status state;
     sampler_state := sampler_state state;
     tracked_expectations_state := tracked_expectations_state state |}.

Definition replace_step (state : State) (key' : Key)
    (num_likelihood_evaluations' : Z) (log_L_live' : list float)
    (live_points' : gmap string (list Val)) (live_points_U' : list (list float))
    (sampler_state' : SamplerState) (tracked_expectations_state' : TrackedState)
    (num_dead' : Z) : State :=
  {| key := key'; done := done state; i := i state;
     num_likelihood_evaluations := num_likelihood_evaluations';
     live_points_U := live_points_U'; live_points := live_points';
     log_L_live := log_L_live'; dead_points := dead_points state;
     log_X := log_X state; log_w := log_w state; num_dead := num_dead';
     log_L_dead := log_L_dead state;
     sampler_efficiency := sampler_efficiency state; status := status state;
     sampler_state := sampler_state';
     tracked_expectations_state := tracked_expectations_state' |}.

Definition replace_done_i (state : State) (done' : bool) (i' : Z) : State :=
  {| key := key state; done := done'; i := i';
     num_likelihood_evaluations := num_likelihood_evaluations state;
     live_points_U := live_points_U state; live_points := live_points state;
     log_L_live := log_L_live state; dead_points := dead_points state;
     log_X := log_X state; log_w := log_w state; num_dead := num_dead state;
     log_L_dead := log_L_dead state;
     sampler_efficiency := sampler_efficiency state; status := status state;
     sampler_state := sampler_state state;
     tracked_expectations_state := tracked_expectations_state state |}.

(** The first part of [_one_step], "get next dead point": the index of the
    minimum, the dead point and its log-likelihood. *)
Definition next_dead_point (state : State)
  : result (nat * gmap string Val * float) :=
  i_min ← argmin (log_L_live state);
  dead_point ← dict_multimap (fun x => getitem x i_min) (live_points state);
  log_L_min ← getitem (log_L_live state) i_min;
  Ok (i_min, dead_point, log_L_min).

(** The call of the constrained sampler in [_one_step], "select cluster to
    spawn into". *)
Definition call_sampler (self : NestedSampler Val) (state : State)
    (sampler_kwargs : gmap string Z) (i_min : nat) (log_L_min : float)
    (tracked_expectations : TrackedState)
  : result (SamplerResults Key Val SamplerState) :=
  if String.eqb (sampler_name self) "slice" then
    let num_slices := kwargs_get sampler_kwargs "num_slices" 1 in
    slice_sampling (key state) log_L_min (live_points_U state) num_slices
      (loglikelihood self) (prior_chain self) i_min
      (te_X_log_value tracked_expectations) (sampler_state state)
  else if String.eqb (sampler_name self) "multi_ellipsoid" then
    multi_ellipsoid_sampler (key state) log_L_min (live_points_U state)
      (loglikelihood self) (prior_chain self) (sampler_state state)
      (te_X_log_value tracked_expectations) i_min
  else Raise (ValueError "Invalid sampler name").

(** [NestedSampler._one_step]. *)
Definition _one_step (self : NestedSampler Val) (state : State)
    (collect_samples only_marginalise : bool)
    (sampler_kwargs : gmap string Z) : result State :=
  '(i_min, dead_point, log_L_min) ← next_dead_point state;
  let N := length (log_L_live state) in
  let tracked_expectations :=
    te_update (marginalised self) (tracked_expectations_state state)
      dead_point N log_L_min in
  state ←
    (if negb only_marginalise then
       b_X ← the_buffer (log_X state);
       log_X ← dynamic_update_slice b_X
                 [te_X_log_value tracked_expectations] (num_dead state);
       b_w ← the_buffer (log_w state);
       log_w ← dynamic_update_slice b_w
                 [te_dw_log_value tracked_expectations] (num_dead state);
       b_L ← the_buffer (log_L_dead state);
       log_L_dead ← dynamic_update_slice b_L [log_L_min] (num_dead state);
       let state := replace_buffers state log_X log_w log_L_dead in
       if collect_samples then
         b_d ← the_buffer (dead_points state);
         dead_points ←
           dict_multimap2
             (fun x y => dynamic_update_slice x [astype_like x y]
                           (num_dead state))
             b_d dead_point;
         Ok (replace_dead_points state dead_points)
       else Ok state
     else Ok state);
  sampler_results ←
    call_sampler self state sampler_kwargs i_min log_L_min tracked_expectations;
  log_L_live ← dynamic_update_slice (log_L_live state)
                 [sr_log_L_new sampler_results] (Z.of_nat i_min);
  live_points ←
    dict_multimap2
      (fun x y => dynamic_update_slice x [astype_like x y] (Z.of_nat i_min))
      (live_points state) (sr_x_new sampler_results);
  live_points_U ← dynamic_update_slice2 (live_points_U state)
                    [sr_u_new sampler_results] (Z.of_nat i_min) 0;
  state ←
    (if negb only_marginalise then
       b_e ← the_buffer (sampler_efficiency state);
       sampler_efficiency ←
         dynamic_update_slice b_e
           [(1 / float_of_int
                   (sr_num_likelihood_evaluations sampler_results))%float]
           (num_dead state);
       Ok (replace_sampler_efficiency state sampler_efficiency)
     else Ok state);
  Ok (replace_step state (sr_key sampler_results)
        (wrap64 (num_likelihood_evaluations state
                 + sr_num_likelihood_evaluations sampler_results))
        log_L_live live_points live_points_U
        (sr_sampler_state sampler_results) tracked_expectations
        (wrap64 (num_dead state + 1))).

(** The residual evidence of the live set and the convergence test of
    [body]: [logZ_live < log(termination_frac) + evidence_mean()]. *)
Definition logZ_live (state : State) : float :=
  (logsumexp (log_L_live state)
   - log (float_of_int (Z.of_nat (length (log_L_live state))))
   + te_X_log_value (tracked_expectations_state state))%float.

Definition converged (termination_frac : float) (state : State) : bool :=
  F64.lt (logZ_live state)
    (log termination_frac
     + evidence_mean (tracked_expectations_state state))%float.

(** The function [body] of [__call__]. *)
Definition body (self : NestedSampler Val)
    (collect_samples only_marginalise : bool) (sampler_kwargs : gmap string Z)
    (termination_frac : float) (max_samples : Z) (state : State)
  : result State :=
  state ← _one_step self state collect_samples only_marginalise sampler_kwargs;
  let done := converged termination_frac state
              || (max_samples <=? wrap64 (i state + 1)) in
  Ok (replace_done_i state done (wrap64 (i state + 1))).

(** [while_loop(lambda state: ~state.done, body, state)]. *)
Definition run_loop (fuel : nat) (self : NestedSampler Val)
    (collect_samples only_marginalise : bool) (sampler_kwargs : gmap string Z)
    (termination_frac : float) (max_samples : Z) (state : State)
  : option (result State) :=
  while_loop fuel (fun state => negb (done state))
    (body self collect_samples only_marginalise sampler_kwargs
       termination_frac max_samples)
    state.

(** [jnp.arange(n)]. *)
Definition arange (n : Z) : list Z := Z.of_nat <$> seq 0 (Z.to_nat n).

(** [NestedSampler._finalise_results]. *)
Definition _finalise_results (self : NestedSampler Val) (state : State)
    (collect_samples only_marginalise : bool) (max_samples : Z)
  : result (NestedSamplerResults Val) :=
  let '(tracked_expectations, live_update_results) :=
    te_update_from_live_points (marginalised self)
      (tracked_expectations_state state) (live_points state)
      (log_L_live state) in
  let '(_, live_log_L, live_log_X, live_log_w) := live_update_results in
  let marginalised' :=
    match marginalised self with
    | Some _ => Some (marg_mean (marginalised self) tracked_expectations)
    | None => None
    end in
  let num_live_points := Z.of_nat (length (log_L_live state)) in
  '(n_per_sample, log_p, log_X, log_L_samples, sampler_efficiency) ←
    (if negb only_marginalise then
       let n_per_sample :=
         (fun j => where_ (j <? num_dead state)
                     (float_of_int num_live_points) F64.inf)
           <$> arange max_samples in
       n_per_sample ←
         dynamic_update_slice n_per_sample
           ((fun j => (float_of_int num_live_points - float_of_int j)%float)
              <$> arange num_live_points)
           (num_dead state);
       b_e ← the_buffer (sampler_efficiency state);
       sampler_efficiency ←
         dynamic_update_slice b_e
           (replicate (Z.to_nat num_live_points) 1%float) (num_dead state);
       b_w ← the_buffer (log_w state);
       log_w ← dynamic_update_slice b_w live_log_w (num_dead state);
       let log_p := (fun w => (w - logsumexp log_w)%float) <$> log_w in
       b_X ← the_buffer (log_X state);
       log_X ← dynamic_update_slice b_X live_log_X (num_dead state);
       b_L ← the_buffer (log_L_dead state);
       log_L_samples ← dynamic_update_slice b_L live_log_L (num_dead state);
       Ok (Some n_per_sample, Some log_p, Some log_X, Some log_L_samples,
           Some sampler_efficiency)
     else Ok (None, None, None, None, None));
  let num_samples := wrap64 (num_dead state + num_live_points) in
  samples ←
    (if collect_samples && negb only_marginalise then
       let ar := argsort (log_L_live state) in
       b_d ← the_buffer (dead_points state);
       Some <$>
         dict_multimap2
           (fun dead_points live_points =>
              rows ← result_mapM
                       (getitem (astype_like dead_points <$> live_points)) ar;
              dynamic_update_slice dead_points rows (num_dead state))
           b_d (live_points state)
     else Ok None);
  Ok {| logZ := evidence_mean tracked_expectations;
        logZerr := PrimFloat.sqrt (evidence_variance tracked_expectations);
        ESS := effective_sample_size tracked_expectations;
        ESS_err := None;
        H := information_gain_mean tracked_expectations;
        H_err :=
          PrimFloat.sqrt (information_gain_variance tracked_expectations);
        res_num_likelihood_evaluations := num_likelihood_evaluations state;
        efficiency :=
          (float_of_int (wrap64 (num_dead state + num_live_points))
           / float_of_int (num_likelihood_evaluations state))%float;
        res_marginalised := marginalised';
        marginalised_uncert := None;
        n_per_sample := n_per_sample;
        log_p := log_p;
        res_log_X := log_X;
        log_L_samples := log_L_samples;
        num_samples := num_samples;
        res_sampler_efficiency := sampler_efficiency;
        samples := samples |}.

(** [NestedSampler.__call__]; [None] when the model's fuel ran out before
    the loop ended. *)
Definition __call__ (fuel : nat) (self : NestedSampler Val) (key : Key)
    (num_live_points max_samples : Z) (collect_samples : bool)
    (termination_frac : float) (only_marginalise : bool)
    (sampler_kwargs : option (gmap string Z))
  : option (result (NestedSamplerResults Val)) :=
  let sampler_kwargs := default ∅ sampler_kwargs in
  match initial_state self key num_live_points max_samples collect_samples
          only_marginalise sampler_kwargs with
  | Raise e => Some (Raise e)
  | Ok state =>
      match run_loop fuel self collect_samples only_marginalise sampler_kwargs
              termination_frac max_samples state with
      | None => None
      | Some (Raise e) => Some (Raise e)
      | Some (Ok state) =>
          Some (_finalise_results self state collect_samples only_marginalise
                  max_samples)
      end
  end.

(** [n] iterations of a loop body from [s]; an exception ends them. *)
Fixpoint iterate {S} (n : nat) (body : S -> result S) (s : S) : result S :=
  match n with
  | O => Ok s
  | Datatypes.S n' => s' ← body s; iterate n' body s'
  end.

(** The live set is rectangular: as many rows in the unit cube and in every
    column of constrained values as there are log-likelihoods. *)
Definition live_wf (s : State) : Prop :=
  length (live_points_U s) = length (log_L_live s)
  /\ forall k col, live_points s !! k = Some col ->
                   length col = length (log_L_live s).

(** The frame of one step: the slot of the first minimum is written in the
    three arrays of the live set, and nothing else of them changes. *)
Definition overwrites_slot (s s' : State) (i_min : nat)
    (sr : SamplerResults Key Val SamplerState) : Prop :=
  log_L_live s' = <[i_min := sr_log_L_new sr]> (log_L_live s)
  /\ (exists old_row new_row,
        live_points_U s !! i_min = Some old_row
        /\ dynamic_update_slice old_row (sr_u_new sr) 0 = Ok new_row
        /\ (length (sr_u_new sr) = length old_row -> new_row = sr_u_new sr)
        /\ live_points_U s' = <[i_min := new_row]> (live_points_U s))
  /\ (forall k, live_points s !! k = None -> live_points s' !! k = None)
  /\ (forall k col, live_points s !! k = Some col ->
        exists y, sr_x_new sr !! k = Some y
          /\ live_points s' !! k = Some (<[i_min := astype_like col y]> col)).

(** The invariant of the loop, after [k] iterations of [body]. *)
Definition run_invariant (tf : float) (ms : Z) (s0 : State) (k : nat)
    (s : State) : Prop :=
  live_wf s
  /\ length (log_L_live s) = length (log_L_live s0)
  /\ status s = 0
  /\ (Z.of_nat k < 2 ^ 63 ->
      i s = Z.of_nat k /\ num_dead s = Z.of_nat k
      /\ ((1 <= k)%nat ->
          done s = converged tf s || (ms <=? Z.of_nat k))).

(** The sampler's contract, tested along [n] iterations from [s]: each
    replacement has a log-likelihood strictly above the threshold, the
    log-likelihood of the point it replaces. *)
Fixpoint replacements_above (n : nat) (body : State -> result State)
    (s : State) : bool :=
  match n with
  | O => true
  | Datatypes.S n' =>
      match body s with
      | Ok s' =>
          match argmin (log_L_live s) with
          | Ok i_min =>
              match log_L_live s !! i_min, log_L_live s' !! i_min with
              | Some log_L_min, Some log_L_new => F64.lt log_L_min log_L_new
              | _, _ => false
              end
          | Raise _ => true
          end && replacements_above n' body s'
      | Raise _ => true
      end
  end.

(** The invariant behind the order of the dead points, after [k]
    iterations: the recorded log-likelihoods are in non-decreasing order and
    none of them is above a live one. *)
Definition dead_invariant (ms : Z) (k : nat) (s : State) : Prop :=
  Forall (fun x => F64.is_nan x = false) (log_L_live s)
  /\ exists b, log_L_dead s = Some b
       /\ length b = Z.to_nat ms
       /\ (forall j1 j2 x y, (j1 <= j2 < k)%nat ->
             b !! j1 = Some x -> b !! j2 = Some y -> F64.le x y = true)
       /\ (forall j j' x y, (j < k)%nat -> b !! j = Some x ->
             log_L_live s !! j' = Some y -> F64.le x y = true).

(** The names [_filter_prior_chain] keeps: those of the tracked priors. *)
Definition tracked_name (self : NestedSampler Val) (k : string) : Prop :=
  exists prior, (k, prior) ∈ pc_prior_chain (prior_chain self)
                /\ PriorTransforms.tracked prior = true.

(** The bookkeeping buffers as the flags leave them: absent under
    [only_marginalise], otherwise [m] entries each, with the dead points
    kept only under [collect_samples], for names the live points have. *)
Definition buffers_wf (cs om : bool) (m : nat) (s : State) : Prop :=
  if om then
    log_X s = None /\ log_w s = None /\ log_L_dead s = None
    /\ sampler_efficiency s = None /\ dead_points s = None
  else
    (exists bX bw bL be,
       log_X s = Some bX /\ log_w s = Some bw /\ log_L_dead s = Some bL
       /\ sampler_efficiency s = Some be
       /\ length bX = m /\ length bw = m /\ length bL = m /\ length be = m)
    /\ (if cs then
          exists bd, dead_points s = Some bd
            /\ forall k col, bd !! k = Some col ->
                 length col = m /\ is_Some (live_points s !! k)
        else dead_points s = None).

(** What the engine needs of a prior chain: a sample has every name of
    [to_shapes]. *)
Definition chain_contract (pc : PriorChain Val) : Prop :=
  forall U k, length U = pc_U_ndims pc ->
              is_Some (pc_to_shapes pc !! k) -> is_Some (pc_call pc U !! k).

(** What the engine needs of a constrained sampler, on a live set with rows
    of the width of the unit cube: it returns, its new point has that width
    and its constrained sample has every name of [to_shapes]. *)
Definition sampler_contract (self : NestedSampler Val) : Prop :=
  forall (s : State) kw i_min L te,
    Forall (fun row => length row = pc_U_ndims (prior_chain self))
      (live_points_U s) ->
    (i_min < length (live_points_U s))%nat ->
    exists sr, call_sampler self s kw i_min L te = Ok sr
      /\ length (sr_u_new sr) = pc_U_ndims (prior_chain self)
      /\ forall k, is_Some (pc_to_shapes (prior_chain self) !! k) ->
                   is_Some (sr_x_new sr !! k).

(** What the engine needs of [jax]: [random.split] and [random.uniform]
    return as many entries as asked, [argsort] as many as it is given. *)
Definition jax_contract : Prop :=
  (forall (k : Key) m, length (random_split k m) = m)
  /\ (forall (k : Key) m, length (random_uniform k m) = m)
  /\ (forall l, length (argsort l) = length l).

(** What the engine needs of [update_from_live_points]: the three arrays
    [_finalise_results] writes have one entry per live point. *)
Definition tracker_contract : Prop :=
  forall marg (st : TrackedState) lp lL,
    let '(_, (_, live_log_L, live_log_X, live_log_w)) :=
      te_update_from_live_points marg st lp lL in
    length live_log_L = length lL /\ length live_log_X = length lL
    /\ length live_log_w = length lL.

(** The assumptions on the collaborators under which a run cannot fail:
    the contracts above, a sampler name [__init__] accepts, a likelihood
    that returns a scalar, and a shape for every tracked prior. *)
Definition engine_contract (self : NestedSampler Val) : Prop :=
  jax_contract /\ tracker_contract
  /\ sampler_name self ∈ _available_samplers
  /\ (forall x, is_Ok (loglikelihood self x) = true)
  /\ (forall k, tracked_name self k ->
                is_Some (pc_to_shapes (prior_chain self) !! k))
  /\ chain_contract (prior_chain self)
  /\ sampler_contract self.

(** The state between two steps of a run: the live set is rectangular,
    its rows have the width of the unit cube, its names are names of
    [to_shapes], and the buffers are as the flags leave them. *)
Definition state_wf (self : NestedSampler Val) (cs om : bool) (m : nat)
    (s : State) : Prop :=
  live_wf s
  /\ Forall (fun row => length row = pc_U_ndims (prior_chain self))
       (live_points_U s)
  /\ (forall k, is_Some (live_points s !! k) ->
                is_Some (pc_to_shapes (prior_chain self) !! k))
  /\ buffers_wf cs om m s.

End Engine.

End NestedSampling.

(** ** A small instance

    Concrete collaborators on which the engine can be run: approximations of
    the logarithm and the exponential, a counter PRNG, a one-variable prior
    chain, a likelihood peaked at 0.5, a sampler that moves the eliminated
    point halfway to the peak, and an evidence tracker in log space. *)
Module Demo.
Import Jnp PriorTransforms NestedSampling.
Local Open Scope float_scope.

Definition ln2 : float := 0x1.62e42fefa39efp-1.

Fixpoint atanh_series (k : nat) (t t2 n : float) : float :=
  match k with
  | O => 0
  | S k' => t / n + atanh_series k' (t * t2) t2 (n + 2)
  end.

Definition log_approx (x : float) : float :=
  if PrimFloat.is_nan x then nan
  else if x <? 0 then nan
  else if x =? 0 then neg_infinity
  else if x =? infinity then infinity
  else let '(m, e) := Z.frexp x in
       let t := (m - 1) / (m + 1) in
       float_of_int e * ln2 + 2 * atanh_series 20 t (t * t) 1.

Fixpoint taylor_exp (k : nat) (y term n : float) : float :=
  match k with
  | O => 0
  | S k' => term + taylor_exp k' y (term * y / n) (n + 1)
  end.

Fixpoint square_n (k : nat) (x : float) : float :=
  match k with
  | O => x
  | S k' => square_n k' (x * x)
  end.

Definition exp_approx (x : float) : float :=
  if PrimFloat.is_nan x then nan
  else if 710 <? x then infinity
  else if x <? -746 then 0
  else square_n 10 (taylor_exp 20 (x / 1024) 1 1).

Definition logsumexp_approx (l : list float) : float :=
  let m := fold_right maximum neg_infinity l in
  if PrimFloat.is_finite m
  then m + log_approx (fold_right (fun x acc => exp_approx (x - m) + acc) 0 l)
  else m.

Definition demo_split (k : Z) (n : nat) : list Z :=
  (fun j => (k * 31 + Z.of_nat j + 1)%Z) <$> seq 0 n.

Definition demo_uniform (k : Z) (n : nat) : list float :=
  (fun j => float_of_int ((k * 7919 + Z.of_nat j * 104729 + 13) mod 1000)
            / 1000) <$> seq 0 n.

#[export] Instance demo_jax : Jax Z (list num) := {|
  random_split := demo_split;
  random_uniform := demo_uniform;
  logsumexp := logsumexp_approx;
  log := log_approx;
  astype_like := fun _ y => y;
  zeros := fun shape => replicate (tuple_prod shape) (NFloat 0);
  argsort := fun l => seq 0 (length l);
|}.

(** The chain of [UniformPrior("x", 0, 1)]: the prior and its two
    hyperparameters, of which only ["x"] is tracked. *)
Definition x_low : PriorTransform := DeltaPrior "_x_low" (PyNum (NInt 0)) false.
Definition x_high : PriorTransform := DeltaPrior "_x_high" (PyNum (NInt 1)) false.
Definition x_prior : PriorTransform :=
  mkPriorTransform "x" 1 [x_low; x_high] true (ClsUniform [1%nat]).

Definition demo_chain : PriorChain (list num) := {|
  pc_call := fun U =>
    match forward log_approx x_prior U [[NInt 0]; [NInt 1]] with
    | Ok x => {[ "x" := x; "_x_low" := [NInt 0]; "_x_high" := [NInt 1] ]}
    | Raise _ => ∅
    end;
  pc_U_ndims := 1;
  pc_to_shapes :=
    {[ "x" := [1%nat]; "_x_low" := [1%nat]; "_x_high" := [1%nat] ]};
  pc_prior_chain := [("_x_low", x_low); ("_x_high", x_high); ("x", x_prior)];
|}.

(** Three likelihoods: one peaked at 0.5, one that is infinite everywhere,
    and one that returns a vector. *)
Definition peak_loglikelihood (x : gmap string (list num)) : ndarray :=
  match x !! "x" with
  | Some [v] => Scalar (- ((to_float v - 0.5) * (to_float v - 0.5)))
  | _ => Scalar nan
  end.

Definition inf_loglikelihood (x : gmap string (list num)) : ndarray :=
  Scalar infinity.

Definition vector_loglikelihood (x : gmap string (list num)) : ndarray :=
  Tensor 2 [] [0; 0].

Record DemoTracked : Type := {
  dt_X : float;
  dt_dw : float;
  dt_logZ : float;
}.

#[export] Instance demo_tracker : Tracker (list num) DemoTracked := {|
  te_initial := fun _ _ =>
    {| dt_X := 0; dt_dw := neg_infinity; dt_logZ := neg_infinity |};
  te_update := fun _ st _ N log_L_min =>
    let X' := dt_X st - 1 / float_of_int (Z.of_nat N) in
    let dw := log_approx (exp_approx (dt_X st) - exp_approx X') + log_L_min in
    {| dt_X := X'; dt_dw := dw;
       dt_logZ := logsumexp_approx [dt_logZ st; dw] |};
  te_update_from_live_points := fun _ st _ log_L_live =>
    let w := (fun L => dt_X st
                       - log_approx (float_of_int (Z.of_nat (length log_L_live)))
                       + L) <$> log_L_live in
    ({| dt_X := dt_X st; dt_dw := dt_dw st;
        dt_logZ := logsumexp_approx (dt_logZ st :: w) |},
     (log_L_live, log_L_live, replicate (length log_L_live) (dt_X st), w));
  te_X_log_value := dt_X;
  te_dw_log_value := dt_dw;
  evidence_mean := dt_logZ;
  evidence_variance := fun _ => 0;
  effective_sample_size := fun _ => 0;
  information_gain_mean := fun _ => 0;
  information_gain_variance := fun _ => 0;
  marg_mean := fun _ _ => ∅;
|}.

(** The sampler: the eliminated point moved halfway to 0.5. *)
Definition halfway_sampler (key : Z) (live_points_U : list (list float))
    (loglikelihood : gmap string (list num) -> result float)
    (chain : PriorChain (list num)) (i_min : nat)
  : result (SamplerResults Z (list num) unit) :=
  let u_new := (fun u => (u + 0.5) / 2) <$> default [] (live_points_U !! i_min) in
  let x_new := pc_call chain u_new in
  log_L_new ← loglikelihood x_new;
  Ok {| sr_key := (key + 1)%Z;
        sr_num_likelihood_evaluations := 1;
        sr_u_new := u_new;
        sr_x_new := x_new;
        sr_log_L_new := log_L_new;
        sr_sampler_state := tt |}.

#[export] Instance demo_samplers : Samplers Z (list num) unit := {|
  init_slice_sampler_state := fun _ _ _ _ _ => tt;
  slice_sampling := fun key _ live_points_U _ loglikelihood chain i_min _ _ =>
    halfway_sampler key live_points_U loglikelihood chain i_min;
  init_multi_ellipsoid_sampler_state := fun _ _ _ _ => tt;
  multi_ellipsoid_sampler :=
    fun key _ live_points_U loglikelihood chain _ _ i_min =>
      halfway_sampler key live_points_U loglikelihood chain i_min;
|}.

(** [NestedSampler(loglikelihood, demo_chain, "slice")], when it succeeds. *)
Definition demo_sampler (loglikelihood : gmap string (list num) -> ndarray)
  : NestedSampler (list num) :=
  {| sampler_name := "slice";
     NestedSampling.loglikelihood := fixed_likelihood loglikelihood;
     NestedSampling.prior_chain := demo_chain;
     marginalised := None;
     marginalised_shapes := None |}.

End Demo.

(** ** Binary64 comparison facts

    Derived from the specification of the primitive comparisons. *)
Module F64Facts.
Import F64.

Lemma SFcompare_refl (s : spec_float) :
  s <> S754_nan -> SFcompare s s = Some Eq.
Proof.
  destruct s as [b|b| |b m e]; simpl; intros Hs; try congruence.
  - destruct b; reflexivity.
  - rewrite Z.compare_refl.
    fold (Pos.compare m m). rewrite Pos.compare_refl. destruct b; reflexivity.
Qed.

Lemma is_nan_false (x : float) :
  is_nan x = false <-> Prim2SF x <> S754_nan.
Proof.
  unfold is_nan, PrimFloat.is_nan. rewrite FloatAxioms.eqb_spec. unfold SFeqb.
  split.
  - intros H Hn. rewrite Hn in H. simpl in H. discriminate.
  - intros H. rewrite SFcompare_refl by assumption. reflexivity.
Qed.

Lemma SFcompare_some_l (a b : spec_float) c :
  SFcompare a b = Some c -> a <> S754_nan /\ b <> S754_nan.
Proof.
  destruct a as [?|?| |? ? ?], b as [?|?| |? ? ?]; simpl; intros H;
    split; congruence.
Qed.

Lemma SFcompare_total (a b : spec_float) :
  a <> S754_nan -> b <> S754_nan -> exists c, SFcompare a b = Some c.
Proof.
  destruct a as [?|?| |? ? ?], b as [?|?| |? ? ?]; simpl; intros Ha Hb;
    try congruence; eauto.
Qed.

Lemma SFcompare_antisym (a b : spec_float) c :
  SFcompare a b = Some c -> SFcompare b a = Some (CompOpp c).
Proof.
  destruct a as [sa|sa| |sa ma ea], b as [sb|sb| |sb mb eb]; simpl;
    intros H; try discriminate;
    try (destruct sa; try destruct sb; inversion H; reflexivity);
    try (destruct sb; inversion H; reflexivity).
  inversion H as [H']; clear H H'. f_equal.
  rewrite (Z.compare_antisym ea eb).
  fold (Pos.compare ma mb). fold (Pos.compare mb ma).
  rewrite (Pos.compare_antisym ma mb).
  destruct sa, sb; simpl; try reflexivity;
    destruct (ea ?= eb)%Z; simpl; try reflexivity;
    destruct (ma ?= mb)%positive; reflexivity.
Qed.

Lemma lt_not_nan (x y : float) :
  lt x y = true -> is_nan x = false /\ is_nan y = false.
Proof.
  unfold lt. rewrite FloatAxioms.ltb_spec. unfold SFltb.
  destruct (SFcompare (Prim2SF x) (Prim2SF y)) as [c|] eqn:E; [|discriminate].
  intros _. apply SFcompare_some_l in E. rewrite !is_nan_false. exact E.
Qed.

Lemma le_not_nan (x y : float) :
  le x y = true -> is_nan x = false /\ is_nan y = false.
Proof.
  unfold le. rewrite FloatAxioms.leb_spec. unfold SFleb.
  destruct (SFcompare (Prim2SF x) (Prim2SF y)) as [c|] eqn:E; [|discriminate].
  intros _. apply SFcompare_some_l in E. rewrite !is_nan_false. exact E.
Qed.

Lemma lt_le (x y : float) : lt x y = true -> le x y = true.
Proof.
  unfold lt, le. rewrite FloatAxioms.ltb_spec, FloatAxioms.leb_spec.
  unfold SFltb, SFleb.
  destruct (SFcompare (Prim2SF x) (Prim2SF y)) as [[]|]; congruence.
Qed.

Lemma le_refl (x : float) : is_nan x = false -> le x x = true.
Proof.
  rewrite is_nan_false. intros H. unfold le.
  rewrite FloatAxioms.leb_spec. unfold SFleb.
  rewrite SFcompare_refl by assumption. reflexivity.
Qed.

Lemma not_lt_le (x y : float) :
  is_nan x = false -> is_nan y = false -> lt x y = false -> le y x = true.
Proof.
  rewrite !is_nan_false. intros Hx Hy. unfold lt, le.
  rewrite FloatAxioms.ltb_spec, FloatAxioms.leb_spec. unfold SFltb, SFleb.
  destruct (SFcompare_total _ _ Hx Hy) as [c Hc]. rewrite Hc.
  rewrite (SFcompare_antisym _ _ _ Hc). destruct c; simpl; congruence.
Qed.

Lemma lt_irrefl (x : float) : lt x x = false.
Proof.
  unfold lt. rewrite FloatAxioms.ltb_spec. unfold SFltb.
  destruct (Prim2SF x) as [b|b| |b m e] eqn:E; simpl; try reflexivity.
  - destruct b; reflexivity.
  - rewrite Z.compare_refl. fold (Pos.compare m m). rewrite Pos.compare_refl.
    destruct b; reflexivity.
Qed.

Lemma SFleb_rank (a b : spec_float) :
  SFleb a b = true <->
  a <> S754_nan /\ b <> S754_nan /\ lex_le (rank a) (rank b).
Proof.
  unfold SFleb.
  destruct a as [sa|sa| |sa ma ea], b as [sb|sb| |sb mb eb]; simpl;
    try (split; [discriminate | intros (? & ? & ?); congruence]);
    try (destruct sa); try (destruct sb); simpl;
    try (split; [intros _; repeat split; try discriminate; lia
                | intros _; reflexivity]);
    try (split; [discriminate | intros (_ & _ & ?); lia]).
  - fold (Pos.compare ma mb).
    destruct (Z.compare_spec ea eb); simpl;
      [destruct (Pos.compare_spec ma mb); simpl|..];
      (split; [intros ?; repeat split; try discriminate; try lia
              | intros (_ & _ & ?); try reflexivity; try lia]); discriminate.
  - fold (Pos.compare ma mb).
    destruct (Z.compare_spec ea eb); simpl;
      [destruct (Pos.compare_spec ma mb); simpl|..];
      (split; [intros ?; repeat split; try discriminate; try lia
              | intros (_ & _ & ?); try reflexivity; try lia]); discriminate.
Qed.

Lemma le_trans (x y z : float) :
  le x y = true -> le y z = true -> le x z = true.
Proof.
  unfold le. rewrite !FloatAxioms.leb_spec, !SFleb_rank.
  intros (Hx & _ & Hxy) (_ & Hz & Hyz). repeat split; try assumption.
  unfold lex_le in *.
  destruct (rank (Prim2SF x)) as [[? ?] ?], (rank (Prim2SF y)) as [[? ?] ?],
    (rank (Prim2SF z)) as [[? ?] ?]. lia.
Qed.

End F64Facts.

(** ** Properties of the prior transforms *)
Module PriorProps.
Import Jnp PriorTransforms.

Lemma argmax_from_bound (l : list float) (i bi : nat) (best : float) :
  (bi < i)%nat -> (argmax_from l i bi best < i + length l)%nat.
Proof.
  revert i bi best. induction l as [|x l IH]; intros i bi best Hbi; simpl.
  - lia.
  - destruct (takes_max x best).
    + specialize (IH (S i) i x). lia.
    + specialize (IH (S i) bi best). lia.
Qed.

Lemma argmax_bound (l : list float) :
  l <> [] -> exists k, argmax l = Ok k /\ (k < length l)%nat.
Proof.
  destruct l as [|x l]; [congruence|]. intros _. simpl.
  eexists. split; [reflexivity|].
  pose proof (argmax_from_bound l 1 0 x). lia.
Qed.

(** The clamp of [Gumbel.forward]: what reaches the inner logarithm is at
    least [eps], whatever number the uniform input is. *)
Lemma maximum_eps_ge (u : float) :
  F64.is_nan u = false -> F64.le eps (maximum u eps) = true.
Proof.
  intros Hu. unfold maximum. rewrite Hu.
  assert (He : F64.is_nan eps = false) by reflexivity. rewrite He.
  destruct (F64.lt u eps) eqn:Hlt.
  - apply F64Facts.le_refl. exact He.
  - apply F64Facts.not_lt_le; assumption.
Qed.

(** C9: [UniformPrior(low=0, high=10)] at the uniform input 0.5 yields
    exactly 5.0, for integer and for floating-point hyperparameters alike;
    [DeltaPrior(value=3.0)] yields 3.0 for every uniform input and every
    keyword context, and takes zero dimensions of the unit cube. *)
Theorem uniform_midpoint_and_delta_constant :
  forall (log : float -> float) (name : string) (tracked : bool),
    (p ← UniformPrior name (inr (PyNum (NInt 0))) (inr (PyNum (NInt 10)))
           tracked;
     forward_fixed log p [0.5%float]) = Ok [NFloat 5%float]
    /\ (p ← UniformPrior name (inr (PyNum (NFloat 0%float)))
              (inr (PyNum (NFloat 10%float))) tracked;
        forward_fixed log p [0.5%float]) = Ok [NFloat 5%float]
    /\ (forall U parents,
          forward log (DeltaPrior name (PyNum (NFloat 3%float)) tracked)
            U parents = Ok [NFloat 3%float])
    /\ U_ndims (DeltaPrior name (PyNum (NFloat 3%float)) tracked) = 0%nat.
Proof.
  intros log name tracked. repeat split.
Qed.

End PriorProps.

(** ** Lemmas on the error monad, updates and dictionaries *)
Module ResultLemmas.
Import Jnp Dict.

Lemma bind_Ok {A B} (m : result A) (f : A -> result B) (y : B) :
  (m ≫= f) = Ok y <-> exists a, m = Ok a /\ f a = Ok y.
Proof.
  destruct m as [a|e]; simpl; split.
  - intros H. exists a. split; [reflexivity | exact H].
  - intros (a' & Ha & H). inversion Ha. subst. exact H.
  - discriminate.
  - intros (a' & Ha & _). discriminate.
Qed.

Lemma fmap_Ok {A B} (m : result A) (f : A -> B) (y : B) :
  (f <$> m) = Ok y <-> exists a, m = Ok a /\ y = f a.
Proof.
  destruct m as [a|e]; simpl; split.
  - intros H. inversion H. eauto.
  - intros (a' & Ha & ->). inversion Ha. reflexivity.
  - discriminate.
  - intros (a' & Ha & _). discriminate.
Qed.

Lemma result_mapM_Ok {A B} (f : A -> result B) (l : list A) (ys : list B) :
  result_mapM f l = Ok ys -> Forall2 (fun x y => f x = Ok y) l ys.
Proof.
  revert ys. induction l as [|x l IH]; simpl; intros ys H.
  - inversion H. constructor.
  - apply bind_Ok in H as (y & Hy & H).
    apply bind_Ok in H as (ys' & Hys & H). inversion H. subst.
    constructor; auto.
Qed.

Lemma result_mapM_total {A B} (f : A -> result B) (l : list A) :
  Forall (fun x => exists y, f x = Ok y) l ->
  exists ys, result_mapM f l = Ok ys.
Proof.
  induction 1 as [|x l (y & Hy) _ (ys & Hys)]; simpl.
  - eauto.
  - rewrite Hy. simpl. rewrite Hys. simpl. eauto.
Qed.

Lemma result_mapM_Raise {A B} (f : A -> result B) (x : A) (l : list A) e :
  f x = Raise e -> result_mapM f (x :: l) = Raise e.
Proof. intros H. simpl. rewrite H. reflexivity. Qed.

Lemma clamp_start_fits (n m : nat) (start : Z) :
  (m <= n)%nat -> (clamp_start n m start + m <= n)%nat.
Proof. unfold clamp_start. intros H. destruct (start <? 0); lia. Qed.

Lemma clamp_start_in_range (n m : nat) (start : Z) :
  0 <= start -> start + Z.of_nat m <= Z.of_nat n ->
  clamp_start n m start = Z.to_nat start.
Proof.
  unfold clamp_start. intros H0 H1.
  destruct (Z.ltb_spec start 0); lia.
Qed.

Lemma dynamic_update_slice_Ok {A} (operand update r : list A) (start : Z) :
  dynamic_update_slice operand update start = Ok r ->
  (length update <= length operand)%nat
  /\ r = take (clamp_start (length operand) (length update) start) operand
         ++ update
         ++ drop (clamp_start (length operand) (length update) start
                  + length update)%nat operand.
Proof.
  unfold dynamic_update_slice.
  destruct (Nat.ltb_spec (length operand) (length update)); [discriminate|].
  intros H'. inversion H'. split; [lia | reflexivity].
Qed.

Lemma dynamic_update_slice_length {A} (operand update r : list A) (start : Z) :
  dynamic_update_slice operand update start = Ok r ->
  length r = length operand.
Proof.
  intros H. apply dynamic_update_slice_Ok in H as (Hle & ->).
  pose proof (clamp_start_fits _ _ start Hle).
  rewrite !length_app, length_take, length_drop. lia.
Qed.

(** Writing one element is a list update at the clamped index. *)
Lemma dynamic_update_slice_one {A} (operand r : list A) (v : A) (start : Z) :
  dynamic_update_slice operand [v] start = Ok r ->
  (clamp_start (length operand) 1 start < length operand)%nat
  /\ r = <[clamp_start (length operand) 1 start := v]> operand.
Proof.
  intros H. apply dynamic_update_slice_Ok in H as (Hle & ->). simpl in *.
  pose proof (clamp_start_fits _ _ start Hle).
  split; [lia|]. rewrite insert_take_drop by lia.
  rewrite Nat.add_1_r. reflexivity.
Qed.

Lemma dynamic_update_slice_one_at {A} (operand r : list A) (v : A) (idx : nat) :
  (idx < length operand)%nat ->
  dynamic_update_slice operand [v] (Z.of_nat idx) = Ok r ->
  r = <[idx := v]> operand.
Proof.
  intros Hi H. apply dynamic_update_slice_one in H as (_ & ->).
  rewrite clamp_start_in_range by (simpl; lia). rewrite Nat2Z.id. reflexivity.
Qed.

Lemma dynamic_update_slice_total {A} (operand update : list A) (start : Z) :
  (length update <= length operand)%nat ->
  exists r, dynamic_update_slice operand update start = Ok r.
Proof.
  intros H. unfold dynamic_update_slice.
  destruct (Nat.ltb_spec (length operand) (length update)); [lia|]. eauto.
Qed.

(** What [imapM] returns, key by key. *)
Lemma mapM_kv_Ok {A B} (f : string -> A -> result B) kvs kvs' :
  mapM_kv f kvs = Ok kvs' ->
  kvs'.*1 = kvs.*1
  /\ (forall k y, (k, y) ∈ kvs' -> exists x, (k, x) ∈ kvs /\ f k x = Ok y)
  /\ (forall k x, (k, x) ∈ kvs -> exists y, (k, y) ∈ kvs' /\ f k x = Ok y).
Proof.
  unfold mapM_kv. intros H. apply result_mapM_Ok in H.
  induction H as [|[k x] [k' y] l l' Hxy _ IH]; simpl.
  - repeat split; intros ? ? Hin; inversion Hin.
  - simpl in Hxy. apply bind_Ok in Hxy as (y' & Hy & Heq).
    inversion Heq. subst. destruct IH as (IH1 & IH2 & IH3).
    repeat split.
    + simpl. f_equal. exact IH1.
    + intros k0 y0 Hin. apply elem_of_cons in Hin as [Hin|Hin].
      * inversion Hin. subst. exists x. split; [left | exact Hy].
      * destruct (IH2 _ _ Hin) as (x0 & ? & ?). exists x0.
        split; [right; assumption | assumption].
    + intros k0 x0 Hin. apply elem_of_cons in Hin as [Hin|Hin].
      * inversion Hin. subst. exists y. split; [left | exact Hy].
      * destruct (IH3 _ _ Hin) as (y0 & ? & ?). exists y0.
        split; [right; assumption | assumption].
Qed.

Lemma imapM_Ok {A B} (f : string -> A -> result B) (d : gmap string A)
    (r : gmap string B) :
  imapM f d = Ok r ->
  forall k,
    match d !! k with
    | Some x => exists y, f k x = Ok y /\ r !! k = Some y
    | None => r !! k = None
    end.
Proof.
  unfold imapM. intros H k. apply bind_Ok in H as (kvs & Hkvs & H).
  inversion H. subst. clear H.
  apply mapM_kv_Ok in Hkvs as (Hfst & Hback & Hforth).
  assert (Hnd : NoDup kvs.*1).
  { rewrite Hfst. apply NoDup_fst_map_to_list. }
  destruct (d !! k) as [x|] eqn:Hd.
  - apply elem_of_map_to_list in Hd. destruct (Hforth _ _ Hd) as (y & Hin & Hy).
    exists y. split; [exact Hy|]. apply elem_of_list_to_map; assumption.
  - apply not_elem_of_list_to_map. rewrite Hfst. intros Hin.
    apply list_elem_of_fmap in Hin as ([k' x] & -> & Hin). simpl in Hd.
    apply elem_of_map_to_list in Hin. congruence.
Qed.

Lemma imapM_total {A B} (f : string -> A -> result B) (d : gmap string A) :
  (forall k x, d !! k = Some x -> exists y, f k x = Ok y) ->
  exists r, imapM f d = Ok r.
Proof.
  intros Hf. unfold imapM, mapM_kv.
  destruct (result_mapM_total
              (fun kv : string * A => y ← f kv.1 kv.2; Ok (kv.1, y))
              (map_to_list d)) as (kvs & Hkvs).
  - apply Forall_forall. intros [k x] Hin. apply elem_of_map_to_list in Hin.
    destruct (Hf _ _ Hin) as (y & Hy). simpl. rewrite Hy. simpl. eauto.
  - rewrite Hkvs. simpl. eauto.
Qed.

End ResultLemmas.

(** ** The index [jnp.argmin] returns *)
Module ArgminLemmas.
Import Jnp.

Lemma SFltb_rank (a b : spec_float) :
  SFltb a b = true <->
  a <> S754_nan /\ b <> S754_nan /\ F64.lex_lt (F64.rank a) (F64.rank b).
Proof.
  unfold SFltb.
  destruct a as [sa|sa| |sa ma ea], b as [sb|sb| |sb mb eb]; simpl;
    try (split; [discriminate | intros (? & ? & ?); congruence]);
    try (destruct sa); try (destruct sb); simpl;
    try (split; [intros _; repeat split; try discriminate; lia
                | intros _; reflexivity]);
    try (split; [discriminate | intros (_ & _ & ?); lia]).
  - fold (Pos.compare ma mb).
    destruct (Z.compare_spec ea eb); simpl;
      [destruct (Pos.compare_spec ma mb); simpl|..];
      (split; [intros ?; repeat split; try discriminate; try lia
              | intros (_ & _ & ?); try reflexivity; try lia]); discriminate.
  - fold (Pos.compare ma mb).
    destruct (Z.compare_spec ea eb); simpl;
      [destruct (Pos.compare_spec ma mb); simpl|..];
      (split; [intros ?; repeat split; try discriminate; try lia
              | intros (_ & _ & ?); try reflexivity; try lia]); discriminate.
Qed.

Lemma rank_class (s : spec_float) : -2 <= (F64.rank s).1.1 <= 2.
Proof. destruct s as [[]|[]| |[] ? ?]; simpl; lia. Qed.

Lemma takes_min_key (x y : float) :
  takes_min x y = true <-> F64.lex_lt (min_key x) (min_key y).
Proof.
  unfold takes_min, min_key.
  destruct (F64.is_nan x) eqn:Hx, (F64.is_nan y) eqn:Hy; simpl.
  - assert (F64.lt x y = false) as ->.
    { destruct (F64.lt x y) eqn:E; [|reflexivity].
      apply F64Facts.lt_not_nan in E. destruct E; congruence. }
    simpl. split; [discriminate | lia].
  - assert (F64.lt x y = false) as ->.
    { destruct (F64.lt x y) eqn:E; [|reflexivity].
      apply F64Facts.lt_not_nan in E. destruct E; congruence. }
    simpl. pose proof (rank_class (Prim2SF y)).
    destruct (F64.rank (Prim2SF y)) as [[? ?] ?]. simpl in *.
    split; [lia | reflexivity].
  - rewrite orb_false_r.
    assert (F64.lt x y = false) as ->.
    { destruct (F64.lt x y) eqn:E; [|reflexivity].
      apply F64Facts.lt_not_nan in E. destruct E; congruence. }
    pose proof (rank_class (Prim2SF x)).
    destruct (F64.rank (Prim2SF x)) as [[? ?] ?]. simpl in *.
    split; [discriminate | lia].
  - rewrite orb_false_r. unfold F64.lt. rewrite FloatAxioms.ltb_spec.
    rewrite SFltb_rank. apply F64Facts.is_nan_false in Hx, Hy. tauto.
Qed.

Lemma takes_min_false_key (x y : float) :
  takes_min x y = false <-> ~ F64.lex_lt (min_key x) (min_key y).
Proof.
  rewrite <- takes_min_key. destruct (takes_min x y); split; congruence.
Qed.

(** On numbers the order of [argmin] is the usual one. *)
Lemma takes_min_lt (x y : float) :
  F64.is_nan x = false -> takes_min x y = F64.lt x y.
Proof. intros H. unfold takes_min. rewrite H. apply orb_false_r. Qed.

Lemma argmin_from_first_min (pre l : list float) (bi : nat) (best : float) :
  pre !! bi = Some best ->
  (forall j x, pre !! j = Some x -> takes_min x best = false) ->
  (forall j x, (j < bi)%nat -> pre !! j = Some x -> takes_min best x = true) ->
  is_first_min (pre ++ l) (argmin_from l (length pre) bi best).
Proof.
  revert pre bi best. induction l as [|x l IH]; intros pre bi best Hb Hmin Hfst.
  - simpl. rewrite app_nil_r. exists best. auto.
  - simpl. replace (pre ++ x :: l) with ((pre ++ [x]) ++ l)
      by (rewrite <- app_assoc; reflexivity).
    replace (S (length pre)) with (length (pre ++ [x]))
      by (rewrite length_app; simpl; lia).
    destruct (takes_min x best) eqn:Hx.
    + apply IH.
      * rewrite lookup_app_r by lia. rewrite Nat.sub_diag. reflexivity.
      * intros j y Hj. apply takes_min_false_key.
        apply takes_min_key in Hx.
        apply lookup_app_Some in Hj as [Hj|[_ Hj]].
        -- apply Hmin in Hj. apply takes_min_false_key in Hj.
           unfold F64.lex_lt in *.
           destruct (min_key x) as [[? ?] ?], (min_key y) as [[? ?] ?],
             (min_key best) as [[? ?] ?]. lia.
        -- destruct (j - length pre)%nat; simpl in Hj; [|discriminate].
           inversion Hj. subst. unfold F64.lex_lt.
           destruct (min_key y) as [[? ?] ?]. lia.
      * intros j y Hlt Hj. apply takes_min_key. apply takes_min_key in Hx.
        apply lookup_app_Some in Hj as [Hj|[Hge _]]; [|lia].
        apply Hmin in Hj. apply takes_min_false_key in Hj.
        unfold F64.lex_lt in *.
        destruct (min_key x) as [[? ?] ?], (min_key y) as [[? ?] ?],
          (min_key best) as [[? ?] ?]. lia.
    + apply IH.
      * rewrite lookup_app_l by (apply lookup_lt_Some in Hb; exact Hb).
        exact Hb.
      * intros j y Hj. apply lookup_app_Some in Hj as [Hj|[_ Hj]].
        -- eauto.
        -- destruct (j - length pre)%nat; simpl in Hj; [|discriminate].
           inversion Hj. subst. exact Hx.
      * intros j y Hlt Hj. apply lookup_app_Some in Hj as [Hj|[Hge _]].
        -- eauto.
        -- apply lookup_lt_Some in Hb. lia.
Qed.

Lemma takes_min_irrefl (x : float) : takes_min x x = false.
Proof.
  apply takes_min_false_key. unfold F64.lex_lt. destruct (min_key x) as [[? ?] ?]. lia.
Qed.

Lemma argmin_first_min (l : list float) (r : nat) :
  argmin l = Ok r -> is_first_min l r.
Proof.
  destruct l as [|x l]; simpl; [discriminate|]. intros H. inversion H.
  apply (argmin_from_first_min [x] l 0 x).
  - reflexivity.
  - intros [|j] y Hj; simpl in Hj; [|discriminate]. inversion Hj. subst.
    apply takes_min_irrefl.
  - intros j y Hj. lia.
Qed.

Lemma argmin_total (l : list float) :
  l <> [] -> exists r, argmin l = Ok r.
Proof. destruct l; [congruence|]. simpl. eauto. Qed.

Lemma argmin_lt_length (l : list float) (r : nat) :
  argmin l = Ok r -> (r < length l)%nat.
Proof.
  intros H. apply argmin_first_min in H as (m & Hm & _).
  apply lookup_lt_Some in Hm. exact Hm.
Qed.

(** The first minimum in the order of binary64 itself: no element is
    strictly below it, a NaN among the elements makes it a NaN, and every
    element before it is a number, strictly above it when it is a number. *)
Lemma first_min_order (l : list float) (r : nat) (m : float) :
  is_first_min l r -> l !! r = Some m ->
  forall j x, l !! j = Some x ->
    PrimFloat.ltb x m = false
    /\ (PrimFloat.is_nan x = true -> PrimFloat.is_nan m = true)
    /\ ((j < r)%nat ->
        PrimFloat.is_nan x = false
        /\ (PrimFloat.is_nan m = false -> PrimFloat.ltb m x = true)).
Proof.
  intros (m' & Hm' & Hmin & Hfirst) Hm j x Hx.
  rewrite Hm in Hm'. inversion Hm'. subst m'.
  pose proof (Hmin j x Hx) as Hj. unfold takes_min, F64.lt, F64.is_nan in Hj.
  apply orb_false_iff in Hj as (Hlt & Hnan).
  split; [exact Hlt|]. split.
  - intros Hxn. rewrite Hxn in Hnan. simpl in Hnan.
    apply negb_false_iff in Hnan. exact Hnan.
  - intros Hjr. pose proof (Hfirst j x Hjr Hx) as Hf.
    unfold takes_min, F64.lt, F64.is_nan in Hf.
    apply orb_true_iff in Hf as [Hf|Hf].
    + destruct (F64Facts.lt_not_nan _ _ Hf) as (_ & Hxn).
      split; [exact Hxn | intros _; exact Hf].
    + apply andb_true_iff in Hf as (Hmn & Hxn).
      apply negb_true_iff in Hxn. split; [exact Hxn|].
      intros Hmn'. congruence.
Qed.

End ArgminLemmas.

(** ** Properties of the engine *)
Module EngineProps.
Import Jnp Dict NestedSampling ResultLemmas ArgminLemmas.

Section Engine.
Context {Key Val SamplerState TrackedState : Type}.
Context `{!Jax Key Val, !Tracker Val TrackedState,
          !Samplers Key Val SamplerState}.

Local Abbreviation State :=
  (NestedSamplerState Key Val SamplerState TrackedState).

Lemma getitem_Ok {A} (x : list A) (idx : nat) (v : A) :
  (idx < length x)%nat -> getitem x idx = Ok v -> x !! idx = Some v.
Proof.
  unfold getitem. intros Hlt. rewrite Nat.min_l by lia.
  destruct (x !! idx); intros H'; inversion H'. reflexivity.
Qed.

(** The constrained sampler reads the key, the live points in the unit cube
    and the sampler state of the state it is called on. *)
Lemma call_sampler_ext (self : NestedSampler Val) (s1 s2 : State) kw i_min L te :
  key s1 = key s2 -> live_points_U s1 = live_points_U s2 ->
  sampler_state s1 = sampler_state s2 ->
  call_sampler self s1 kw i_min L te = call_sampler self s2 kw i_min L te.
Proof. unfold call_sampler. intros -> -> ->. reflexivity. Qed.

(** What [_one_step] does to the state. *)
Lemma one_step_inv (self : NestedSampler Val) (s s' : State)
    (cs om : bool) (kw : gmap string Z) :
  _one_step self s cs om kw = Ok s' ->
  exists i_min dead_point log_L_min sr,
    next_dead_point s = Ok (i_min, dead_point, log_L_min)
    /\ call_sampler self s kw i_min log_L_min
         (te_update (marginalised self) (tracked_expectations_state s)
            dead_point (length (log_L_live s)) log_L_min) = Ok sr
    /\ dynamic_update_slice (log_L_live s) [sr_log_L_new sr] (Z.of_nat i_min)
       = Ok (log_L_live s')
    /\ dict_multimap2
         (fun x y => dynamic_update_slice x [astype_like x y] (Z.of_nat i_min))
         (live_points s) (sr_x_new sr) = Ok (live_points s')
    /\ dynamic_update_slice2 (live_points_U s) [sr_u_new sr] (Z.of_nat i_min) 0
       = Ok (live_points_U s')
    /\ status s' = status s /\ i s' = i s /\ done s' = done s
    /\ num_dead s' = wrap64 (num_dead s + 1)
    /\ tracked_expectations_state s'
       = te_update (marginalised self) (tracked_expectations_state s)
           dead_point (length (log_L_live s)) log_L_min
    /\ (if om then log_L_dead s' = log_L_dead s
        else exists b b', log_L_dead s = Some b
               /\ dynamic_update_slice b [log_L_min] (num_dead s) = Ok b'
               /\ log_L_dead s' = Some b').
Proof.
  unfold _one_step. intros H'.
  apply bind_Ok in H' as ([[i_min dead_point] log_L_min] & Hnext & H').
  apply bind_Ok in H' as (s1 & Hs1 & H').
  apply bind_Ok in H' as (sr & Hsr & H').
  apply bind_Ok in H' as (lL & HlL & H').
  apply bind_Ok in H' as (lp & Hlp & H').
  apply bind_Ok in H' as (lU & HlU & H').
  apply bind_Ok in H' as (s2 & Hs2 & H').
  inversion H'; subst s'; clear H'. simpl.
  exists i_min, dead_point, log_L_min, sr.
  assert (Hcore : key s1 = key s /\ live_points_U s1 = live_points_U s
                  /\ sampler_state s1 = sampler_state s
                  /\ log_L_live s1 = log_L_live s
                  /\ live_points s1 = live_points s
                  /\ status s1 = status s /\ i s1 = i s /\ done s1 = done s
                  /\ num_dead s1 = num_dead s
                  /\ (if om then log_L_dead s1 = log_L_dead s
                      else exists b b', log_L_dead s = Some b
                             /\ dynamic_update_slice b [log_L_min] (num_dead s)
                                = Ok b'
                             /\ log_L_dead s1 = Some b')).
  { destruct om; simpl in Hs1.
    - inversion Hs1. subst s1. repeat split; reflexivity.
    - apply bind_Ok in Hs1 as (bX & HbX & Hs1).
      apply bind_Ok in Hs1 as (lX & HlX & Hs1).
      apply bind_Ok in Hs1 as (bw & Hbw & Hs1).
      apply bind_Ok in Hs1 as (lw & Hlw & Hs1).
      apply bind_Ok in Hs1 as (bL & HbL & Hs1).
      apply bind_Ok in Hs1 as (lD & HlD & Hs1).
      assert (HbL' : log_L_dead s = Some bL).
      { destruct (log_L_dead s); simpl in HbL; inversion HbL. reflexivity. }
      destruct cs.
      + apply bind_Ok in Hs1 as (bd & Hbd & Hs1).
        apply bind_Ok in Hs1 as (dp & Hdp & Hs1).
        inversion Hs1. subst s1. simpl.
        repeat split; try reflexivity. exists bL, lD. auto.
      + inversion Hs1. subst s1. simpl.
        repeat split; try reflexivity. exists bL, lD. auto. }
  destruct Hcore as (Hk & HU & Hss & HL & Hp & Hst & Hi & Hd & Hnd & Hbuf).
  assert (Hcore2 : status s2 = status s1 /\ i s2 = i s1 /\ done s2 = done s1
                   /\ num_dead s2 = num_dead s1
                   /\ log_L_dead s2 = log_L_dead s1).
  { destruct om; simpl in Hs2.
    - inversion Hs2. subst s2. repeat split; reflexivity.
    - apply bind_Ok in Hs2 as (be & Hbe & Hs2).
      apply bind_Ok in Hs2 as (se & Hse & Hs2).
      inversion Hs2. subst s2. repeat split; reflexivity. }
  destruct Hcore2 as (Hst2 & Hi2 & Hd2 & Hnd2 & HLd2).
  rewrite HL in HlL. rewrite Hp in Hlp. rewrite HU in HlU.
  rewrite (call_sampler_ext self s1 s) in Hsr by assumption.
  rewrite Hst2, Hi2, Hd2, Hnd2, HLd2, Hst, Hi, Hd, Hnd.
  repeat split; try assumption; try reflexivity.
Qed.

(** Writing one row into the matrix of live points. *)
Lemma dynamic_update_slice2_row {A} (operand r : list (list A)) (u : list A)
    (idx : nat) :
  (idx < length operand)%nat ->
  dynamic_update_slice2 operand [u] (Z.of_nat idx) 0 = Ok r ->
  exists old_row new_row,
    operand !! idx = Some old_row
    /\ dynamic_update_slice old_row u 0 = Ok new_row
    /\ r = <[idx := new_row]> operand.
Proof.
  intros Hlt. unfold dynamic_update_slice2. simpl.
  destruct (Nat.ltb_spec (length operand) 1); [lia|].
  rewrite clamp_start_in_range by (simpl; lia). rewrite Nat2Z.id.
  destruct (lookup_lt_is_Some_2 operand idx Hlt) as (old_row & Hold).
  rewrite (drop_S _ _ _ Hold). simpl.
  intros H'. apply bind_Ok in H' as (rows & Hrows & H').
  apply bind_Ok in Hrows as (new_row & Hnew & Hrows).
  inversion Hrows. subst rows. inversion H'. subst r.
  exists old_row, new_row. repeat split; try assumption.
  rewrite insert_take_drop by lia. rewrite Nat.add_1_r. reflexivity.
Qed.

Lemma dynamic_update_slice_whole {A} (old_row u r : list A) :
  length u = length old_row ->
  dynamic_update_slice old_row u 0 = Ok r -> r = u.
Proof.
  intros Hlen H'. apply dynamic_update_slice_Ok in H' as (_ & ->).
  rewrite clamp_start_in_range by lia. simpl.
  rewrite drop_ge by lia. apply app_nil_r.
Qed.

Lemma one_step_frame (self : NestedSampler Val) (s s' : State)
    (cs om : bool) (kw : gmap string Z) :
  live_wf s ->
  _one_step self s cs om kw = Ok s' ->
  exists i_min dead_point log_L_min sr,
    next_dead_point s = Ok (i_min, dead_point, log_L_min)
    /\ argmin (log_L_live s) = Ok i_min
    /\ log_L_live s !! i_min = Some log_L_min
    /\ call_sampler self s kw i_min log_L_min
         (te_update (marginalised self) (tracked_expectations_state s)
            dead_point (length (log_L_live s)) log_L_min) = Ok sr
    /\ overwrites_slot s s' i_min sr.
Proof.
  intros (HwU & Hwp) Hstep.
  destruct (one_step_inv _ _ _ _ _ _ Hstep)
    as (i_min & dp & Lm & sr & Hnext & Hsr & HL & Hp & HU & _).
  exists i_min, dp, Lm, sr.
  unfold next_dead_point in Hnext.
  pose proof Hnext as Hnext'.
  apply bind_Ok in Hnext' as (i0 & Hargmin & Hn).
  apply bind_Ok in Hn as (dp0 & Hdp & Hn).
  apply bind_Ok in Hn as (L0 & HL0 & Hn). inversion Hn. subst i0 dp0 L0.
  pose proof (argmin_lt_length _ _ Hargmin) as Hlt.
  repeat split; try assumption.
  - apply getitem_Ok; assumption.
  - apply dynamic_update_slice_one_at in HL; assumption.
  - assert (HltU : (i_min < length (live_points_U s))%nat) by lia.
    destruct (dynamic_update_slice2_row _ _ _ _ HltU HU)
      as (old_row & new_row & Hold & Hnew & ->).
    exists old_row, new_row. repeat split; try assumption.
    intros Hlen. eapply dynamic_update_slice_whole; eassumption.
  - intros k Hk. apply imapM_Ok with (k := k) in Hp. rewrite Hk in Hp.
    exact Hp.
  - intros k col Hk. apply imapM_Ok with (k := k) in Hp. rewrite Hk in Hp.
    destruct Hp as (col' & Hcol' & Hlook).
    destruct (sr_x_new sr !! k) as [y|]; [|discriminate].
    exists y. split; [reflexivity|]. rewrite Hlook. f_equal.
    apply dynamic_update_slice_one_at in Hcol'; [assumption|].
    rewrite (Hwp _ _ Hk). exact Hlt.
Qed.

Lemma overwrites_slot_wf (s s' : State) i_min sr :
  live_wf s -> overwrites_slot s s' i_min sr ->
  live_wf s' /\ length (log_L_live s') = length (log_L_live s).
Proof.
  intros (HwU & Hwp) (HL & (old & new & _ & _ & _ & HU) & Hnone & Hsome).
  assert (Hlen : length (log_L_live s') = length (log_L_live s)).
  { rewrite HL. apply length_insert. }
  split; [|exact Hlen]. split.
  - rewrite HU, length_insert, Hlen. exact HwU.
  - intros k col' Hk. destruct (live_points s !! k) as [col|] eqn:Hcol.
    + destruct (Hsome _ _ Hcol) as (y & _ & Hk'). rewrite Hk' in Hk.
      inversion Hk. rewrite length_insert, Hlen. eauto.
    + rewrite (Hnone _ Hcol) in Hk. discriminate.
Qed.

Lemma iterate_succ_r {S} (n : nat) (body : S -> result S) (s : S) :
  iterate (Datatypes.S n) body s = (s' ← iterate n body s; body s').
Proof.
  revert s. induction n as [|n IH]; intros s.
  - simpl. destruct (body s); reflexivity.
  - change (iterate (Datatypes.S (Datatypes.S n)) body s)
      with (s' ← body s; iterate (Datatypes.S n) body s').
    destruct (body s) as [s1|e] eqn:E; simpl.
    + rewrite E. simpl. apply IH.
    + rewrite E. reflexivity.
Qed.

Lemma iterate_ind {S} (P : nat -> S -> Prop) (body : S -> result S) (s0 : S) :
  P O s0 ->
  (forall k s s', P k s -> body s = Ok s' -> P (Datatypes.S k) s') ->
  forall n s, iterate n body s0 = Ok s -> P n s.
Proof.
  intros H0 Hstep n. induction n as [|n IH]; intros s Hn.
  - inversion Hn. subst. exact H0.
  - rewrite iterate_succ_r in Hn. apply bind_Ok in Hn as (s1 & Hs1 & Hb).
    eapply Hstep; eauto.
Qed.

Lemma iterate_prefix {S} (body : S -> result S) (s0 : S) (n k : nat) (s : S) :
  iterate n body s0 = Ok s -> (k <= n)%nat ->
  exists s_k, iterate k body s0 = Ok s_k.
Proof.
  revert s. induction n as [|n IH]; intros s Hn Hk.
  - assert (k = 0%nat) as -> by lia. eauto.
  - destruct (decide (k = Datatypes.S n)) as [->|Hne]; [eauto|].
    rewrite iterate_succ_r in Hn. apply bind_Ok in Hn as (s1 & Hs1 & _).
    apply (IH s1 Hs1). lia.
Qed.

(** The loop returns the state after the first iteration count at which the
    condition fails. *)
Lemma while_loop_Ok {S} (fuel : nat) (cond : S -> bool)
    (body : S -> result S) (s s' : S) :
  while_loop fuel cond body s = Some (Ok s') ->
  exists n, (n < fuel)%nat /\ iterate n body s = Ok s' /\ cond s' = false
    /\ forall k s_k, (k < n)%nat -> iterate k body s = Ok s_k ->
                     cond s_k = true.
Proof.
  revert s. induction fuel as [|fuel IH]; intros s; simpl; [discriminate|].
  destruct (cond s) eqn:Hc.
  - destruct (body s) as [s1|e] eqn:Hb; [|discriminate].
    intros Hw. destruct (IH _ Hw) as (n & Hlt & Hn & Hc' & Hbefore).
    exists (Datatypes.S n). repeat split.
    + lia.
    + simpl. rewrite Hb. exact Hn.
    + exact Hc'.
    + intros [|k] s_k Hk Hit.
      * inversion Hit. subst. exact Hc.
      * simpl in Hit. rewrite Hb in Hit. eapply Hbefore; [|exact Hit]. lia.
  - intros Hw. inversion Hw. subst. exists 0%nat. repeat split.
    + lia.
    + exact Hc.
    + intros k s_k Hk. lia.
Qed.

Lemma while_loop_fuel_mono {S} (fuel fuel' : nat) (cond : S -> bool)
    (body : S -> result S) (s : S) r :
  while_loop fuel cond body s = Some r -> (fuel <= fuel')%nat ->
  while_loop fuel' cond body s = Some r.
Proof.
  revert fuel' s. induction fuel as [|fuel IH]; intros fuel' s; simpl;
    [discriminate|].
  intros Hw Hle. destruct fuel' as [|fuel']; [lia|]. simpl.
  destruct (cond s); [|exact Hw].
  destruct (body s); [|exact Hw]. apply IH; [exact Hw | lia].
Qed.

Lemma stack_dicts_length (structure : gmap string (list nat))
    (ds : list (gmap string Val)) k col :
  stack_dicts structure ds !! k = Some col -> length col = length ds.
Proof.
  revert col. induction ds as [|d ds IH]; intros col; simpl.
  - rewrite lookup_fmap. destruct (structure !! k); simpl; [|discriminate].
    intros Hc. inversion Hc. reflexivity.
  - intros Hc. apply map_lookup_zip_with_Some in Hc as (x & col0 & -> & _ & Hc).
    simpl. f_equal. apply IH. exact Hc.
Qed.

(** What [initial_state] returns. *)
Lemma initial_state_inv (self : NestedSampler Val) (k0 : Key) (N ms : Z)
    (cs om : bool) (kw : gmap string Z) (s0 : State) :
  initial_state self k0 N ms cs om kw = Ok s0 ->
  done s0 = false /\ i s0 = 0 /\ num_dead s0 = 0 /\ status s0 = 0
  /\ 0 <= N
  /\ (exists k1 init_key batch,
        split2 k0 = Ok (k1, init_key)
        /\ result_mapM (single_sample self)
             (random_split init_key (Z.to_nat N)) = Ok batch
        /\ log_L_live s0 = batch.*2
        /\ live_points_U s0 = batch.*1.*1
        /\ live_points s0
           = stack_dicts (pc_to_shapes (prior_chain self)) batch.*1.*2)
  /\ (om = false ->
      0 <= ms /\ exists b, log_L_dead s0 = Some b /\ length b = Z.to_nat ms).
Proof.
  unfold initial_state. intros H'.
  apply bind_Ok in H' as ([k1 init_key] & Hsplit & H').
  apply bind_Ok in H' as (keys & Hkeys & H').
  apply bind_Ok in H' as (batch & Hbatch & H').
  apply bind_Ok in H' as (dp & Hdp & H').
  apply bind_Ok in H' as (bL & HbL & H').
  apply bind_Ok in H' as (be & Hbe & H').
  apply bind_Ok in H' as (bX & HbX & H').
  apply bind_Ok in H' as (bw & Hbw & H').
  apply bind_Ok in H' as ([k2 ss] & Hss & H').
  inversion H'. subst s0. clear H'. simpl.
  destruct (Z.ltb_spec N 0); [discriminate|]. inversion Hkeys. subst keys.
  assert (Hmap : result_mapM (single_sample self)
                   (random_split init_key (Z.to_nat N)) = Ok batch).
  { destruct (random_split init_key (Z.to_nat N)) as [|kx keys];
      [|exact Hbatch].
    apply bind_Ok in Hbatch as (x & _ & Hbatch). exact Hbatch. }
  do 4 (split; [reflexivity|]). split; [assumption|]. split.
  - exists k1, init_key, batch. repeat split; assumption.
  - intros ->. simpl in HbL. apply fmap_Ok in HbL as (b & Hb & ->).
    unfold full in Hb. destruct (Z.ltb_spec ms 0); [discriminate|].
    inversion Hb. subst b. split; [assumption|].
    exists (replicate (Z.to_nat ms) 0%float).
    split; [reflexivity | apply length_replicate].
Qed.

Lemma initial_state_wf (self : NestedSampler Val) (k0 : Key) (N ms : Z)
    (cs om : bool) (kw : gmap string Z) (s0 : State) :
  initial_state self k0 N ms cs om kw = Ok s0 -> live_wf s0.
Proof.
  intros H'. apply initial_state_inv in H'
    as (_ & _ & _ & _ & _ & (k1 & ik & batch & _ & _ & HL & HU & Hp) & _).
  split.
  - rewrite HU, HL, !length_fmap. reflexivity.
  - intros k col Hk. rewrite Hp in Hk. apply stack_dicts_length in Hk.
    rewrite Hk, HL, !length_fmap. reflexivity.
Qed.

(** What [body] does: one step, then the test and the counter. *)
Lemma body_inv (self : NestedSampler Val) (cs om : bool)
    (kw : gmap string Z) (tf : float) (ms : Z) (s s' : State) :
  body self cs om kw tf ms s = Ok s' ->
  exists s1, _one_step self s cs om kw = Ok s1
    /\ s' = replace_done_i s1
              (converged tf s1 || (ms <=? wrap64 (i s + 1)))
              (wrap64 (i s + 1))
    /\ converged tf s' = converged tf s1.
Proof.
  unfold body. intros H'. apply bind_Ok in H' as (s1 & Hs1 & H').
  inversion H'. exists s1.
  destruct (one_step_inv _ _ _ _ _ _ Hs1)
    as (? & ? & ? & ? & _ & _ & _ & _ & _ & _ & Hi & _).
  rewrite Hi. repeat split; try assumption; reflexivity.
Qed.

Lemma wrap64_small (z : Z) : - 2 ^ 63 <= z < 2 ^ 63 -> wrap64 z = z.
Proof.
  intros Hz. unfold wrap64. rewrite Z.mod_small by lia. lia.
Qed.

Lemma while_loop_stops_by {S} (bound fuel : nat) (cond : S -> bool)
    (body : S -> result S) (s : S) :
  (bound < fuel)%nat ->
  (forall s_k, iterate bound body s = Ok s_k -> cond s_k = false) ->
  exists r, while_loop fuel cond body s = Some r.
Proof.
  revert fuel s. induction bound as [|bound IH]; intros fuel s Hlt Hb.
  - destruct fuel as [|fuel]; [lia|]. simpl.
    rewrite (Hb s) by reflexivity. eauto.
  - destruct fuel as [|fuel]; [lia|]. simpl.
    destruct (cond s); [|eauto].
    destruct (body s) as [s1|e] eqn:Hbody; [|eauto].
    apply IH; [lia|]. intros s_k Hit.
    apply Hb. simpl. rewrite Hbody. exact Hit.
Qed.

Lemma run_invariant_holds (self : NestedSampler Val) (k0 : Key) (N ms : Z)
    (cs om : bool) (kw : gmap string Z) (tf : float) (s0 : State) :
  initial_state self k0 N ms cs om kw = Ok s0 ->
  forall n s, iterate n (body self cs om kw tf ms) s0 = Ok s ->
              run_invariant tf ms s0 n s.
Proof.
  intros Hinit. apply iterate_ind.
  - pose proof (initial_state_wf _ _ _ _ _ _ _ _ Hinit) as Hwf.
    apply initial_state_inv in Hinit as (_ & Hi & Hnd & Hst & _).
    repeat split; try apply Hwf; try assumption; lia.
  - intros k s s' (Hwf & Hlen & Hst & Hcount) Hbody.
    apply body_inv in Hbody as (s1 & Hstep & -> & Hconv).
    destruct (one_step_frame _ _ _ _ _ _ Hwf Hstep)
      as (i_min & dp & Lm & sr & _ & _ & _ & _ & Hframe).
    destruct (overwrites_slot_wf _ _ _ _ Hwf Hframe) as (Hwf1 & Hlen1).
    destruct (one_step_inv _ _ _ _ _ _ Hstep)
      as (? & ? & ? & ? & _ & _ & _ & _ & _ & Hst1 & Hi1 & _ & Hnd1 & _).
    split; [exact Hwf1|]. split; [simpl; lia|].
    split; [simpl; lia|]. intros Hk.
    destruct Hcount as (Hi & Hnd & _); [lia|]. simpl.
    rewrite Hnd1, Hnd, Hi, !wrap64_small by lia.
    repeat split; try lia. intros _.
    f_equal. f_equal. lia.
Qed.

(** C6: at every iteration of the engine, started by [initial_state], the
    live set has exactly [N] entries before and after the step; the step
    writes one slot, in the log-likelihoods, in the unit-cube coordinates
    and in every constrained value, with what the sampler returned, and
    leaves every other entry of the live set as it was. The slot is that of
    the minimum log-likelihood in the order of binary64, the first one
    among equals: no live log-likelihood is strictly below the one
    eliminated, every one before the slot is strictly above it, and a NaN,
    which [jnp.argmin] counts as the minimum, is eliminated first. *)
Theorem one_step_overwrites_only_the_minimum :
  forall (self : NestedSampler Val) (k0 : Key) (N ms : Z) (cs om : bool)
         (kw : gmap string Z) (tf : float) (s0 s s' : State) (n : nat),
    (forall k m, length (random_split k m) = m) ->
    initial_state self k0 N ms cs om kw = Ok s0 ->
    iterate n (body self cs om kw tf ms) s0 = Ok s ->
    _one_step self s cs om kw = Ok s' ->
    exists i_min dead_point log_L_min sr,
      argmin (log_L_live s) = Ok i_min
      /\ is_first_min (log_L_live s) i_min
      /\ log_L_live s !! i_min = Some log_L_min
      /\ (forall j x, log_L_live s !! j = Some x ->
            PrimFloat.ltb x log_L_min = false
            /\ (PrimFloat.is_nan x = true ->
                PrimFloat.is_nan log_L_min = true)
            /\ ((j < i_min)%nat ->
                PrimFloat.is_nan x = false
                /\ (PrimFloat.is_nan log_L_min = false ->
                    PrimFloat.ltb log_L_min x = true)))
      /\ call_sampler self s kw i_min log_L_min
           (te_update (marginalised self) (tracked_expectations_state s)
              dead_point (length (log_L_live s)) log_L_min) = Ok sr
      /\ overwrites_slot s s' i_min sr
      /\ log_L_live s' = <[i_min := sr_log_L_new sr]> (log_L_live s)
      /\ (forall j, j <> i_min ->
            log_L_live s' !! j = log_L_live s !! j
            /\ live_points_U s' !! j = live_points_U s !! j
            /\ forall name col col',
                 live_points s !! name = Some col ->
                 live_points s' !! name = Some col' ->
                 col' !! j = col !! j)
      /\ length (log_L_live s) = Z.to_nat N
      /\ live_wf s
      /\ length (log_L_live s') = Z.to_nat N
      /\ live_wf s'.
Proof.
  intros self k0 N ms cs om kw tf s0 s s' n Hsplit Hinit Hiter Hstep.
  destruct (run_invariant_holds _ _ _ _ _ _ _ tf _ Hinit _ _ Hiter)
    as (Hwf & Hlen & _).
  destruct (one_step_frame _ _ _ _ _ _ Hwf Hstep)
    as (i_min & dp & Lm & sr & _ & Hargmin & HLm & Hsr & Hframe).
  destruct (overwrites_slot_wf _ _ _ _ Hwf Hframe) as (Hwf1 & Hlen1).
  assert (HN : length (log_L_live s0) = Z.to_nat N).
  { apply initial_state_inv in Hinit
      as (_ & _ & _ & _ & _ & (k1 & ik & batch & _ & Hb & HL & _) & _).
    apply result_mapM_Ok, Forall2_length in Hb.
    rewrite HL, length_fmap, <- Hb. apply Hsplit. }
  pose proof (argmin_first_min _ _ Hargmin) as Hfirst.
  exists i_min, dp, Lm, sr.
  split; [exact Hargmin|].
  split; [exact Hfirst|].
  split; [exact HLm|].
  split; [exact (first_min_order _ _ _ Hfirst HLm)|].
  split; [exact Hsr|]. split; [exact Hframe|].
  destruct Hframe as (HL' & (old & new & _ & _ & _ & HU') & _ & Hsome).
  split; [exact HL'|]. split.
  { intros j Hj. split; [|split].
    - rewrite HL'. apply list_lookup_insert_ne. congruence.
    - rewrite HU'. apply list_lookup_insert_ne. congruence.
    - intros name col col' Hcol Hcol'.
      destruct (Hsome _ _ Hcol) as (y & _ & Hnew).
      rewrite Hnew in Hcol'. inversion Hcol'.
      apply list_lookup_insert_ne. congruence. }
  split; [lia|]. split; [exact Hwf|]. split; [lia | exact Hwf1].
Qed.

(** The loop ends, and a state it returns is the one after the first
    iteration count at which [done] was set. *)
Lemma run_loop_halting :
  forall (self : NestedSampler Val) (k0 : Key) (N ms : Z) (cs om : bool)
         (kw : gmap string Z) (tf : float) (s0 : State) (fuel : nat),
    initial_state self k0 N ms cs om kw = Ok s0 ->
    ms < 2 ^ 63 ->
    Z.max 1 ms < Z.of_nat fuel ->
    exists r,
      run_loop fuel self cs om kw tf ms s0 = Some r
      /\ forall s, r = Ok s ->
           exists n,
             (1 <= n)%nat
             /\ iterate n (body self cs om kw tf ms) s0 = Ok s
             /\ i s = Z.of_nat n
             /\ Z.of_nat n <= Z.max 1 ms
             /\ done s = true
             /\ (converged tf s = true \/ ms <= Z.of_nat n)
             /\ forall k s_k,
                  (1 <= k < n)%nat ->
                  iterate k (body self cs om kw tf ms) s0 = Ok s_k ->
                  converged tf s_k = false /\ Z.of_nat k < ms.
Proof.
  intros self k0 N ms cs om kw tf s0 fuel Hinit Hms Hfuel.
  pose proof (run_invariant_holds _ _ _ _ _ _ _ tf _ Hinit) as Hinv.
  set (B := Z.to_nat (Z.max 1 ms)).
  assert (HB : forall s_B, iterate B (body self cs om kw tf ms) s0 = Ok s_B ->
                           done s_B = true).
  { intros s_B HsB. destruct (Hinv _ _ HsB) as (_ & _ & _ & Hc).
    destruct Hc as (_ & _ & Hd); [lia|]. rewrite Hd by lia.
    apply orb_true_iff. right. apply Z.leb_le. lia. }
  destruct (while_loop_stops_by B fuel (fun state : State => negb (done state))
              (body self cs om kw tf ms) s0) as (r & Hr).
  { lia. }
  { intros s_B HsB. rewrite (HB _ HsB). reflexivity. }
  exists r. split; [exact Hr|]. intros s ->.
  apply while_loop_Ok in Hr as (n & _ & Hn & Hdone & Hbefore).
  apply negb_false_iff in Hdone.
  assert (Hn1 : (1 <= n)%nat).
  { destruct n; [|lia]. inversion Hn. subst s.
    apply initial_state_inv in Hinit as (Hd0 & _). congruence. }
  assert (HnB : (n <= B)%nat).
  { destruct (le_lt_dec n B) as [|Hgt]; [assumption|].
    destruct (iterate_prefix _ _ n B _ Hn) as (s_B & HsB); [lia|].
    pose proof (Hbefore _ _ Hgt HsB) as Hc. rewrite (HB _ HsB) in Hc.
    discriminate. }
  exists n.
  destruct (Hinv _ _ Hn) as (_ & _ & _ & Hc).
  destruct Hc as (Hi & _ & Hd); [lia|].
  split; [exact Hn1|]. split; [exact Hn|]. split; [exact Hi|].
  split; [lia|]. split; [exact Hdone|]. split.
  - rewrite Hd in Hdone by lia. apply orb_true_iff in Hdone as [Hc|Hc].
    + left. exact Hc.
    + right. apply Z.leb_le in Hc. exact Hc.
  - intros k s_k (Hk1 & Hkn) Hk.
    pose proof (Hbefore _ _ Hkn Hk) as Hc. apply negb_true_iff in Hc.
    destruct (Hinv _ _ Hk) as (_ & _ & _ & Hck).
    destruct Hck as (_ & _ & Hdk); [lia|]. rewrite Hdk in Hc by lia.
    apply orb_false_iff in Hc as (Hc1 & Hc2). apply Z.leb_gt in Hc2.
    split; assumption.
Qed.

(** C1: from the state [initial_state] builds, the loop of [__call__]
    ends, with an exception of a step or with a state; a state it returns
    is the one after [n >= 1] iterations, where [n] is the first iteration
    count at which the residual evidence of the live set,
    [logsumexp(log_L_live) - log(N) + X.log_value], is strictly below
    [log(termination_frac) + evidence_mean()] in the order of binary64, or
    at which the counter has reached [max_samples]: the test is made once
    per iteration, on the state the step and its tracker update produced,
    and at every earlier count the residual was not below the bound and the
    counter was below [max_samples]. *)
Theorem loop_halts_at_first_convergence_or_cap :
  forall (self : NestedSampler Val) (k0 : Key) (N ms : Z) (cs om : bool)
         (kw : gmap string Z) (tf : float) (s0 : State) (fuel : nat),
    initial_state self k0 N ms cs om kw = Ok s0 ->
    ms < 2 ^ 63 ->
    Z.max 1 ms < Z.of_nat fuel ->
    exists r,
      run_loop fuel self cs om kw tf ms s0 = Some r
      /\ forall s, r = Ok s ->
           exists n,
             (1 <= n)%nat
             /\ iterate n (body self cs om kw tf ms) s0 = Ok s
             /\ i s = Z.of_nat n
             /\ Z.of_nat n <= Z.max 1 ms
             /\ done s = true
             /\ (PrimFloat.ltb
                   (logsumexp (log_L_live s)
                    - log (float_of_int (Z.of_nat (length (log_L_live s))))
                    + te_X_log_value (tracked_expectations_state s))%float
                   (log tf + evidence_mean (tracked_expectations_state s))%float
                 = true
                 \/ ms <= Z.of_nat n)
             /\ forall k s_k,
                  (1 <= k < n)%nat ->
                  iterate k (body self cs om kw tf ms) s0 = Ok s_k ->
                  PrimFloat.ltb
                    (logsumexp (log_L_live s_k)
                     - log (float_of_int (Z.of_nat (length (log_L_live s_k))))
                     + te_X_log_value (tracked_expectations_state s_k))%float
                    (log tf
                     + evidence_mean (tracked_expectations_state s_k))%float
                  = false
                  /\ Z.of_nat k < ms /\ done s_k = false.
Proof.
  intros self k0 N ms cs om kw tf s0 fuel Hinit Hms Hfuel.
  destruct (run_loop_halting self k0 N ms cs om kw tf s0 fuel Hinit Hms Hfuel)
    as (r & Hr & Hspec).
  exists r. split; [exact Hr|]. intros s Hs.
  destruct (Hspec s Hs) as (n & Hn1 & Hn & Hi & HnB & Hdone & Hlast & Hbefore).
  exists n. do 5 (split; [assumption|]). split; [exact Hlast|].
  intros k s_k Hk Hsk. destruct (Hbefore k s_k Hk Hsk) as (Hc & Hlt).
  split; [exact Hc|]. split; [exact Hlt|].
  destruct (run_invariant_holds _ _ _ _ _ _ _ tf _ Hinit _ _ Hsk)
    as (_ & _ & _ & Hcount).
  destruct Hcount as (_ & _ & Hd); [lia|]. rewrite Hd by lia.
  apply orb_false_iff. split; [exact Hc|]. apply Z.leb_gt. exact Hlt.
Qed.

(** C5: the [status] field of the state the loop returns is 0, the value
    of a good exit, also when the loop was ended by [max_samples] alone;
    no step and no test writes the field, and the result record has no
    field for it. *)
Theorem status_stays_good_at_max_samples :
  forall (self : NestedSampler Val) (k0 : Key) (N ms : Z) (cs om : bool)
         (kw : gmap string Z) (tf : float) (s0 s : State) (fuel : nat),
    initial_state self k0 N ms cs om kw = Ok s0 ->
    run_loop fuel self cs om kw tf ms s0 = Some (Ok s) ->
    converged tf s = false ->
    done s = true /\ status s = 0.
Proof.
  intros self k0 N ms cs om kw tf s0 s fuel Hinit Hrun _.
  apply while_loop_Ok in Hrun as (n & _ & Hn & Hdone & _).
  apply negb_false_iff in Hdone. split; [exact Hdone|].
  apply (run_invariant_holds _ _ _ _ _ _ _ tf _ Hinit _ _ Hn).
Qed.

(** C3: two runs of [__call__] on the same key, sampler, prior chain,
    likelihood and configuration return the same result, whatever the
    number of iterations each of the two is allowed: the same exception, or
    records equal field by field, among them the samples, their
    log-likelihoods and the evidence. *)
Theorem call_is_deterministic :
  forall (self : NestedSampler Val) (k0 : Key) (N ms : Z) (cs om : bool)
         (kw : option (gmap string Z)) (tf : float) (fuel1 fuel2 : nat)
         (r1 r2 : result (NestedSamplerResults Val)),
    __call__ fuel1 self k0 N ms cs tf om kw = Some r1 ->
    __call__ fuel2 self k0 N ms cs tf om kw = Some r2 ->
    r1 = r2.
Proof.
  intros self k0 N ms cs om kw tf fuel1 fuel2 r1 r2. unfold __call__.
  destruct (initial_state self k0 N ms cs om (default ∅ kw)) as [s0|e];
    [|congruence].
  unfold run_loop.
  destruct (while_loop fuel1 _ _ s0) as [x1|] eqn:H1; [|discriminate].
  destruct (while_loop fuel2 _ _ s0) as [x2|] eqn:H2;
    [|destruct x1; discriminate].
  assert (x1 = x2) as ->.
  { destruct (le_lt_dec fuel1 fuel2) as [Hle|Hlt].
    - apply (while_loop_fuel_mono _ fuel2) in H1; [congruence | exact Hle].
    - apply (while_loop_fuel_mono _ fuel1) in H2; [congruence | lia]. }
  destruct x2; congruence.
Qed.

Lemma replacements_above_at (n : nat) (body : State -> result State)
    (s0 : State) :
  replacements_above n body s0 = true ->
  forall k s s' i_min,
    (k < n)%nat -> iterate k body s0 = Ok s -> body s = Ok s' ->
    argmin (log_L_live s) = Ok i_min ->
    exists log_L_min log_L_new,
      log_L_live s !! i_min = Some log_L_min
      /\ log_L_live s' !! i_min = Some log_L_new
      /\ F64.lt log_L_min log_L_new = true.
Proof.
  revert s0. induction n as [|n IH]; intros s0 Hall k s s' i_min Hk Hit Hb Ha.
  - lia.
  - simpl in Hall. destruct k as [|k].
    + inversion Hit. subst s. rewrite Hb, Ha in Hall.
      apply andb_true_iff in Hall as (Hlt & _).
      destruct (log_L_live s0 !! i_min) as [a|]; [|discriminate].
      destruct (log_L_live s' !! i_min) as [b|]; [|discriminate]. eauto.
    + simpl in Hit. apply bind_Ok in Hit as (s1 & Hs1 & Hit).
      rewrite Hs1 in Hall. apply andb_true_iff in Hall as (_ & Hall).
      apply (IH s1 Hall k s s' i_min); try assumption. lia.
Qed.

(** [__init__] installs the wrapped likelihood. *)
Lemma init_loglikelihood (L : gmap string Val -> ndarray)
    (pc : PriorChain Val) (name : string)
    (marg : gmap string (marginal Val)) (self : NestedSampler Val) :
  __init__ L pc name marg = Ok self ->
  loglikelihood self = fixed_likelihood L /\ sampler_name self = name
  /\ name ∈ _available_samplers.
Proof.
  unfold __init__. destruct (bool_decide_reflect (name ∈ _available_samplers));
    [|discriminate].
  intros H'. apply bind_Ok in H' as (ti & _ & H'). inversion H'. simpl. auto.
Qed.

Lemma fixed_likelihood_not_nan (L : gmap string Val -> ndarray)
    (x : gmap string Val) (v : float) :
  fixed_likelihood L x = Ok v -> F64.is_nan v = false.
Proof.
  unfold fixed_likelihood. destruct (L x) as [a|]; [|discriminate].
  intros H'. inversion H'. unfold where_, isnan.
  destruct (F64.is_nan a) eqn:E; [reflexivity | exact E].
Qed.

Lemma initial_live_not_nan (L : gmap string Val -> ndarray)
    (self : NestedSampler Val) (k0 : Key) (N ms : Z) (cs om : bool)
    (kw : gmap string Z) (s0 : State) :
  loglikelihood self = fixed_likelihood L ->
  initial_state self k0 N ms cs om kw = Ok s0 ->
  Forall (fun x => F64.is_nan x = false) (log_L_live s0).
Proof.
  intros HL Hinit. apply initial_state_inv in Hinit
    as (_ & _ & _ & _ & _ & (k1 & ik & batch & _ & Hb & -> & _) & _).
  apply result_mapM_Ok in Hb. apply Forall_fmap.
  induction Hb as [|kx [[U c] v] keys batch Hs _ IH]; constructor; auto.
  simpl. unfold single_sample in Hs. apply bind_Ok in Hs as (v' & Hv & Hs).
  inversion Hs. subst. rewrite HL in Hv.
  eapply fixed_likelihood_not_nan. exact Hv.
Qed.

Lemma dead_invariant_step (self : NestedSampler Val) (cs : bool)
    (kw : gmap string Z) (tf : float) (ms : Z) (k : nat) (s s' : State) :
  live_wf s -> num_dead s = Z.of_nat k -> Z.of_nat k < ms ->
  dead_invariant ms k s ->
  body self cs false kw tf ms s = Ok s' ->
  (forall i_min, argmin (log_L_live s) = Ok i_min ->
     exists log_L_min log_L_new,
       log_L_live s !! i_min = Some log_L_min
       /\ log_L_live s' !! i_min = Some log_L_new
       /\ F64.lt log_L_min log_L_new = true) ->
  dead_invariant ms (Datatypes.S k) s'.
Proof.
  intros Hwf Hnd Hk (Hnan & b & Hb & Hlen & Hsorted & Hbelow) Hbody Hcontract.
  apply body_inv in Hbody as (s1 & Hstep & -> & _).
  destruct (one_step_frame _ _ _ _ _ _ Hwf Hstep)
    as (i_min & dp & Lm & sr & Hnext & Hargmin & HLm & _ & HL1 & _).
  destruct (one_step_inv _ _ _ _ _ _ Hstep)
    as (i' & dp' & Lm' & sr' & Hnext' & _ & _ & _ & _ & _ & _ & _ & _ & _
        & (b0 & b' & Hb0 & Hdus & Hb')).
  rewrite Hnext in Hnext'. inversion Hnext'. subst i' dp' Lm'. clear Hnext'.
  rewrite Hb in Hb0. inversion Hb0. subst b0. clear Hb0.
  rewrite Hnd in Hdus. apply dynamic_update_slice_one_at in Hdus; [|lia].
  subst b'.
  destruct (Hcontract _ Hargmin) as (Lm' & Lnew & HLm' & HLnew & Hlt).
  rewrite HLm in HLm'. inversion HLm'. subst Lm'. clear HLm'.
  simpl in HLnew. rewrite HL1 in HLnew.
  pose proof (lookup_lt_Some _ _ _ HLm) as Himin.
  rewrite list_lookup_insert_eq in HLnew by exact Himin.
  inversion HLnew as [HLnew']. clear HLnew.
  destruct (F64Facts.lt_not_nan _ _ Hlt) as (HLm_nan & HLnew_nan).
  assert (Hnn : forall j y, log_L_live s !! j = Some y ->
                            F64.is_nan y = false).
  { intros j y Hy. exact (Forall_lookup_1 _ _ _ _ Hnan Hy). }
  assert (Hmin : forall j y, log_L_live s !! j = Some y -> F64.le Lm y = true).
  { intros j y Hy. apply F64Facts.not_lt_le.
    - eapply Hnn. exact Hy.
    - exact HLm_nan.
    - destruct (argmin_first_min _ _ Hargmin) as (m & Hm & Hall & _).
      rewrite HLm in Hm. inversion Hm. subst m.
      rewrite <- (takes_min_lt y Lm).
      + eapply Hall. exact Hy.
      + eapply Hnn. exact Hy. }
  assert (Hlive1 : forall j y, log_L_live s1 !! j = Some y ->
                     y = Lnew \/ exists j0, log_L_live s !! j0 = Some y).
  { intros j y Hy. rewrite HL1, HLnew' in Hy.
    apply list_lookup_insert_Some in Hy as [(_ & <- & _)|(_ & Hy)]; eauto. }
  split.
  - simpl. rewrite HL1. apply Forall_insert; [exact Hnan|].
    rewrite HLnew'. exact HLnew_nan.
  - exists (<[k := Lm]> b). simpl. split; [exact Hb'|].
    split; [rewrite length_insert; exact Hlen|]. split.
    + intros j1 j2 x y Hj Hx Hy.
      apply list_lookup_insert_Some in Hy as [(<- & <- & _)|(Hne2 & Hy)].
      * apply list_lookup_insert_Some in Hx as [(_ & <- & _)|(Hne1 & Hx)].
        -- apply F64Facts.le_refl. exact HLm_nan.
        -- apply (Hbelow j1 i_min x Lm); [lia | exact Hx | exact HLm].
      * apply list_lookup_insert_Some in Hx as [(<- & _ & _)|(Hne1 & Hx)].
        -- lia.
        -- apply (Hsorted j1 j2); [lia | assumption | assumption].
    + intros j j' x y Hj Hx Hy.
      apply Hlive1 in Hy as [->|(j0 & Hy)];
        apply list_lookup_insert_Some in Hx as [(_ & <- & _)|(Hne & Hx)].
      * apply F64Facts.lt_le. exact Hlt.
      * apply F64Facts.le_trans with Lm.
        -- apply (Hbelow j i_min x Lm); [lia | exact Hx | exact HLm].
        -- apply F64Facts.lt_le. exact Hlt.
      * eapply Hmin. exact Hy.
      * apply (Hbelow j j0 x y); [lia | exact Hx | exact Hy].
Qed.

(** C2: in every completed run that keeps its buffers, from a sampler built
    by [__init__], the first [num_dead] entries of [log_L_dead] are in
    non-decreasing order, given what the sampler promises: every replacement
    of the run had a log-likelihood strictly above the threshold it was
    drawn for. *)
Theorem dead_log_likelihoods_are_nondecreasing :
  forall (L : gmap string Val -> ndarray) (pc : PriorChain Val)
         (name : string) (marg : gmap string (marginal Val))
         (self : NestedSampler Val) (k0 : Key) (N ms : Z) (cs : bool)
         (kw : gmap string Z) (tf : float) (s0 s : State) (fuel : nat),
    __init__ L pc name marg = Ok self ->
    initial_state self k0 N ms cs false kw = Ok s0 ->
    ms < 2 ^ 63 ->
    run_loop fuel self cs false kw tf ms s0 = Some (Ok s) ->
    replacements_above (Z.to_nat (num_dead s))
      (body self cs false kw tf ms) s0 = true ->
    exists b,
      log_L_dead s = Some b
      /\ forall j1 j2 x y,
           (j1 <= j2)%nat -> Z.of_nat j2 < num_dead s ->
           b !! j1 = Some x -> b !! j2 = Some y -> F64.le x y = true.
Proof.
  intros L pc name marg self k0 N ms cs kw tf s0 s fuel
    Hself Hinit Hms Hrun Hcontract.
  pose proof (run_invariant_holds _ _ _ _ _ _ _ tf _ Hinit) as Hinv.
  destruct (run_loop_halting self k0 N ms cs false kw tf
              s0 (Datatypes.S (Z.to_nat (Z.max 1 ms) + fuel)) Hinit Hms)
    as (r & Hr & Hspec); [lia|].
  apply (while_loop_fuel_mono _ (Datatypes.S (Z.to_nat (Z.max 1 ms) + fuel)))
    in Hrun; [|lia].
  unfold run_loop in Hr. rewrite Hrun in Hr. inversion Hr. subst r. clear Hr.
  destruct (Hspec s eq_refl) as (n & Hn1 & Hn & _ & HnB & _ & _ & Hbefore).
  destruct (Hinv _ _ Hn) as (_ & _ & _ & Hc).
  destruct Hc as (_ & Hnd & _); [lia|]. rewrite Hnd, Nat2Z.id in Hcontract.
  assert (Hall : forall k s_k, (k <= n)%nat ->
            iterate k (body self cs false kw tf ms) s0 = Ok s_k ->
            dead_invariant ms k s_k /\ ((k < n)%nat -> Z.of_nat k < ms)).
  { induction k as [|k IH]; intros s_k Hk Hit.
    - inversion Hit. subst s_k. split.
      + split.
        * apply init_loglikelihood in Hself as (HL & _).
          eapply initial_live_not_nan; eassumption.
        * apply initial_state_inv in Hinit
            as (_ & _ & _ & _ & _ & _ & Hbuf).
          destruct (Hbuf eq_refl) as (_ & b & Hb & Hlen).
          exists b. repeat split; try assumption; intros; lia.
      + intros Hlt.
        destruct (iterate_prefix _ _ n 1 _ Hn) as (s_1 & Hs1); [lia|].
        simpl in Hs1. apply bind_Ok in Hs1 as (s1' & Hb1 & _).
        apply body_inv in Hb1 as (s1 & Hstep & _).
        destruct (one_step_inv _ _ _ _ _ _ Hstep)
          as (? & ? & ? & ? & _ & _ & _ & _ & _ & _ & _ & _ & _ & _
              & (b0 & b' & Hb0 & Hdus & _)).
        apply dynamic_update_slice_one in Hdus as (Hc & _).
        apply initial_state_inv in Hinit
          as (_ & _ & _ & _ & _ & _ & Hbuf).
        destruct (Hbuf eq_refl) as (_ & b & Hb & Hlen).
        rewrite Hb in Hb0. inversion Hb0. subst b0. lia.
    - rewrite iterate_succ_r in Hit. apply bind_Ok in Hit as (s_p & Hp & Hb).
      destruct (IH s_p) as (Hdead & Hkms); [lia | exact Hp |].
      destruct (Hinv _ _ Hp) as (Hwf & _ & _ & Hc).
      destruct Hc as (_ & Hndp & _); [lia|].
      split.
      + eapply dead_invariant_step; try eassumption.
        * apply Hkms. lia.
        * intros i_min Hargmin.
          eapply (replacements_above_at _ _ _ Hcontract k);
            try eassumption; try lia.
      + intros Hlt. destruct (Hbefore (Datatypes.S k) s_k) as (_ & Hlt').
        * lia.
        * rewrite iterate_succ_r, Hp. exact Hb.
        * exact Hlt'. }
  destruct (Hall n s (le_n n) Hn) as ((_ & b & Hb & _ & Hsorted & _) & _).
  exists b. split; [exact Hb|]. intros j1 j2 x y Hj Hj2 Hx Hy.
  apply (Hsorted j1 j2); [lia | assumption | assumption].
Qed.

(** C4, as the code has it: the wrapped likelihood raises nothing on a
    scalar output and returns it unchanged unless it is NaN, which alone
    becomes negative infinity; an infinite output, of either sign, is
    returned as it is. *)
Theorem fixed_likelihood_coerces_only_nan :
  forall (L : gmap string Val -> ndarray) (x : gmap string Val) (v : float),
    L x = Scalar v ->
    fixed_likelihood L x = Ok (if F64.is_nan v then F64.ninf else v)
    /\ (F64.is_nan v = true -> fixed_likelihood L x = Ok F64.ninf)
    /\ (F64.is_nan v = false -> fixed_likelihood L x = Ok v).
Proof.
  intros L x v Hv. unfold fixed_likelihood. rewrite Hv.
  unfold where_, isnan. destruct (F64.is_nan v); repeat split;
    try reflexivity; discriminate.
Qed.

Lemma dict_multimap_pure {A B} (f : A -> B) (d : gmap string A) :
  exists r, dict_multimap (fun x => Ok (f x)) d = Ok r.
Proof. apply imapM_total. intros k x _. eauto. Qed.

Lemma init_total (L : gmap string Val -> ndarray) (pc : PriorChain Val)
    (name : string) (marg : gmap string (marginal Val)) :
  name ∈ _available_samplers ->
  exists self, __init__ L pc name marg = Ok self
    /\ loglikelihood self = fixed_likelihood L.
Proof.
  intros Hname. unfold __init__. rewrite bool_decide_eq_true_2 by exact Hname.
  destruct (dict_multimap_pure zeros (pc_to_shapes pc)) as (ti & Hti).
  rewrite Hti. simpl. eexists. split; reflexivity.
Qed.

(** C7, as the code has it: the constructor does not call the likelihood,
    so it accepts one whose output is not a scalar; the error is the
    [ValueError] of the wrapped likelihood at its first call, which is made
    by [initial_state] when a run is called, before the loop starts. *)
Theorem nonscalar_likelihood_raises_at_first_call :
  forall (L : gmap string Val -> ndarray) (pc : PriorChain Val)
         (name : string) (marg : gmap string (marginal Val)) (k0 : Key)
         (N ms : Z) (cs om : bool) (kw : gmap string Z) (tf : float)
         (fuel : nat),
    (forall x, shape (L x) <> []) ->
    name ∈ _available_samplers ->
    0 < N ->
    (forall k m, length (random_split k m) = m) ->
    exists self,
      __init__ L pc name marg = Ok self
      /\ initial_state self k0 N ms cs om kw
         = Raise (ValueError "Shape of likelihood should be scalar")
      /\ __call__ fuel self k0 N ms cs tf om (Some kw)
         = Some (Raise (ValueError "Shape of likelihood should be scalar")).
Proof.
  intros L pc name marg k0 N ms cs om kw tf fuel Hshape Hname HN Hsplit.
  destruct (init_total L pc name marg Hname) as (self & Hself & HL).
  exists self. split; [exact Hself|].
  assert (Hinit : initial_state self k0 N ms cs om kw
                  = Raise (ValueError "Shape of likelihood should be scalar")).
  { unfold initial_state, split2.
    pose proof (Hsplit k0 2%nat) as H2.
    destruct (random_split k0 2) as [|k1 [|k2 [|k3 ks]]]; try discriminate.
    simpl. destruct (Z.ltb_spec N 0); [lia|]. simpl.
    pose proof (Hsplit k2 (Z.to_nat N)) as HlenN.
    destruct (random_split k2 (Z.to_nat N)) as [|kx keys];
      [simpl in HlenN; lia|].
    rewrite (result_mapM_Raise _ kx keys
               (ValueError "Shape of likelihood should be scalar")).
    - reflexivity.
    - unfold single_sample. rewrite HL. unfold fixed_likelihood.
      pose proof (Hshape (pc_call (prior_chain self)
                            (random_uniform kx (pc_U_ndims (prior_chain self)))))
        as Hs.
      destruct (L _) as [v|]; [simpl in Hs; congruence | reflexivity]. }
  split; [exact Hinit|]. unfold __call__. simpl. rewrite Hinit. reflexivity.
Qed.

End Engine.

End EngineProps.

(** ** The properties at the small instance *)
Module DemoRuns.
Import Jnp PriorTransforms NestedSampling ArgminLemmas EngineProps Demo.

Lemma demo_split_length (k : Z) (m : nat) : length (random_split k m) = m.
Proof. simpl. unfold demo_split. rewrite length_fmap. apply length_seq. Qed.

Lemma slice_is_available : "slice" ∈ _available_samplers.
Proof. apply list_elem_of_here. Qed.

(** C4, as stated, fails: an output of positive infinity is not finite and
    the wrapped likelihood returns it as it is, not negative infinity. *)
Lemma infinite_likelihood_is_not_coerced :
  inf_loglikelihood ∅ = Scalar infinity
  /\ PrimFloat.is_finite infinity = false
  /\ fixed_likelihood inf_loglikelihood ∅ = Ok infinity
  /\ fixed_likelihood inf_loglikelihood ∅ <> Ok neg_infinity.
Proof.
  repeat split. intros H'. vm_compute in H'. discriminate.
Qed.

Lemma fixed_likelihood_coerces_only_nan_witness :
  (fun _ : gmap string (list num) => Scalar nan) ∅ = Scalar nan
  /\ fixed_likelihood (fun _ : gmap string (list num) => Scalar nan) ∅
     = Ok neg_infinity.
Proof.
  split; [reflexivity|].
  apply (fixed_likelihood_coerces_only_nan
           (fun _ : gmap string (list num) => Scalar nan) ∅ nan eq_refl).
  reflexivity.
Defined.

(** C7, as stated, fails: the constructor accepts a likelihood that returns
    a vector for every sample. *)
Lemma vector_likelihood_is_accepted_by_init :
  (forall x, shape (vector_loglikelihood x) <> [])
  /\ is_Ok (__init__ vector_loglikelihood demo_chain "slice" ∅) = true.
Proof. split; [discriminate | vm_compute; reflexivity]. Qed.

Lemma nonscalar_likelihood_raises_at_first_call_witness :
  (forall x, shape (vector_loglikelihood x) <> [])
  /\ "slice" ∈ _available_samplers
  /\ 0 < 3
  /\ (forall (k : Z) m, length (random_split k m) = m)
  /\ exists self,
       __init__ vector_loglikelihood demo_chain "slice" ∅ = Ok self
       /\ initial_state self 42 3 10 true false ∅
          = Raise (ValueError "Shape of likelihood should be scalar")
       /\ __call__ 20 self 42 3 10 true 0.5%float false (Some ∅)
          = Some (Raise (ValueError "Shape of likelihood should be scalar")).
Proof.
  split; [discriminate|]. split; [exact slice_is_available|].
  split; [lia|]. split; [exact demo_split_length|].
  apply (nonscalar_likelihood_raises_at_first_call vector_loglikelihood
           demo_chain "slice" ∅ 42 3 10 true false ∅ 0.5%float 20).
  - discriminate.
  - exact slice_is_available.
  - lia.
  - exact demo_split_length.
Defined.

(** With buffers and more live points than [max_samples], a run that the
    cap ends raises in [_finalise_results]: the live points do not fit the
    buffers they are written into. *)
Lemma capped_run_with_more_live_points_raises :
  __call__ 20 (demo_sampler peak_loglikelihood) 42 3 2 true 0x1p-10%float
    false None
  = Some (Raise (TypeError "dynamic_update_slice update shape must be smaller than operand shape")).
Proof. vm_compute. reflexivity. Qed.

Lemma loop_halts_at_first_convergence_or_cap_witness :
  exists s0 s,
    initial_state (demo_sampler peak_loglikelihood) 42 3 100 true false ∅
    = Ok s0
    /\ 100 < 2 ^ 63
    /\ Z.max 1 100 < Z.of_nat 200
    /\ run_loop 200 (demo_sampler peak_loglikelihood) true false ∅
         0.5%float 100 s0 = Some (Ok s)
    /\ i s = 4
    /\ PrimFloat.ltb
         (logsumexp (log_L_live s)
          - log (float_of_int (Z.of_nat (length (log_L_live s))))
          + te_X_log_value (tracked_expectations_state s))%float
         (log 0.5 + evidence_mean (tracked_expectations_state s))%float
       = true
    /\ exists r,
         run_loop 200 (demo_sampler peak_loglikelihood) true false ∅
           0.5%float 100 s0 = Some r
         /\ forall s', r = Ok s' ->
              exists n,
                (1 <= n)%nat
                /\ iterate n (body (demo_sampler peak_loglikelihood) true
                                false ∅ 0.5%float 100) s0 = Ok s'
                /\ i s' = Z.of_nat n
                /\ Z.of_nat n <= Z.max 1 100
                /\ done s' = true
                /\ (PrimFloat.ltb
                      (logsumexp (log_L_live s')
                       - log (float_of_int
                                (Z.of_nat (length (log_L_live s'))))
                       + te_X_log_value (tracked_expectations_state s'))%float
                      (log 0.5
                       + evidence_mean (tracked_expectations_state s'))%float
                    = true
                    \/ 100 <= Z.of_nat n)
                /\ forall k s_k,
                     (1 <= k < n)%nat ->
                     iterate k (body (demo_sampler peak_loglikelihood) true
                                  false ∅ 0.5%float 100) s0 = Ok s_k ->
                     PrimFloat.ltb
                       (logsumexp (log_L_live s_k)
                        - log (float_of_int
                                 (Z.of_nat (length (log_L_live s_k))))
                        + te_X_log_value
                            (tracked_expectations_state s_k))%float
                       (log 0.5
                        + evidence_mean
                            (tracked_expectations_state s_k))%float
                     = false
                     /\ Z.of_nat k < 100 /\ done s_k = false.
Proof.
  eexists _, _.
  match goal with
  | |- ?I = Ok ?s0 /\ _ /\ _ /\ ?R = Some (Ok ?s) /\ _ =>
      assert (Hinit : I = Ok s0) by (vm_compute; reflexivity);
      assert (Hrun : R = Some (Ok s)) by (vm_compute; reflexivity)
  end.
  match goal with
  | |- _ = Ok ?s0 /\ _ /\ _ /\ _ = Some (Ok ?s) /\ _ =>
      set (v0 := s0) in *; set (v := s) in *
  end.
  split; [exact Hinit|]. split; [lia|]. split; [lia|].
  split; [exact Hrun|]. split; [vm_compute; reflexivity|].
  split; [vm_compute; reflexivity|].
  exact (loop_halts_at_first_convergence_or_cap
           (demo_sampler peak_loglikelihood) 42 3 100 true false ∅ 0.5%float
           v0 200 Hinit ltac:(lia) ltac:(lia)).
Defined.

Lemma dead_log_likelihoods_are_nondecreasing_witness :
  exists s0 s,
    __init__ peak_loglikelihood demo_chain "slice" ∅
    = Ok (demo_sampler peak_loglikelihood)
    /\ initial_state (demo_sampler peak_loglikelihood) 42 3 10 true false ∅
       = Ok s0
    /\ 10 < 2 ^ 63
    /\ run_loop 20 (demo_sampler peak_loglikelihood) true false ∅
         0x1p-10%float 10 s0 = Some (Ok s)
    /\ replacements_above (Z.to_nat (num_dead s))
         (body (demo_sampler peak_loglikelihood) true false ∅ 0x1p-10%float 10)
         s0 = true
    /\ exists b,
         log_L_dead s = Some b
         /\ forall j1 j2 x y,
              (j1 <= j2)%nat -> Z.of_nat j2 < num_dead s ->
              b !! j1 = Some x -> b !! j2 = Some y -> F64.le x y = true.
Proof.
  eexists _, _. split; [reflexivity|].
  split; [vm_compute; reflexivity|]. split; [lia|].
  split; [vm_compute; reflexivity|]. split; [vm_compute; reflexivity|].
  eapply (dead_log_likelihoods_are_nondecreasing peak_loglikelihood demo_chain
           "slice" ∅ (demo_sampler peak_loglikelihood) 42 3 10 true ∅
           0x1p-10%float _ _ 20).
  - reflexivity.
  - vm_compute. reflexivity.
  - lia.
  - vm_compute. reflexivity.
  - vm_compute. reflexivity.
Defined.

Lemma call_is_deterministic_witness :
  exists r1 r2,
    __call__ 20 (demo_sampler peak_loglikelihood) 42 3 10 true 0x1p-10%float
      false None = Some r1
    /\ __call__ 50 (demo_sampler peak_loglikelihood) 42 3 10 true 0x1p-10%float
         false None = Some r2
    /\ r1 = r2.
Proof.
  eexists _, _. split; [vm_compute; reflexivity|].
  split; [vm_compute; reflexivity|].
  eapply (call_is_deterministic (demo_sampler peak_loglikelihood) 42 3 10 true
           false None 0x1p-10%float 20 50).
  - vm_compute. reflexivity.
  - vm_compute. reflexivity.
Defined.

Lemma status_stays_good_at_max_samples_witness :
  exists s0 s,
    initial_state (demo_sampler peak_loglikelihood) 42 3 10 true false ∅
    = Ok s0
    /\ run_loop 20 (demo_sampler peak_loglikelihood) true false ∅
         0x1p-10%float 10 s0 = Some (Ok s)
    /\ converged 0x1p-10%float s = false
    /\ i s = 10
    /\ done s = true /\ status s = 0.
Proof.
  eexists _, _. split; [vm_compute; reflexivity|].
  split; [vm_compute; reflexivity|]. split; [vm_compute; reflexivity|].
  split; [vm_compute; reflexivity|].
  eapply (status_stays_good_at_max_samples (demo_sampler peak_loglikelihood)
           42 3 10 true false ∅ 0x1p-10%float _ _ 20).
  - vm_compute. reflexivity.
  - vm_compute. reflexivity.
  - vm_compute. reflexivity.
Defined.

(** After one iteration of the run on the small instance the minimum is
    in the last slot, not in the first, and the largest log-likelihood is
    in the middle one. *)
Lemma one_step_overwrites_only_the_minimum_witness :
  exists s0 s s' a b c,
    (forall (k : Z) m, length (random_split k m) = m)
    /\ initial_state (demo_sampler peak_loglikelihood) 42 3 10 true false ∅
       = Ok s0
    /\ iterate 1 (body (demo_sampler peak_loglikelihood) true false ∅
                    0x1p-10%float 10) s0 = Ok s
    /\ _one_step (demo_sampler peak_loglikelihood) s true false ∅ = Ok s'
    /\ log_L_live s = [a; b; c]
    /\ PrimFloat.ltb c a = true /\ PrimFloat.ltb a b = true
    /\ exists dead_point sr,
         argmin (log_L_live s) = Ok 2%nat
         /\ is_first_min (log_L_live s) 2
         /\ log_L_live s !! 2%nat = Some c
         /\ (forall j x, log_L_live s !! j = Some x ->
               PrimFloat.ltb x c = false
               /\ (PrimFloat.is_nan x = true -> PrimFloat.is_nan c = true)
               /\ ((j < 2)%nat ->
                   PrimFloat.is_nan x = false
                   /\ (PrimFloat.is_nan c = false ->
                       PrimFloat.ltb c x = true)))
         /\ call_sampler (demo_sampler peak_loglikelihood) s ∅ 2 c
              (te_update (marginalised (demo_sampler peak_loglikelihood))
                 (tracked_expectations_state s) dead_point
                 (length (log_L_live s)) c) = Ok sr
         /\ overwrites_slot s s' 2 sr
         /\ log_L_live s' = <[2%nat := sr_log_L_new sr]> (log_L_live s)
         /\ (forall j, j <> 2%nat ->
               log_L_live s' !! j = log_L_live s !! j
               /\ live_points_U s' !! j = live_points_U s !! j
               /\ forall name col col',
                    live_points s !! name = Some col ->
                    live_points s' !! name = Some col' ->
                    col' !! j = col !! j)
         /\ length (log_L_live s) = Z.to_nat 3
         /\ live_wf s
         /\ length (log_L_live s') = Z.to_nat 3
         /\ live_wf s'.
Proof.
  eexists _, _, _, _, _, _. split; [exact demo_split_length|].
  match goal with
  | |- ?I = Ok ?s0 /\ ?IT = Ok ?s /\ ?ST = Ok ?s' /\ _ =>
      assert (Hinit : I = Ok s0) by (vm_compute; reflexivity);
      assert (Hiter : IT = Ok s) by (vm_compute; reflexivity);
      assert (Hstep : ST = Ok s') by (vm_compute; reflexivity)
  end.
  match goal with
  | |- _ = Ok ?s0 /\ _ = Ok ?s /\ _ = Ok ?s' /\ _ =>
      set (v0 := s0) in *; set (v := s) in *; set (v' := s') in *
  end.
  split; [exact Hinit|]. split; [exact Hiter|]. split; [exact Hstep|].
  split; [vm_compute; reflexivity|].
  split; [vm_compute; reflexivity|]. split; [vm_compute; reflexivity|].
  destruct (one_step_overwrites_only_the_minimum
              (demo_sampler peak_loglikelihood) 42 3 10 true false ∅
              0x1p-10%float v0 v v' 1 demo_split_length Hinit Hiter Hstep)
    as (i_min & dp & Lm & sr & Hargmin & Hfirst & HLm & Hrest).
  assert (Ha : argmin (log_L_live v) = Ok 2%nat) by (vm_compute; reflexivity).
  rewrite Ha in Hargmin. inversion Hargmin. subst i_min.
  match goal with
  | |- exists _ _, _ /\ _ /\ _ = Some ?c /\ _ =>
      assert (Hc : log_L_live v !! 2%nat = Some c) by reflexivity
  end.
  rewrite Hc in HLm. inversion HLm. subst Lm.
  exists dp, sr. split; [exact Ha|]. split; [exact Hfirst|].
  split; [exact Hc|]. exact Hrest.
Defined.

End DemoRuns.

(** ** The index [jnp.argmax] returns *)
Module ArgmaxLemmas.
Import Jnp.

Lemma le_not_gt (x y : float) : F64.le x y = true -> F64.lt y x = false.
Proof.
  unfold F64.le, F64.lt. rewrite FloatAxioms.leb_spec, FloatAxioms.ltb_spec.
  rewrite F64Facts.SFleb_rank. intros (_ & _ & Hle).
  destruct (SFltb (Prim2SF y) (Prim2SF x)) eqn:E; [|reflexivity].
  apply ArgminLemmas.SFltb_rank in E as (_ & _ & Hlt).
  unfold F64.lex_le, F64.lex_lt in *.
  destruct (F64.rank (Prim2SF x)) as [[? ?] ?],
    (F64.rank (Prim2SF y)) as [[? ?] ?]. lia.
Qed.

Lemma takes_max_key (x y : float) :
  takes_max x y = true <-> F64.lex_lt (max_key y) (max_key x).
Proof.
  unfold takes_max, max_key.
  destruct (F64.is_nan x) eqn:Hx, (F64.is_nan y) eqn:Hy; simpl.
  - assert (F64.lt y x = false) as ->.
    { destruct (F64.lt y x) eqn:E; [|reflexivity].
      apply F64Facts.lt_not_nan in E. destruct E; congruence. }
    simpl. split; [discriminate | lia].
  - assert (F64.lt y x = false) as ->.
    { destruct (F64.lt y x) eqn:E; [|reflexivity].
      apply F64Facts.lt_not_nan in E. destruct E; congruence. }
    simpl. pose proof (ArgminLemmas.rank_class (Prim2SF y)).
    destruct (F64.rank (Prim2SF y)) as [[? ?] ?]. simpl in *.
    split; [lia | reflexivity].
  - rewrite orb_false_r.
    assert (F64.lt y x = false) as ->.
    { destruct (F64.lt y x) eqn:E; [|reflexivity].
      apply F64Facts.lt_not_nan in E. destruct E; congruence. }
    pose proof (ArgminLemmas.rank_class (Prim2SF x)).
    destruct (F64.rank (Prim2SF x)) as [[? ?] ?]. simpl in *.
    split; [discriminate | lia].
  - rewrite orb_false_r. unfold F64.lt. rewrite FloatAxioms.ltb_spec.
    rewrite ArgminLemmas.SFltb_rank.
    apply F64Facts.is_nan_false in Hx, Hy. tauto.
Qed.

Lemma takes_max_false_key (x y : float) :
  takes_max x y = false <-> ~ F64.lex_lt (max_key y) (max_key x).
Proof.
  rewrite <- takes_max_key. destruct (takes_max x y); split; congruence.
Qed.

Lemma takes_max_irrefl (x : float) : takes_max x x = false.
Proof.
  apply takes_max_false_key. unfold F64.lex_lt.
  destruct (max_key x) as [[? ?] ?]. lia.
Qed.

Lemma argmax_from_first_max (pre l : list float) (bi : nat) (best : float) :
  pre !! bi = Some best ->
  (forall j x, pre !! j = Some x -> takes_max x best = false) ->
  (forall j x, (j < bi)%nat -> pre !! j = Some x -> takes_max best x = true) ->
  is_first_max (pre ++ l) (argmax_from l (length pre) bi best).
Proof.
  revert pre bi best. induction l as [|x l IH]; intros pre bi best Hb Hmax Hfst.
  - simpl. rewrite app_nil_r. exists best. auto.
  - simpl. replace (pre ++ x :: l) with ((pre ++ [x]) ++ l)
      by (rewrite <- app_assoc; reflexivity).
    replace (S (length pre)) with (length (pre ++ [x]))
      by (rewrite length_app; simpl; lia).
    destruct (takes_max x best) eqn:Hx.
    + apply IH.
      * rewrite lookup_app_r by lia. rewrite Nat.sub_diag. reflexivity.
      * intros j y Hj. apply takes_max_false_key.
        apply takes_max_key in Hx.
        apply lookup_app_Some in Hj as [Hj|[_ Hj]].
        -- apply Hmax in Hj. apply takes_max_false_key in Hj.
           unfold F64.lex_lt in *.
           destruct (max_key x) as [[? ?] ?], (max_key y) as [[? ?] ?],
             (max_key best) as [[? ?] ?]. lia.
        -- destruct (j - length pre)%nat; simpl in Hj; [|discriminate].
           inversion Hj. subst. unfold F64.lex_lt.
           destruct (max_key y) as [[? ?] ?]. lia.
      * intros j y Hlt Hj. apply takes_max_key. apply takes_max_key in Hx.
        apply lookup_app_Some in Hj as [Hj|[Hge _]]; [|lia].
        apply Hmax in Hj. apply takes_max_false_key in Hj.
        unfold F64.lex_lt in *.
        destruct (max_key x) as [[? ?] ?], (max_key y) as [[? ?] ?],
          (max_key best) as [[? ?] ?]. lia.
    + apply IH.
      * rewrite lookup_app_l by (apply lookup_lt_Some in Hb; exact Hb).
        exact Hb.
      * intros j y Hj. apply lookup_app_Some in Hj as [Hj|[_ Hj]].
        -- eauto.
        -- destruct (j - length pre)%nat; simpl in Hj; [|discriminate].
           inversion Hj. subst. exact Hx.
      * intros j y Hlt Hj. apply lookup_app_Some in Hj as [Hj|[Hge _]].
        -- eauto.
        -- apply lookup_lt_Some in Hb. lia.
Qed.

Lemma argmax_first_max (l : list float) (r : nat) :
  argmax l = Ok r -> is_first_max l r.
Proof.
  destruct l as [|x l]; simpl; [discriminate|]. intros H. inversion H.
  apply (argmax_from_first_max [x] l 0 x).
  - reflexivity.
  - intros [|j] y Hj; simpl in Hj; [|discriminate]. inversion Hj. subst.
    apply takes_max_irrefl.
  - intros j y Hj. lia.
Qed.

(** The first maximum in the order of binary64 itself: no element is
    strictly above it, a NaN among the elements makes it a NaN, and every
    element before it is a number, strictly below it when it is a number. *)
Lemma first_max_order (l : list float) (r : nat) (m : float) :
  is_first_max l r -> l !! r = Some m ->
  forall j x, l !! j = Some x ->
    PrimFloat.ltb m x = false
    /\ (PrimFloat.is_nan x = true -> PrimFloat.is_nan m = true)
    /\ ((j < r)%nat ->
        PrimFloat.is_nan x = false
        /\ (PrimFloat.is_nan m = false -> PrimFloat.ltb x m = true)).
Proof.
  intros (m' & Hm' & Hmax & Hfirst) Hm j x Hx.
  rewrite Hm in Hm'. inversion Hm'. subst m'.
  pose proof (Hmax j x Hx) as Hj. unfold takes_max, F64.lt, F64.is_nan in Hj.
  apply orb_false_iff in Hj as (Hlt & Hnan).
  split; [exact Hlt|]. split.
  - intros Hxn. rewrite Hxn in Hnan. simpl in Hnan.
    apply negb_false_iff in Hnan. exact Hnan.
  - intros Hjr. pose proof (Hfirst j x Hjr Hx) as Hf.
    unfold takes_max, F64.lt, F64.is_nan in Hf.
    apply orb_true_iff in Hf as [Hf|Hf].
    + destruct (F64Facts.lt_not_nan _ _ Hf) as (Hxn & _).
      split; [exact Hxn | intros _; exact Hf].
    + apply andb_true_iff in Hf as (Hmn & Hxn).
      apply negb_true_iff in Hxn. split; [exact Hxn|].
      intros Hmn'. congruence.
Qed.

End ArgmaxLemmas.

(** ** Further properties of the prior transforms *)
Module PriorForward.
Import Jnp PriorTransforms.

Lemma length_asarray (xs : list num) : length (asarray xs) = length xs.
Proof. unfold asarray. destruct (existsb is_float xs); [apply length_map | reflexivity]. Qed.

(** What [jnp.maximum(u, eps)] hands to the logarithm. *)
Lemma maximum_eps_cases (u : float) :
  (PrimFloat.ltb u eps = true -> maximum u eps = eps)
  /\ (PrimFloat.leb eps u = true -> maximum u eps = u)
  /\ (PrimFloat.is_nan u = false -> PrimFloat.leb eps (maximum u eps) = true).
Proof.
  unfold maximum, F64.is_nan, F64.lt. split; [|split].
  - intros Hlt. destruct (F64Facts.lt_not_nan _ _ Hlt) as (Hn & Hne).
    unfold F64.is_nan in Hn, Hne. rewrite Hn, Hne, Hlt. reflexivity.
  - intros Hle. destruct (F64Facts.le_not_nan _ _ Hle) as (Hne & Hn).
    unfold F64.is_nan in Hn, Hne. rewrite Hn, Hne.
    pose proof (ArgmaxLemmas.le_not_gt _ _ Hle) as Hgt. unfold F64.lt in Hgt.
    rewrite Hgt. reflexivity.
  - intros Hn. rewrite Hn.
    assert (Hne : PrimFloat.is_nan eps = false) by reflexivity.
    rewrite Hne. destruct (PrimFloat.ltb u eps) eqn:Hlt.
    + reflexivity.
    + apply (F64Facts.not_lt_le u eps Hn Hne Hlt).
Qed.

(** C8: [CategoricalPrior.forward], applied to the outputs of its [Gumbel]
    and logits parents, returns one integer, an index into the logits, for
    every uniform input, 0 and 1 included: an output that is finite
    whatever the noise is. [Gumbel.forward] clamps before the two
    logarithms: component [u] of its input gives [-log(-log(c))] where [c]
    is [eps] when [u < eps], so at [u = 0] exactly, and [u] when
    [eps <= u], hence [eps <= c] for every number [u]. The index is that
    of the first maximum of [logits + gumbel] in the order of binary64, a
    NaN counting as the maximum. [U] is the slice of the prior itself,
    which [forward] does not read, and [U_gumbel] the slice of its [Gumbel]
    parent. *)
Theorem categorical_forward_is_finite :
  forall (log : float -> float) (name : string) (tracked : bool)
         (logits : list num) (U U_gumbel : list float),
    logits <> [] ->
    length U_gumbel = length logits ->
    exists p gumbel logits_out k,
      CategoricalPrior name (inr (PySeq logits)) tracked = Ok p
      /\ prior_chain p
         = [Gumbel ("_" +:+ name +:+ "_gumbel") (length logits) false;
            DeltaPrior ("_" +:+ name +:+ "_logits") (PySeq logits) false]
      /\ forward log
           (Gumbel ("_" +:+ name +:+ "_gumbel") (length logits) false)
           U_gumbel [] = Ok gumbel
      /\ forward log
           (DeltaPrior ("_" +:+ name +:+ "_logits") (PySeq logits) false)
           [] [] = Ok logits_out
      /\ length gumbel = length U_gumbel
      /\ length logits_out = length logits
      /\ (forall j u, U_gumbel !! j = Some u ->
            exists c,
              gumbel !! j = Some (NFloat (- log (- log c))%float)
              /\ (PrimFloat.ltb u eps = true -> c = eps)
              /\ (PrimFloat.leb eps u = true -> c = u)
              /\ (PrimFloat.is_nan u = false -> PrimFloat.leb eps c = true))
      /\ (forall j, U_gumbel !! j = Some 0%float ->
            gumbel !! j = Some (NFloat (- log (- log eps))%float))
      /\ forward log p U [gumbel; logits_out] = Ok [NInt (Z.of_nat k)]
      /\ (k < length logits)%nat
      /\ Forall (fun a => num_is_finite a = true) [NInt (Z.of_nat k)]
      /\ exists s m,
           elementwise num_add logits_out gumbel = Ok s
           /\ map to_float s !! k = Some m
           /\ forall j x, map to_float s !! j = Some x ->
                PrimFloat.ltb m x = false
                /\ (PrimFloat.is_nan x = true -> PrimFloat.is_nan m = true)
                /\ ((j < k)%nat ->
                    PrimFloat.is_nan x = false
                    /\ (PrimFloat.is_nan m = false ->
                        PrimFloat.ltb x m = true)).
Proof.
  intros log name tracked logits U Ug Hne Hlen.
  set (gumbel := map (fun u => NFloat (gumbel_of log u)) Ug).
  set (lo := asarray logits).
  set (s := zip_with num_add lo gumbel).
  assert (Hlo : length lo = length logits) by apply length_asarray.
  assert (Hg : length gumbel = length Ug) by apply length_map.
  assert (Hs : length s = length logits).
  { unfold s. rewrite length_zip_with. lia. }
  destruct (PriorProps.argmax_bound (map to_float s)) as (k & Hk & Hkb).
  { destruct s; [destruct logits; simpl in *; congruence | discriminate]. }
  rewrite length_map, Hs in Hkb.
  destruct (lookup_lt_is_Some_2 (map to_float s) k) as (m & Hm).
  { rewrite length_map. lia. }
  assert (Helt : elementwise num_add lo gumbel = Ok s).
  { unfold elementwise. rewrite Hlo, Hg, Hlen, Nat.eqb_refl. reflexivity. }
  exists (mkPriorTransform name (length logits)
            [Gumbel ("_" +:+ name +:+ "_gumbel") (length logits) false;
             DeltaPrior ("_" +:+ name +:+ "_logits") (PySeq logits) false]
            tracked (ClsCategorical [1%nat])),
    gumbel, lo, k.
  split.
  { unfold CategoricalPrior. simpl. fold lo. rewrite Hlo. reflexivity. }
  split; [reflexivity|]. split; [reflexivity|]. split; [reflexivity|].
  split; [exact Hg|]. split; [exact Hlo|]. split.
  { intros j u Hu. exists (maximum u eps).
    destruct (maximum_eps_cases u) as (H1 & H2 & H3).
    split; [|split; [exact H1 | split; [exact H2 | exact H3]]].
    unfold gumbel. change (map ?f Ug) with (f <$> Ug).
    rewrite list_lookup_fmap, Hu. reflexivity. }
  split.
  { intros j Hj. unfold gumbel. change (map ?f Ug) with (f <$> Ug).
    rewrite list_lookup_fmap, Hj. reflexivity. }
  split.
  { unfold forward. simpl. rewrite Helt. simpl. rewrite Hk. reflexivity. }
  split; [exact Hkb|]. split; [repeat constructor|].
  exists s, m. split; [exact Helt|]. split; [exact Hm|].
  apply ArgmaxLemmas.first_max_order; [|exact Hm].
  apply ArgmaxLemmas.argmax_first_max. exact Hk.
Qed.

(** X12: [Gumbel.forward] returns one value per uniform input; an input
    strictly below [eps] -- zero and every negative number -- gives the
    value at [eps], and an input at or above [eps] is used as it is. *)
Theorem gumbel_forward_clamps_below_eps :
  forall (log : float -> float) (name : string) (n : nat) (tracked : bool)
         (U : list float) (parents : list (list num)),
    exists out,
      forward log (Gumbel name n tracked) U parents = Ok out
      /\ length out = length U
      /\ forall j u, U !! j = Some u ->
           (F64.lt u eps = true ->
            out !! j = Some (NFloat (gumbel_of log eps)))
           /\ (F64.le eps u = true ->
               out !! j = Some (NFloat (- log (- log u))%float)).
Proof.
  intros log name n tracked U parents.
  exists (map (fun u => NFloat (gumbel_of log u)) U).
  split; [reflexivity|]. split; [apply length_map|].
  intros j u Hu.
  assert (Hout : map (fun u => NFloat (gumbel_of log u)) U !! j
                 = Some (NFloat (gumbel_of log u))).
  { change (map (fun u => NFloat (gumbel_of log u)) U)
      with ((fun u => NFloat (gumbel_of log u)) <$> U).
    rewrite list_lookup_fmap, Hu. reflexivity. }
  rewrite Hout. unfold gumbel_of, maximum. split.
  - intros Hlt. destruct (F64Facts.lt_not_nan _ _ Hlt) as (Hn & Hne).
    rewrite Hn, Hne, Hlt. reflexivity.
  - intros Hle. destruct (F64Facts.le_not_nan _ _ Hle) as (Hne & Hn).
    rewrite Hn, Hne, (ArgmaxLemmas.le_not_gt _ _ Hle). reflexivity.
Qed.

(** X13: [CategoricalPrior.forward] does not read its own slice of the unit
    cube; when it returns, the category is the index of the first maximum
    of [logits + gumbel], a NaN counting as the maximum. *)
Theorem categorical_forward_returns_first_maximum :
  forall (log : float -> float) (p : PriorTransform) (shape : list nat)
         (U : list float) (gumbel logits out : list num),
    cls p = ClsCategorical shape ->
    forward log p U [gumbel; logits] = Ok out ->
    exists k s,
      elementwise num_add logits gumbel = Ok s
      /\ out = [NInt (Z.of_nat k)]
      /\ is_first_max (map to_float s) k
      /\ forall U', forward log p U' [gumbel; logits] = Ok out.
Proof.
  intros log p shape U gumbel logits out Hcls. unfold forward. rewrite Hcls.
  intros H'. apply ResultLemmas.bind_Ok in H' as (s & Hs & H').
  apply ResultLemmas.bind_Ok in H' as (k & Hk & H'). inversion H'. subst out.
  exists k, s. split; [exact Hs|]. split; [reflexivity|].
  split; [apply ArgmaxLemmas.argmax_first_max; exact Hk|].
  intros U'. rewrite Hs. simpl. rewrite Hk. reflexivity.
Qed.

(** X14: the outcome of [CategoricalPrior.forward]: one index below the
    broadcast length of logits and noise; a [TypeError] when their lengths
    differ and neither is one; a [ValueError] when there is no category. *)
Theorem categorical_forward_outcome :
  forall (log : float -> float) (p : PriorTransform) (shape : list nat)
         (U : list float) (gumbel logits : list num),
    cls p = ClsCategorical shape ->
    match forward log p U [gumbel; logits] with
    | Ok out =>
        exists k, out = [NInt (Z.of_nat k)]
                  /\ (k < Nat.max (length logits) (length gumbel))%nat
    | Raise e =>
        (e = TypeError "incompatible shapes for broadcasting"
         /\ length logits <> length gumbel
         /\ length logits <> 1%nat /\ length gumbel <> 1%nat)
        \/ (e = ValueError "attempt to get argmax of an empty sequence"
            /\ (logits = [] \/ gumbel = []))
    end.
Proof.
  intros log p shape U gumbel logits Hcls. unfold forward. rewrite Hcls.
  unfold elementwise.
  destruct (Nat.eqb_spec (length logits) (length gumbel)) as [Heq|Hne].
  - simpl. destruct (zip_with num_add logits gumbel) as [|a s] eqn:Hz.
    + simpl. right. split; [reflexivity|].
      destruct logits; [left; reflexivity|].
      destruct gumbel; [right; reflexivity | discriminate].
    + assert (Hlen : length (a :: s) = length logits).
      { rewrite <- Hz, length_zip_with. lia. }
      destruct (PriorProps.argmax_bound (map to_float (a :: s)))
        as (k & Hk & Hkb); [discriminate|].
      rewrite Hk. simpl. exists k. split; [reflexivity|].
      rewrite length_map, Hlen in Hkb. lia.
  - destruct logits as [|x [|x' logits]].
    + destruct gumbel as [|y [|y' gumbel]]; simpl in *.
      * congruence.
      * right. split; [reflexivity | left; reflexivity].
      * left. repeat split; try discriminate; lia.
    + destruct gumbel as [|y gumbel]; simpl.
      * right. split; [reflexivity | right; reflexivity].
      * destruct (PriorProps.argmax_bound
                    (map to_float (map (num_add x) (y :: gumbel))))
          as (k & Hk & Hkb); [discriminate|].
        simpl in Hk. inversion Hk as [Hk']. exists k. rewrite Hk'.
        split; [reflexivity|].
        rewrite !length_map in Hkb. simpl in *. lia.
    + destruct gumbel as [|y [|y' gumbel]].
      * left. repeat split; try discriminate; simpl; lia.
      * simpl.
        destruct (PriorProps.argmax_bound
                    (map to_float
                       (map (fun a => num_add a y) (x :: x' :: logits))))
          as (k & Hk & Hkb); [discriminate|].
        simpl in Hk. inversion Hk as [Hk']. exists k. rewrite Hk'.
        split; [reflexivity|].
        rewrite !length_map in Hkb. simpl in *. lia.
      * left. repeat split; try discriminate; simpl in *; lia.
Qed.

End PriorForward.

(** ** Further properties of the engine *)
Module EngineRuns.
Import Jnp Dict NestedSampling ResultLemmas ArgminLemmas EngineProps.

Lemma le_ninf (x : float) : F64.is_nan x = false -> F64.le F64.ninf x = true.
Proof.
  intros Hx. unfold F64.le. rewrite FloatAxioms.leb_spec.
  apply F64Facts.SFleb_rank. apply F64Facts.is_nan_false in Hx.
  split; [vm_compute; discriminate|]. split; [exact Hx|].
  replace (Prim2SF F64.ninf) with (S754_infinity true)
    by (vm_compute; reflexivity).
  pose proof (rank_class (Prim2SF x)) as Hr. simpl. unfold F64.lex_le.
  destruct (Prim2SF x) as [[]|[]| |[] ? ?]; simpl; try congruence; lia.
Qed.

Section Engine.
Context {Key Val SamplerState TrackedState : Type}.
Context `{!Jax Key Val, !Tracker Val TrackedState,
          !Samplers Key Val SamplerState}.

Local Abbreviation State :=
  (NestedSamplerState Key Val SamplerState TrackedState).

(** X1: [__init__] validates the sampler name once and for all: it returns
    exactly for the two available names, without calling the likelihood, and
    any other name is a [ValueError]. For the sampler it returns, the
    sampler call of [_one_step] is the call of the sampler of that name,
    with [num_slices] defaulting to 1, and the sampler initialisation of
    [initial_state] can only fail where the key split fails: the
    "Invalid sampler name" branches of both are never taken. *)
Theorem init_accepts_exactly_the_available_samplers :
  forall (L : gmap string Val -> ndarray) (pc : PriorChain Val)
         (name : string) (marg : gmap string (marginal Val)),
    match __init__ L pc name marg with
    | Ok self =>
        (name = "slice" \/ name = "multi_ellipsoid")
        /\ sampler_name self = name
        /\ loglikelihood self = fixed_likelihood L
        /\ prior_chain self = pc
        /\ marginalised self = (if decide (marg = ∅) then None else Some marg)
        /\ (marg = ∅ -> marginalised_shapes self = None)
        /\ (forall (s : State) kw i_min log_L_min te,
              call_sampler self s kw i_min log_L_min te
              = if String.eqb name "slice"
                then slice_sampling (key s) log_L_min (live_points_U s)
                       (kwargs_get kw "num_slices" 1) (fixed_likelihood L) pc
                       i_min (te_X_log_value te) (sampler_state s)
                else multi_ellipsoid_sampler (key s) log_L_min
                       (live_points_U s) (fixed_likelihood L) pc
                       (sampler_state s) (te_X_log_value te) i_min)
        /\ (forall (k : Key) U x kw e,
              init_sampler (SamplerState := SamplerState) self k U x kw
              = Raise e ->
              split2 k = Raise e)
    | Raise e =>
        name <> "slice" /\ name <> "multi_ellipsoid"
        /\ exists msg, e = ValueError msg
    end.
Proof.
  intros L pc name marg. unfold __init__.
  destruct (bool_decide_reflect (name ∈ _available_samplers)) as [Hin|Hout].
  - destruct (dict_multimap_pure zeros (pc_to_shapes pc)) as (ti & Hti).
    rewrite Hti. simpl.
    assert (Hname : name = "slice" \/ name = "multi_ellipsoid").
    { unfold _available_samplers in Hin.
      apply elem_of_cons in Hin as [->|Hin]; [left; reflexivity|].
      apply list_elem_of_singleton in Hin. right. exact Hin. }
    split; [exact Hname|].
    do 3 (split; [reflexivity|]).
    split; [|split; [|split]].
    + destruct (decide (marg = ∅)) as [->|Hne].
      * rewrite map_size_empty. reflexivity.
      * assert (size marg <> 0%nat)
          by (intros H0; apply map_size_empty_inv in H0; contradiction).
        destruct (Nat.ltb_spec 0 (size marg)); [reflexivity | lia].
    + intros ->. rewrite map_size_empty. reflexivity.
    + intros s kw i_min log_L_min te. unfold call_sampler. simpl.
      destruct Hname as [->| ->]; reflexivity.
    + intros k U x kw e. unfold init_sampler. simpl.
      destruct Hname as [->| ->]; simpl;
        destruct (split2 k) as [[k1 k2]|e']; simpl; congruence.
  - split; [|split; [|eauto]].
    + intros ->. apply Hout. apply list_elem_of_here.
    + intros ->. apply Hout. unfold _available_samplers.
      apply elem_of_cons. right. apply list_elem_of_here.
Qed.

Lemma filter_prior_chain_mapM {A} (d : gmap string A)
    (l : list (string * PriorTransforms.PriorTransform)) :
  match result_mapM
          (fun np : string * PriorTransforms.PriorTransform =>
             match d !! np.1 with
             | Some v => Ok (np.1, v)
             | None => Raise (KeyError np.1)
             end) l with
  | Ok kvs => Forall2 (fun np kv => kv.1 = np.1 /\ d !! np.1 = Some kv.2) l kvs
  | Raise e => exists np, np ∈ l /\ e = KeyError np.1 /\ d !! np.1 = None
  end.
Proof.
  induction l as [|np l IH]; simpl; [constructor|].
  destruct (d !! np.1) as [v|] eqn:Hv; simpl.
  - destruct (result_mapM _ l) as [kvs|e]; simpl.
    + constructor; [split; [reflexivity | exact Hv] | exact IH].
    + destruct IH as (np' & Hin & He & Hn). exists np'.
      split; [right; exact Hin | split; assumption].
  - exists np. split; [left | split; [reflexivity | exact Hv]].
Qed.

(** What [_filter_prior_chain] returns, and when it raises. *)
Lemma filter_prior_chain_spec {A} (self : NestedSampler Val)
    (d : gmap string A) :
  match _filter_prior_chain self d with
  | Ok r =>
      (forall k, tracked_name self k -> is_Some (d !! k))
      /\ forall k v, r !! k = Some v <-> (tracked_name self k /\ d !! k = Some v)
  | Raise e =>
      exists k, e = KeyError k /\ tracked_name self k /\ d !! k = None
  end.
Proof.
  unfold _filter_prior_chain.
  pose proof (filter_prior_chain_mapM d
                (filter (fun np => PriorTransforms.tracked np.2 = true)
                   (pc_prior_chain (prior_chain self)))) as Hm.
  destruct (result_mapM _ _) as [kvs|e]; simpl.
  - assert (Hback : forall k v, (k, v) ∈ kvs ->
                      tracked_name self k /\ d !! k = Some v).
    { intros k v Hin. apply list_elem_of_lookup in Hin as (j & Hj).
      destruct (Forall2_lookup_r _ _ _ _ _ Hm Hj) as (np & Hnp & Hk & Hd).
      simpl in Hk, Hd. subst k. split; [|exact Hd].
      apply list_elem_of_lookup_2 in Hnp.
      apply list_elem_of_filter in Hnp as (Ht & Hin).
      exists np.2. destruct np; simpl in *. split; assumption. }
    assert (Hforth : forall k, tracked_name self k ->
                       exists v, (k, v) ∈ kvs /\ d !! k = Some v).
    { intros k (prior & Hin & Ht).
      assert (Hf : (k, prior) ∈ filter
                     (fun np : string * PriorTransforms.PriorTransform =>
                        PriorTransforms.tracked np.2 = true)
                     (pc_prior_chain (prior_chain self))).
      { apply list_elem_of_filter. split; assumption. }
      apply list_elem_of_lookup in Hf as (j & Hj).
      destruct (Forall2_lookup_l _ _ _ _ _ Hm Hj) as ([k' v'] & Hkv & Hk & Hd).
      simpl in Hk, Hd. subst k'. exists v'. split; [|exact Hd].
      eapply list_elem_of_lookup_2. exact Hkv. }
    split.
    + intros k Ht. destruct (Hforth _ Ht) as (v & _ & Hv). eauto.
    + intros k v. split.
      * intros Hr. apply elem_of_list_to_map_2 in Hr. apply Hback. exact Hr.
      * intros (Ht & Hd). destruct (Hforth _ Ht) as (v' & Hin & Hv').
        destruct (list_to_map kvs !! k) as [v''|] eqn:Hl.
        -- apply elem_of_list_to_map_2 in Hl. apply Hback in Hl as (_ & Hl).
           congruence.
        -- apply not_elem_of_list_to_map in Hl. exfalso. apply Hl.
           apply list_elem_of_fmap. exists (k, v'). split; [reflexivity|].
           exact Hin.
  - destruct Hm as (np & Hin & -> & Hd). exists np.1.
    split; [reflexivity|]. split; [|exact Hd].
    apply list_elem_of_filter in Hin as (Ht & Hin).
    exists np.2. destruct np; simpl in *. split; assumption.
Qed.

(** X2: [_filter_prior_chain] returns exactly when the dictionary has every
    name of a tracked prior, and then keeps exactly the entries of those
    names; otherwise it raises the [KeyError] of a tracked name the
    dictionary lacks. *)
Theorem filter_prior_chain_keeps_the_tracked_names :
  forall {A} (self : NestedSampler Val) (d : gmap string A),
    (is_Ok (_filter_prior_chain self d) = true
     <-> forall k, tracked_name self k -> is_Some (d !! k))
    /\ (forall r, _filter_prior_chain self d = Ok r ->
          forall k v, r !! k = Some v
                      <-> (tracked_name self k /\ d !! k = Some v))
    /\ (forall e, _filter_prior_chain self d = Raise e ->
          exists k, e = KeyError k /\ tracked_name self k /\ d !! k = None).
Proof.
  intros A self d. pose proof (filter_prior_chain_spec self d) as Hs.
  destruct (_filter_prior_chain self d) as [r|e]; simpl.
  - destruct Hs as (Hall & Hlook). split; [|split].
    + split; [intros _; exact Hall | reflexivity].
    + intros r' Hr'. inversion Hr'. subst r'. exact Hlook.
    + discriminate.
  - destruct Hs as (k & -> & Ht & Hd). split; [|split].
    + split; [discriminate|]. intros Hall.
      destruct (Hall _ Ht) as (v & Hv). congruence.
    + discriminate.
    + intros e' He'. inversion He'. subst e'. eauto.
Qed.

Lemma stack_dicts_lookup (structure : gmap string (list nat))
    (ds : list (gmap string Val)) k col :
  stack_dicts structure ds !! k = Some col ->
  is_Some (structure !! k)
  /\ length col = length ds
  /\ forall j d, ds !! j = Some d ->
       exists v, d !! k = Some v /\ col !! j = Some v.
Proof.
  revert col. induction ds as [|d ds IH]; intros col; simpl.
  - rewrite lookup_fmap. destruct (structure !! k) eqn:E; simpl; [|discriminate].
    intros Hc. inversion Hc. split; [eauto|]. split; [reflexivity|].
    intros j d' Hj. destruct j; discriminate.
  - intros Hc. apply map_lookup_zip_with_Some in Hc as (x & col0 & -> & Hx & Hc).
    destruct (IH _ Hc) as (Hs & Hl & Hrows). split; [exact Hs|].
    split; [simpl; lia|]. intros [|j] d' Hj; simpl in Hj.
    + inversion Hj. subst d'. exists x. split; [exact Hx | reflexivity].
    + apply Hrows. exact Hj.
Qed.

Lemma stack_dicts_is_Some (structure : gmap string (list nat))
    (ds : list (gmap string Val)) k :
  is_Some (structure !! k) ->
  Forall (fun d => is_Some (d !! k)) ds ->
  is_Some (stack_dicts structure ds !! k).
Proof.
  intros (sh & Hsh). induction 1 as [|d ds (x & Hx) _ (col & Hcol)]; simpl.
  - rewrite lookup_fmap, Hsh. simpl. eauto.
  - exists (x :: col). apply map_lookup_zip_with_Some. eauto.
Qed.

(** The fields [initial_state] sets beside the live set. *)
Lemma initial_state_buffers (self : NestedSampler Val) (k0 : Key) (N ms : Z)
    (cs om : bool) (kw : gmap string Z) (s0 : State) :
  initial_state self k0 N ms cs om kw = Ok s0 ->
  num_likelihood_evaluations s0 = N
  /\ (if om then
        log_X s0 = None /\ log_w s0 = None /\ log_L_dead s0 = None
        /\ sampler_efficiency s0 = None /\ dead_points s0 = None
      else
        0 <= ms
        /\ log_X s0 = Some (replicate (Z.to_nat ms) F64.ninf)
        /\ log_w s0 = Some (replicate (Z.to_nat ms) F64.ninf)
        /\ log_L_dead s0 = Some (replicate (Z.to_nat ms) 0%float)
        /\ sampler_efficiency s0 = Some (replicate (Z.to_nat ms) 1%float)
        /\ (if cs then
              exists shapes dp,
                _filter_prior_chain self (pc_to_shapes (prior_chain self))
                = Ok shapes
                /\ dict_multimap (fun shape => full ms (zeros shape)) shapes
                   = Ok dp
                /\ dead_points s0 = Some dp
            else dead_points s0 = None)).
Proof.
  unfold initial_state. intros H'.
  apply bind_Ok in H' as ([k1 init_key] & Hsplit & H').
  apply bind_Ok in H' as (keys & Hkeys & H').
  apply bind_Ok in H' as (batch & Hbatch & H').
  apply bind_Ok in H' as (dp & Hdp & H').
  apply bind_Ok in H' as (bL & HbL & H').
  apply bind_Ok in H' as (be & Hbe & H').
  apply bind_Ok in H' as (bX & HbX & H').
  apply bind_Ok in H' as (bw & Hbw & H').
  apply bind_Ok in H' as ([k2 ss] & Hss & H').
  inversion H'. subst s0. clear H'. simpl. split; [reflexivity|].
  destruct om; simpl in *.
  - inversion Hdp. inversion HbL. inversion Hbe. inversion HbX. inversion Hbw.
    repeat split; reflexivity.
  - apply fmap_Ok in HbL as (b1 & Hb1 & ->).
    apply fmap_Ok in Hbe as (b2 & Hb2 & ->).
    apply fmap_Ok in HbX as (b3 & Hb3 & ->).
    apply fmap_Ok in Hbw as (b4 & Hb4 & ->).
    unfold full in *. destruct (Z.ltb_spec ms 0); [discriminate|].
    inversion Hb1. inversion Hb2. inversion Hb3. inversion Hb4.
    split; [assumption|]. do 4 (split; [reflexivity|]).
    destruct cs.
    + apply bind_Ok in Hdp as (shapes & Hshapes & Hdp).
      apply fmap_Ok in Hdp as (dp' & Hdp' & ->).
      exists shapes, dp'. repeat split; assumption.
    + inversion Hdp. reflexivity.
Qed.

(** The shape of the state [initial_state] returns. *)
Lemma initial_state_shape :
  forall (self : NestedSampler Val) (k0 : Key) (N ms : Z) (cs om : bool)
         (kw : gmap string Z) (s0 : State),
    (forall k m, length (random_split k m) = m) ->
    (forall k m, length (random_uniform k m) = m) ->
    initial_state self k0 N ms cs om kw = Ok s0 ->
    (0 <= N /\ i s0 = 0 /\ num_dead s0 = 0 /\ done s0 = false
     /\ status s0 = 0 /\ num_likelihood_evaluations s0 = N)
    /\ (length (log_L_live s0) = Z.to_nat N
        /\ length (live_points_U s0) = Z.to_nat N
        /\ Forall (fun row => length row = pc_U_ndims (prior_chain self))
             (live_points_U s0)
        /\ forall k col, live_points s0 !! k = Some col ->
             length col = Z.to_nat N
             /\ is_Some (pc_to_shapes (prior_chain self) !! k))
    /\ (om = true ->
        log_X s0 = None /\ log_w s0 = None /\ log_L_dead s0 = None
        /\ sampler_efficiency s0 = None /\ dead_points s0 = None)
    /\ (om = false ->
        0 <= ms
        /\ log_X s0 = Some (replicate (Z.to_nat ms) F64.ninf)
        /\ log_w s0 = Some (replicate (Z.to_nat ms) F64.ninf)
        /\ log_L_dead s0 = Some (replicate (Z.to_nat ms) 0%float)
        /\ sampler_efficiency s0 = Some (replicate (Z.to_nat ms) 1%float)
        /\ (cs = false -> dead_points s0 = None)
        /\ (cs = true ->
            exists dp, dead_points s0 = Some dp
              /\ forall k col, dp !! k = Some col <->
                   (tracked_name self k
                    /\ exists shape,
                         pc_to_shapes (prior_chain self) !! k = Some shape
                         /\ col = replicate (Z.to_nat ms) (zeros shape)))).
Proof.
  intros self k0 N ms cs om kw s0 Hsplit Huniform Hinit.
  pose proof (initial_state_buffers _ _ _ _ _ _ _ _ Hinit) as (Hnle & Hbuf).
  pose proof (initial_state_inv _ _ _ _ _ _ _ _ Hinit)
    as (Hd & Hi & Hnd & Hst & HN
        & (k1 & ik & batch & _ & Hb & HL & HU & Hp) & _).
  pose proof (result_mapM_Ok _ _ _ Hb) as Hb2.
  assert (Hlen : length batch = Z.to_nat N).
  { rewrite <- (Forall2_length _ _ _ Hb2). apply Hsplit. }
  split; [repeat split; assumption|]. split.
  { split; [rewrite HL, length_fmap; exact Hlen|].
    split; [rewrite HU, !length_fmap; exact Hlen|]. split.
    - rewrite HU. clear -Hb2 Huniform.
      induction Hb2 as [|kx [[U c] v] keys batch Hs _ IH]; simpl;
        constructor; [|exact IH].
      unfold single_sample in Hs. apply bind_Ok in Hs as (v' & _ & Hs).
      inversion Hs. simpl. apply Huniform.
    - intros k col Hk. rewrite Hp in Hk.
      apply stack_dicts_lookup in Hk as (Hs & Hl & _).
      split; [|exact Hs]. rewrite Hl, !length_fmap. exact Hlen. }
  split.
  { intros ->. exact Hbuf. }
  intros ->. destruct Hbuf as (Hms & HX & Hw & HLd & He & Hdp).
  do 5 (split; [assumption|]). split.
  - intros ->. exact Hdp.
  - intros ->. destruct Hdp as (shapes & dp & Hshapes & Hdp & Hdead).
    exists dp. split; [exact Hdead|]. intros k col.
    pose proof (filter_prior_chain_spec self (pc_to_shapes (prior_chain self)))
      as Hspec.
    rewrite Hshapes in Hspec. destruct Hspec as (_ & Hspec).
    pose proof (imapM_Ok _ _ _ Hdp k) as Hk.
    destruct (shapes !! k) as [shape|] eqn:Hsh.
    + destruct Hk as (col' & Hfull & Hlook). unfold full in Hfull.
      destruct (Z.ltb_spec ms 0); [lia|]. inversion Hfull. subst col'.
      apply Hspec in Hsh as (Ht & Hsh). rewrite Hlook. split.
      * intros Hc. inversion Hc. split; [exact Ht|]. eauto.
      * intros (_ & shape' & Hsh' & ->). rewrite Hsh in Hsh'.
        inversion Hsh'. reflexivity.
    + rewrite Hk. split; [discriminate|].
      intros (Ht & shape & Hsh' & _).
      assert (shapes !! k = Some shape) by (apply Hspec; split; assumption).
      congruence.
Qed.

(** X3: what [initial_state] builds. The counters start at zero and the
    evaluation count at [num_live_points]; the live set has exactly
    [num_live_points] entries, each point of the width of the unit cube and
    each column under a name of [to_shapes]; under [only_marginalise] no
    buffer is allocated, otherwise the four bookkeeping buffers have
    [max_samples] entries with their initial values, and the dead points are
    allocated, as [max_samples] rows of zeros per tracked prior, only under
    [collect_samples]. *)
Theorem initial_state_allocates_by_the_flags :
  forall (self : NestedSampler Val) (k0 : Key) (N ms : Z) (cs om : bool)
         (kw : gmap string Z) (s0 : State),
    (forall k m, length (random_split k m) = m) ->
    (forall k m, length (random_uniform k m) = m) ->
    initial_state self k0 N ms cs om kw = Ok s0 ->
    (0 <= N /\ i s0 = 0 /\ num_dead s0 = 0 /\ done s0 = false
     /\ status s0 = 0 /\ num_likelihood_evaluations s0 = N)
    /\ (length (log_L_live s0) = Z.to_nat N
        /\ length (live_points_U s0) = Z.to_nat N
        /\ Forall (fun row => length row = pc_U_ndims (prior_chain self))
             (live_points_U s0)
        /\ forall k col, live_points s0 !! k = Some col ->
             length col = Z.to_nat N
             /\ is_Some (pc_to_shapes (prior_chain self) !! k))
    /\ (om = true ->
        log_X s0 = None /\ log_w s0 = None /\ log_L_dead s0 = None
        /\ sampler_efficiency s0 = None /\ dead_points s0 = None)
    /\ (om = false ->
        0 <= ms
        /\ log_X s0 = Some (replicate (Z.to_nat ms) F64.ninf)
        /\ log_w s0 = Some (replicate (Z.to_nat ms) F64.ninf)
        /\ log_L_dead s0 = Some (replicate (Z.to_nat ms) 0%float)
        /\ sampler_efficiency s0 = Some (replicate (Z.to_nat ms) 1%float)
        /\ (cs = false -> dead_points s0 = None)
        /\ (cs = true ->
            exists dp, dead_points s0 = Some dp
              /\ forall k col, dp !! k = Some col <->
                   (tracked_name self k
                    /\ exists shape,
                         pc_to_shapes (prior_chain self) !! k = Some shape
                         /\ col = replicate (Z.to_nat ms) (zeros shape)))).
Proof.
  intros self k0 N ms cs om kw s0 Hsplit Huniform Hinit.
  exact (initial_state_shape self k0 N ms cs om kw s0 Hsplit Huniform Hinit).
Qed.

(** X4: the live log-likelihoods [initial_state] computes through a sampler
    built by [__init__] are numbers: none is NaN, and each is at least
    negative infinity in the order of binary64. *)
Theorem initial_live_log_likelihoods_are_numbers :
  forall (L : gmap string Val -> ndarray) (pc : PriorChain Val)
         (name : string) (marg : gmap string (marginal Val))
         (self : NestedSampler Val) (k0 : Key) (N ms : Z) (cs om : bool)
         (kw : gmap string Z) (s0 : State),
    __init__ L pc name marg = Ok self ->
    initial_state self k0 N ms cs om kw = Ok s0 ->
    Forall (fun x => F64.is_nan x = false /\ F64.le F64.ninf x = true)
      (log_L_live s0).
Proof.
  intros L pc name marg self k0 N ms cs om kw s0 Hself Hinit.
  apply init_loglikelihood in Hself as (HL & _).
  pose proof (initial_live_not_nan L self _ _ _ _ _ _ _ HL Hinit) as Hn.
  eapply Forall_impl; [exact Hn|]. simpl. intros x Hx.
  split; [exact Hx | apply le_ninf; exact Hx].
Qed.

(** What [_one_step] does to the bookkeeping buffers and the counters. *)
Lemma one_step_buffers_inv (self : NestedSampler Val) (s s' : State)
    (cs om : bool) (kw : gmap string Z) :
  _one_step self s cs om kw = Ok s' ->
  exists i_min dead_point log_L_min sr,
    next_dead_point s = Ok (i_min, dead_point, log_L_min)
    /\ call_sampler self s kw i_min log_L_min
         (te_update (marginalised self) (tracked_expectations_state s)
            dead_point (length (log_L_live s)) log_L_min) = Ok sr
    /\ num_likelihood_evaluations s'
       = wrap64 (num_likelihood_evaluations s
                 + sr_num_likelihood_evaluations sr)
    /\ key s' = sr_key sr
    /\ sampler_state s' = sr_sampler_state sr
    /\ (if om then
          log_X s' = log_X s /\ log_w s' = log_w s
          /\ log_L_dead s' = log_L_dead s
          /\ sampler_efficiency s' = sampler_efficiency s
          /\ dead_points s' = dead_points s
        else
          exists bX bw bL be bX' bw' bL' be',
            log_X s = Some bX /\ log_w s = Some bw
            /\ log_L_dead s = Some bL /\ sampler_efficiency s = Some be
            /\ dynamic_update_slice bX
                 [te_X_log_value
                    (te_update (marginalised self)
                       (tracked_expectations_state s) dead_point
                       (length (log_L_live s)) log_L_min)] (num_dead s)
               = Ok bX'
            /\ dynamic_update_slice bw
                 [te_dw_log_value
                    (te_update (marginalised self)
                       (tracked_expectations_state s) dead_point
                       (length (log_L_live s)) log_L_min)] (num_dead s)
               = Ok bw'
            /\ dynamic_update_slice bL [log_L_min] (num_dead s) = Ok bL'
            /\ dynamic_update_slice be
                 [(1 / float_of_int (sr_num_likelihood_evaluations sr))%float]
                 (num_dead s) = Ok be'
            /\ log_X s' = Some bX' /\ log_w s' = Some bw'
            /\ log_L_dead s' = Some bL' /\ sampler_efficiency s' = Some be'
            /\ (if cs then
                  exists bd bd',
                    dead_points s = Some bd
                    /\ dict_multimap2
                         (fun x y => dynamic_update_slice x [astype_like x y]
                                       (num_dead s)) bd dead_point = Ok bd'
                    /\ dead_points s' = Some bd'
                else dead_points s' = dead_points s)).
Proof.
  unfold _one_step. intros H'.
  apply bind_Ok in H' as ([[i_min dead_point] log_L_min] & Hnext & H').
  apply bind_Ok in H' as (s1 & Hs1 & H').
  apply bind_Ok in H' as (sr & Hsr & H').
  apply bind_Ok in H' as (lL & HlL & H').
  apply bind_Ok in H' as (lp & Hlp & H').
  apply bind_Ok in H' as (lU & HlU & H').
  apply bind_Ok in H' as (s2 & Hs2 & H').
  inversion H'; subst s'; clear H'. simpl.
  exists i_min, dead_point, log_L_min, sr.
  split; [exact Hnext|].
  destruct om; simpl in Hs1, Hs2.
  - inversion Hs1. subst s1. inversion Hs2. subst s2.
    repeat split; try reflexivity. exact Hsr.
  - apply bind_Ok in Hs1 as (bX & HbX & Hs1).
    apply bind_Ok in Hs1 as (bX' & HbX' & Hs1).
    apply bind_Ok in Hs1 as (bw & Hbw & Hs1).
    apply bind_Ok in Hs1 as (bw' & Hbw' & Hs1).
    apply bind_Ok in Hs1 as (bL & HbL & Hs1).
    apply bind_Ok in Hs1 as (bL' & HbL' & Hs1).
    apply bind_Ok in Hs2 as (be & Hbe & Hs2).
    apply bind_Ok in Hs2 as (be' & Hbe' & Hs2).
    inversion Hs2. subst s2. clear Hs2. simpl.
    assert (HX : log_X s = Some bX)
      by (destruct (log_X s); inversion HbX; reflexivity).
    assert (Hw : log_w s = Some bw)
      by (destruct (log_w s); inversion Hbw; reflexivity).
    assert (HL : log_L_dead s = Some bL)
      by (destruct (log_L_dead s); inversion HbL; reflexivity).
    destruct cs.
    + apply bind_Ok in Hs1 as (bd & Hbd & Hs1).
      apply bind_Ok in Hs1 as (bd' & Hbd' & Hs1).
      inversion Hs1. subst s1. clear Hs1. simpl in *.
      assert (Hd : dead_points s = Some bd)
        by (destruct (dead_points s); inversion Hbd; reflexivity).
      assert (He : sampler_efficiency s = Some be)
        by (destruct (sampler_efficiency s); inversion Hbe; reflexivity).
      split; [exact Hsr|]. do 3 (split; [reflexivity|]).
      exists bX, bw, bL, be, bX', bw', bL', be'.
      do 8 (split; [assumption|]). do 4 (split; [reflexivity|]).
      exists bd, bd'. repeat split; assumption.
    + inversion Hs1. subst s1. clear Hs1. simpl in *.
      assert (He : sampler_efficiency s = Some be)
        by (destruct (sampler_efficiency s); inversion Hbe; reflexivity).
      split; [exact Hsr|]. do 3 (split; [reflexivity|]).
      exists bX, bw, bL, be, bX', bw', bL', be'.
      do 8 (split; [assumption|]). do 4 (split; [reflexivity|]).
      reflexivity.
Qed.

Lemma next_dead_point_inv (s : State) i_min dead_point log_L_min :
  next_dead_point s = Ok (i_min, dead_point, log_L_min) ->
  argmin (log_L_live s) = Ok i_min
  /\ log_L_live s !! i_min = Some log_L_min
  /\ dict_multimap (fun x => getitem x i_min) (live_points s) = Ok dead_point.
Proof.
  unfold next_dead_point. intros H'.
  apply bind_Ok in H' as (i0 & Hargmin & H').
  apply bind_Ok in H' as (dp0 & Hdp & H').
  apply bind_Ok in H' as (L0 & HL0 & H'). inversion H'. subst i0 dp0 L0.
  split; [exact Hargmin|]. split; [|exact Hdp].
  apply getitem_Ok; [|exact HL0]. apply argmin_lt_length. exact Hargmin.
Qed.

(** The buffers after one step that finds room at index [num_dead]. *)
Lemma one_step_buffers_insert (self : NestedSampler Val) (s s' : State)
    (cs : bool) (kw : gmap string Z) (m : nat) :
  live_wf s -> buffers_wf cs false m s ->
  0 <= num_dead s -> (Z.to_nat (num_dead s) < m)%nat ->
  _one_step self s cs false kw = Ok s' ->
  exists i_min dead_point log_L_min sr bX bw bL be,
    next_dead_point s = Ok (i_min, dead_point, log_L_min)
    /\ call_sampler self s kw i_min log_L_min
         (te_update (marginalised self) (tracked_expectations_state s)
            dead_point (length (log_L_live s)) log_L_min) = Ok sr
    /\ log_X s = Some bX /\ log_w s = Some bw
    /\ log_L_dead s = Some bL /\ sampler_efficiency s = Some be
    /\ log_X s'
       = Some (<[Z.to_nat (num_dead s) :=
                  te_X_log_value
                    (te_update (marginalised self)
                       (tracked_expectations_state s) dead_point
                       (length (log_L_live s)) log_L_min)]> bX)
    /\ log_w s'
       = Some (<[Z.to_nat (num_dead s) :=
                  te_dw_log_value
                    (te_update (marginalised self)
                       (tracked_expectations_state s) dead_point
                       (length (log_L_live s)) log_L_min)]> bw)
    /\ log_L_dead s' = Some (<[Z.to_nat (num_dead s) := log_L_min]> bL)
    /\ sampler_efficiency s'
       = Some (<[Z.to_nat (num_dead s) :=
                  (1 / float_of_int (sr_num_likelihood_evaluations sr))%float]>
                 be)
    /\ (if cs then
          exists bd bd',
            dead_points s = Some bd /\ dead_points s' = Some bd'
            /\ forall name,
                 match bd !! name with
                 | Some col =>
                     exists y, dead_point !! name = Some y
                       /\ bd' !! name
                          = Some (<[Z.to_nat (num_dead s) :=
                                     astype_like col y]> col)
                 | None => bd' !! name = None
                 end
        else dead_points s' = None)
    /\ buffers_wf cs false m s'.
Proof.
  intros Hwf (Hbufs & Hdead) Hnd Hk Hstep.
  destruct Hbufs as (bX & bw & bL & be & HX & Hw & HL & He
                     & HlX & Hlw & HlL & Hle).
  destruct (one_step_buffers_inv _ _ _ _ _ _ Hstep)
    as (i_min & dp & Lm & sr & Hnext & Hsr & _ & _ & _
        & (bX0 & bw0 & bL0 & be0 & bX' & bw' & bL' & be'
           & HX0 & Hw0 & HL0 & He0 & HdX & Hdw & HdL & Hde
           & HX' & Hw' & HL' & He' & Hdp)).
  rewrite HX in HX0. rewrite Hw in Hw0. rewrite HL in HL0. rewrite He in He0.
  inversion HX0. inversion Hw0. inversion HL0. inversion He0.
  subst bX0 bw0 bL0 be0.
  assert (Hat : forall (b b' : list float) v, length b = m ->
            dynamic_update_slice b [v] (num_dead s) = Ok b' ->
            b' = <[Z.to_nat (num_dead s) := v]> b).
  { intros b b' v Hlen Hd.
    rewrite <- (Z2Nat.id (num_dead s)) in Hd by exact Hnd.
    apply dynamic_update_slice_one_at in Hd; [exact Hd | lia]. }
  apply Hat in HdX, Hdw, HdL, Hde; try assumption. subst bX' bw' bL' be'.
  destruct (one_step_frame _ _ _ _ _ _ Hwf Hstep)
    as (i' & dp' & Lm' & sr' & Hnext' & _ & _ & _ & Hframe).
  exists i_min, dp, Lm, sr, bX, bw, bL, be.
  do 10 (split; [assumption|]).
  destruct cs.
  - destruct Hdead as (bd & Hbd & Hcols).
    destruct Hdp as (bd0 & bd' & Hbd0 & Hmm & Hbd').
    rewrite Hbd in Hbd0. inversion Hbd0. subst bd0.
    assert (Hrow : forall name,
              match bd !! name with
              | Some col =>
                  exists y, dp !! name = Some y
                    /\ bd' !! name
                       = Some (<[Z.to_nat (num_dead s) := astype_like col y]>
                                 col)
              | None => bd' !! name = None
              end).
    { intros name. pose proof (imapM_Ok _ _ _ Hmm name) as Hn.
      destruct (bd !! name) as [col|] eqn:Hcol; [|exact Hn].
      destruct Hn as (col' & Hcol' & Hlook).
      destruct (dp !! name) as [y|]; [|discriminate].
      exists y. split; [reflexivity|]. rewrite Hlook. f_equal.
      rewrite <- (Z2Nat.id (num_dead s)) in Hcol' by exact Hnd.
      apply dynamic_update_slice_one_at in Hcol'; [exact Hcol'|].
      destruct (Hcols _ _ Hcol) as (Hl & _). lia. }
    split.
    + exists bd, bd'. repeat split; assumption.
    + split.
      * exists (<[Z.to_nat (num_dead s) :=
                   te_X_log_value
                     (te_update (marginalised self)
                        (tracked_expectations_state s) dp
                        (length (log_L_live s)) Lm)]> bX),
          (<[Z.to_nat (num_dead s) :=
              te_dw_log_value
                (te_update (marginalised self)
                   (tracked_expectations_state s) dp
                   (length (log_L_live s)) Lm)]> bw),
          (<[Z.to_nat (num_dead s) := Lm]> bL),
          (<[Z.to_nat (num_dead s) :=
              (1 / float_of_int (sr_num_likelihood_evaluations sr))%float]> be).
        rewrite !length_insert. repeat split; assumption.
      * exists bd'. split; [exact Hbd'|]. intros name col' Hc.
        pose proof (Hrow name) as Hn.
        destruct (bd !! name) as [col|] eqn:Hcol; [|congruence].
        destruct Hn as (y & _ & Hlook). rewrite Hlook in Hc. inversion Hc.
        destruct (Hcols _ _ Hcol) as (Hl & (lc & Hlive)).
        split; [rewrite length_insert; exact Hl|].
        destruct Hframe as (_ & _ & _ & Hsome).
        destruct (Hsome _ _ Hlive) as (y' & _ & Hl'). eauto.
  - rewrite Hdead in Hdp. split; [exact Hdp|]. split.
    + exists (<[Z.to_nat (num_dead s) :=
                 te_X_log_value
                   (te_update (marginalised self)
                      (tracked_expectations_state s) dp
                      (length (log_L_live s)) Lm)]> bX),
        (<[Z.to_nat (num_dead s) :=
            te_dw_log_value
              (te_update (marginalised self)
                 (tracked_expectations_state s) dp
                 (length (log_L_live s)) Lm)]> bw),
        (<[Z.to_nat (num_dead s) := Lm]> bL),
        (<[Z.to_nat (num_dead s) :=
            (1 / float_of_int (sr_num_likelihood_evaluations sr))%float]> be).
      rewrite !length_insert. repeat split; assumption.
    + exact Hdp.
Qed.

(** X5: a step that keeps the buffers and finds room in them records the
    eliminated point at index [num_dead] of each buffer -- the log-volume
    and the log-weight of the tracker, the eliminated log-likelihood, the
    efficiency 1 / evaluations of the sampler, and under [collect_samples]
    the eliminated value of every tracked prior -- and changes no other
    entry; the buffers keep their length. *)
Theorem one_step_records_at_num_dead :
  forall (self : NestedSampler Val) (s s' : State) (cs : bool)
         (kw : gmap string Z) (m : nat),
    live_wf s -> buffers_wf cs false m s ->
    0 <= num_dead s -> (Z.to_nat (num_dead s) < m)%nat ->
    _one_step self s cs false kw = Ok s' ->
    buffers_wf cs false m s'
    /\ num_dead s' = wrap64 (num_dead s + 1)
    /\ exists i_min dead_point log_L_min sr te',
         next_dead_point s = Ok (i_min, dead_point, log_L_min)
         /\ te' = te_update (marginalised self) (tracked_expectations_state s)
                    dead_point (length (log_L_live s)) log_L_min
         /\ call_sampler self s kw i_min log_L_min te' = Ok sr
         /\ tracked_expectations_state s' = te'
         /\ (forall bX bX', log_X s = Some bX -> log_X s' = Some bX' ->
               bX' !! Z.to_nat (num_dead s) = Some (te_X_log_value te')
               /\ forall j, j <> Z.to_nat (num_dead s) -> bX' !! j = bX !! j)
         /\ (forall bw bw', log_w s = Some bw -> log_w s' = Some bw' ->
               bw' !! Z.to_nat (num_dead s) = Some (te_dw_log_value te')
               /\ forall j, j <> Z.to_nat (num_dead s) -> bw' !! j = bw !! j)
         /\ (forall bL bL', log_L_dead s = Some bL -> log_L_dead s' = Some bL' ->
               bL' !! Z.to_nat (num_dead s) = Some log_L_min
               /\ forall j, j <> Z.to_nat (num_dead s) -> bL' !! j = bL !! j)
         /\ (forall be be', sampler_efficiency s = Some be ->
               sampler_efficiency s' = Some be' ->
               be' !! Z.to_nat (num_dead s)
               = Some (1 / float_of_int
                             (sr_num_likelihood_evaluations sr))%float
               /\ forall j, j <> Z.to_nat (num_dead s) -> be' !! j = be !! j)
         /\ (forall bd bd' name col col',
               dead_points s = Some bd -> dead_points s' = Some bd' ->
               bd !! name = Some col -> bd' !! name = Some col' ->
               (exists y, dead_point !! name = Some y
                  /\ col' !! Z.to_nat (num_dead s) = Some (astype_like col y))
               /\ forall j, j <> Z.to_nat (num_dead s) -> col' !! j = col !! j).
Proof.
  intros self s s' cs kw m Hwf Hbuf Hnd Hk Hstep.
  destruct (one_step_buffers_insert _ _ _ _ _ _ Hwf Hbuf Hnd Hk Hstep)
    as (i_min & dp & Lm & sr & bX & bw & bL & be & Hnext & Hsr
        & HX & Hw & HL & He & HX' & Hw' & HL' & He' & Hdp & Hbuf').
  destruct (one_step_inv _ _ _ _ _ _ Hstep)
    as (i' & dp' & Lm' & sr' & Hnext' & _ & _ & _ & _ & _ & _ & _ & Hnd'
        & Hte & _).
  rewrite Hnext in Hnext'. inversion Hnext'. subst i' dp' Lm'.
  destruct Hbuf as ((bX0 & bw0 & bL0 & be0 & HX0 & Hw0 & HL0 & He0
                     & HlX & Hlw & HlL & Hle) & Hdead).
  rewrite HX in HX0. rewrite Hw in Hw0. rewrite HL in HL0. rewrite He in He0.
  inversion HX0. inversion Hw0. inversion HL0. inversion He0.
  subst bX0 bw0 bL0 be0.
  split; [exact Hbuf'|]. split; [exact Hnd'|].
  exists i_min, dp, Lm, sr,
    (te_update (marginalised self) (tracked_expectations_state s) dp
       (length (log_L_live s)) Lm).
  split; [exact Hnext|].
  split; [reflexivity|]. split; [exact Hsr|]. split; [exact Hte|].
  assert (Hins : forall (b b0 b' : list float) v,
            length b = m -> Some b = Some b0 ->
            Some (<[Z.to_nat (num_dead s) := v]> b) = Some b' ->
            b' !! Z.to_nat (num_dead s) = Some v
            /\ forall j, j <> Z.to_nat (num_dead s) -> b' !! j = b0 !! j).
  { intros b b0 b' v Hl Hb0 Hb'. inversion Hb0. inversion Hb'. subst. split.
    - apply list_lookup_insert_eq. lia.
    - intros j Hj. apply list_lookup_insert_ne. congruence. }
  split.
  { intros b0 b' H0 H'. rewrite HX in H0. rewrite HX' in H'.
    exact (Hins _ _ _ _ HlX H0 H'). }
  split.
  { intros b0 b' H0 H'. rewrite Hw in H0. rewrite Hw' in H'.
    exact (Hins _ _ _ _ Hlw H0 H'). }
  split.
  { intros b0 b' H0 H'. rewrite HL in H0. rewrite HL' in H'.
    exact (Hins _ _ _ _ HlL H0 H'). }
  split.
  { intros b0 b' H0 H'. rewrite He in H0. rewrite He' in H'.
    exact (Hins _ _ _ _ Hle H0 H'). }
  intros bd bd' name col col' Hbd Hbd' Hcol Hcol'.
  destruct cs.
  - destruct Hdp as (bd0 & bd0' & Hb0 & Hb0' & Hrow).
    rewrite Hbd in Hb0. rewrite Hbd' in Hb0'. inversion Hb0. inversion Hb0'.
    subst bd0 bd0'. pose proof (Hrow name) as Hn. rewrite Hcol in Hn.
    destruct Hn as (y & Hy & Hlook). rewrite Hcol' in Hlook.
    inversion Hlook. destruct Hdead as (bd1 & Hbd1 & Hcols).
    rewrite Hbd in Hbd1. inversion Hbd1. subst bd1.
    destruct (Hcols _ _ Hcol) as (Hl & _). split.
    + exists y. split; [exact Hy|]. apply list_lookup_insert_eq. lia.
    + intros j Hj. apply list_lookup_insert_ne. congruence.
  - rewrite Hdp in Hbd'. discriminate.
Qed.

(** The two diagnostic buffers along the iterations of the loop. *)
Lemma dead_buffers_along (self : NestedSampler Val) (k0 : Key) (N ms : Z)
    (cs : bool) (kw : gmap string Z) (tf : float) (s0 : State) :
  initial_state self k0 N ms cs false kw = Ok s0 ->
  ms < 2 ^ 63 ->
  forall n s,
    iterate n (body self cs false kw tf ms) s0 = Ok s ->
    Z.of_nat n <= ms ->
    exists bL bX,
      log_L_dead s = Some bL /\ log_X s = Some bX
      /\ length bL = Z.to_nat ms /\ length bX = Z.to_nat ms
      /\ (forall j s_j i_min m,
            (j < n)%nat ->
            iterate j (body self cs false kw tf ms) s0 = Ok s_j ->
            argmin (log_L_live s_j) = Ok i_min ->
            log_L_live s_j !! i_min = Some m ->
            bL !! j = Some m)
      /\ (forall j s_j1,
            (j < n)%nat ->
            iterate (Datatypes.S j) (body self cs false kw tf ms) s0
            = Ok s_j1 ->
            bX !! j = Some (te_X_log_value (tracked_expectations_state s_j1)))
      /\ (forall j, (n <= j < Z.to_nat ms)%nat ->
            bL !! j = Some 0%float /\ bX !! j = Some F64.ninf).
Proof.
  intros Hinit Hms n. induction n as [|n IH]; intros s Hn Hle.
  - inversion Hn. subst s.
    pose proof (initial_state_buffers _ _ _ _ _ _ _ _ Hinit)
      as (_ & _ & HX & _ & HL & _).
    eexists _, _. split; [exact HL|]. split; [exact HX|].
    rewrite !length_replicate. split; [reflexivity|]. split; [reflexivity|].
    split; [intros; lia|]. split; [intros; lia|].
    intros j Hj. split; apply lookup_replicate_2; lia.
  - rewrite iterate_succ_r in Hn. apply bind_Ok in Hn as (sp & Hsp & Hb).
    destruct (IH _ Hsp ltac:(lia))
      as (bL & bX & HL & HX & HlL & HlX & Hdead & Hvol & Hrest).
    destruct (run_invariant_holds _ _ _ _ _ _ _ tf _ Hinit _ _ Hsp)
      as (_ & _ & _ & Hc).
    destruct Hc as (_ & Hnd & _); [lia|].
    pose proof Hb as Hb'.
    apply body_inv in Hb' as (s1 & Hstep & -> & _).
    destruct (one_step_inv _ _ _ _ _ _ Hstep)
      as (i' & dp' & Lm' & sr' & Hnext' & _ & _ & _ & _ & _ & _ & _ & _
          & Hte & _).
    destruct (one_step_buffers_inv _ _ _ _ _ _ Hstep)
      as (i_min & dp & Lm & sr & Hnext & _ & _ & _ & _
          & (bX0 & bw0 & bL0 & be0 & bX' & bw' & bL' & be'
             & HX0 & _ & HL0 & _ & HdX & _ & HdL & _
             & HX' & _ & HL' & _)).
    rewrite Hnext in Hnext'. inversion Hnext'. subst i' dp' Lm'.
    rewrite HX in HX0. rewrite HL in HL0. inversion HX0. inversion HL0.
    subst bX0 bL0. rewrite Hnd in HdX, HdL.
    apply dynamic_update_slice_one_at in HdX; [|lia].
    apply dynamic_update_slice_one_at in HdL; [|lia]. subst bX' bL'.
    apply next_dead_point_inv in Hnext as (Hargmin & HLm & _).
    eexists _, _. split; [exact HL'|]. split; [exact HX'|].
    rewrite !length_insert. split; [exact HlL|]. split; [exact HlX|].
    split; [|split].
    + intros j s_j i_j m Hj Hsj Ha Hm.
      destruct (decide (j = n)) as [->|Hne].
      * rewrite Hsp in Hsj. inversion Hsj. subst s_j.
        rewrite Hargmin in Ha. inversion Ha. subst i_j.
        rewrite HLm in Hm. inversion Hm. subst m.
        apply list_lookup_insert_eq. lia.
      * rewrite list_lookup_insert_ne by congruence.
        apply (Hdead j s_j i_j m); [lia | assumption..].
    + intros j s_j1 Hj Hsj1.
      destruct (decide (j = n)) as [->|Hne].
      * rewrite iterate_succ_r, Hsp in Hsj1. simpl in Hsj1.
        rewrite Hb in Hsj1. inversion Hsj1. subst s_j1. simpl.
        rewrite Hte. apply list_lookup_insert_eq. lia.
      * rewrite list_lookup_insert_ne by congruence.
        apply Hvol; [lia | exact Hsj1].
    + intros j Hj. rewrite !list_lookup_insert_ne by lia. apply Hrest. lia.
Qed.

(** X6: a run that keeps its diagnostics, started by [initial_state], holds
    after [n <= max_samples] iterations the whole history in its buffers:
    entry [j < n] of [log_L_dead] is the minimum live log-likelihood of the
    state after [j] iterations, entry [j < n] of [log_X] is the log-volume
    of the tracker after [j + 1] iterations, and every later entry still
    has the value [initial_state] gave it, [0] and [-inf]. *)
Theorem dead_buffers_record_each_elimination :
  forall (self : NestedSampler Val) (k0 : Key) (N ms : Z) (cs : bool)
         (kw : gmap string Z) (tf : float) (s0 s : State) (n : nat),
    initial_state self k0 N ms cs false kw = Ok s0 ->
    ms < 2 ^ 63 ->
    iterate n (body self cs false kw tf ms) s0 = Ok s ->
    Z.of_nat n <= ms ->
    exists bL bX,
      log_L_dead s = Some bL /\ log_X s = Some bX
      /\ length bL = Z.to_nat ms /\ length bX = Z.to_nat ms
      /\ (forall j s_j i_min m,
            (j < n)%nat ->
            iterate j (body self cs false kw tf ms) s0 = Ok s_j ->
            argmin (log_L_live s_j) = Ok i_min ->
            log_L_live s_j !! i_min = Some m ->
            bL !! j = Some m)
      /\ (forall j s_j1,
            (j < n)%nat ->
            iterate (Datatypes.S j) (body self cs false kw tf ms) s0
            = Ok s_j1 ->
            bX !! j = Some (te_X_log_value (tracked_expectations_state s_j1)))
      /\ (forall j, (n <= j < Z.to_nat ms)%nat ->
            bL !! j = Some 0%float /\ bX !! j = Some F64.ninf).
Proof.
  intros self k0 N ms cs kw tf s0 s n Hinit Hms Hn Hle.
  exact (dead_buffers_along self k0 N ms cs kw tf s0 Hinit Hms n s Hn Hle).
Qed.

Lemma the_buffer_Ok {A} (b : option A) (x : A) :
  the_buffer b = Ok x -> b = Some x.
Proof. destruct b; simpl; [intros H'; inversion H'; reflexivity | discriminate]. Qed.

(** What [_finalise_results] computes when the diagnostics are kept. *)
Lemma finalise_inv (self : NestedSampler Val) (s : State) (cs : bool) (ms : Z)
    (r : NestedSamplerResults Val) :
  _finalise_results self s cs false ms = Ok r ->
  exists te a lL lX lw npl bE eff bW w bX X bL Ls,
    te_update_from_live_points (marginalised self)
      (tracked_expectations_state s) (live_points s) (log_L_live s)
    = (te, (a, lL, lX, lw))
    /\ dynamic_update_slice
         ((fun j => where_ (j <? num_dead s)
                      (float_of_int (Z.of_nat (length (log_L_live s))))
                      F64.inf) <$> arange ms)
         ((fun j => (float_of_int (Z.of_nat (length (log_L_live s)))
                     - float_of_int j)%float)
            <$> arange (Z.of_nat (length (log_L_live s))))
         (num_dead s) = Ok npl
    /\ sampler_efficiency s = Some bE
    /\ dynamic_update_slice bE
         (replicate (Z.to_nat (Z.of_nat (length (log_L_live s)))) 1%float)
         (num_dead s) = Ok eff
    /\ log_w s = Some bW /\ dynamic_update_slice bW lw (num_dead s) = Ok w
    /\ log_X s = Some bX /\ dynamic_update_slice bX lX (num_dead s) = Ok X
    /\ log_L_dead s = Some bL
    /\ dynamic_update_slice bL lL (num_dead s) = Ok Ls
    /\ n_per_sample r = Some npl
    /\ log_p r = Some ((fun x => (x - logsumexp w)%float) <$> w)
    /\ res_log_X r = Some X /\ log_L_samples r = Some Ls
    /\ res_sampler_efficiency r = Some eff
    /\ num_samples r
       = wrap64 (num_dead s + Z.of_nat (length (log_L_live s)))
    /\ res_num_likelihood_evaluations r = num_likelihood_evaluations s
    /\ logZ r = evidence_mean te
    /\ (if cs then
          exists bd sm,
            dead_points s = Some bd
            /\ dict_multimap2
                 (fun dead_points live_points =>
                    rows ← result_mapM
                             (getitem (astype_like dead_points <$> live_points))
                             (argsort (log_L_live s));
                    dynamic_update_slice dead_points rows (num_dead s))
                 bd (live_points s) = Ok sm
            /\ samples r = Some sm
        else samples r = None).
Proof.
  unfold _finalise_results.
  destruct (te_update_from_live_points _ _ _ _) as [te [[[a lL] lX] lw]].
  intros H'. simpl in H'.
  apply bind_Ok in H' as ([[[[o1 o2] o3] o4] o5] & Harr & H').
  apply bind_Ok in H' as (o6 & Hsm & H').
  apply bind_Ok in Harr as (npl & Hnpl & Harr).
  apply bind_Ok in Harr as (bE & HbE & Harr).
  apply bind_Ok in Harr as (eff & Heff & Harr).
  apply bind_Ok in Harr as (bW & HbW & Harr).
  apply bind_Ok in Harr as (w & Hw & Harr).
  apply bind_Ok in Harr as (bX & HbX & Harr).
  apply bind_Ok in Harr as (X & HX & Harr).
  apply bind_Ok in Harr as (bL & HbL & Harr).
  apply bind_Ok in Harr as (Ls & HLs & Harr).
  inversion Harr. subst o1 o2 o3 o4 o5. clear Harr.
  apply the_buffer_Ok in HbE, HbW, HbX, HbL.
  inversion H'. subst r. clear H'. simpl.
  exists te, a, lL, lX, lw, npl, bE, eff, bW, w, bX, X, bL, Ls.
  do 18 (split; [first [assumption | reflexivity]|]).
  destruct cs; simpl in Hsm.
  - apply bind_Ok in Hsm as (bd & Hbd & Hsm).
    apply the_buffer_Ok in Hbd.
    apply fmap_Ok in Hsm as (sm & Hsm & ->).
    exists bd, sm. repeat split; assumption.
  - inversion Hsm. reflexivity.
Qed.

Lemma length_arange (n : Z) : length (arange n) = Z.to_nat n.
Proof. unfold arange. rewrite length_fmap, length_seq. reflexivity. Qed.

Lemma lookup_arange (n : Z) (j : nat) :
  (j < Z.to_nat n)%nat -> arange n !! j = Some (Z.of_nat j).
Proof.
  intros Hj. unfold arange. rewrite list_lookup_fmap, lookup_seq_lt by exact Hj.
  reflexivity.
Qed.

Lemma while_loop_ext {S} (fuel : nat) (cond : S -> bool)
    (body body' : S -> result S) (s : S) :
  (forall x, body x = body' x) ->
  while_loop fuel cond body s = while_loop fuel cond body' s.
Proof.
  intros Hext. revert s. induction fuel as [|fuel IH]; intros s; simpl;
    [reflexivity|].
  destruct (cond s); [|reflexivity]. rewrite <- Hext.
  destruct (body s); [apply IH | reflexivity].
Qed.

(** X7: under [only_marginalise] the flag [collect_samples] changes nothing:
    the call is the one with [collect_samples=False]; and a result it
    returns holds none of the per-sample arrays and no samples. *)
Theorem only_marginalise_keeps_no_arrays :
  forall (fuel : nat) (self : NestedSampler Val) (k0 : Key) (N ms : Z)
         (cs : bool) (tf : float) (kw : option (gmap string Z)),
    __call__ fuel self k0 N ms cs tf true kw
    = __call__ fuel self k0 N ms false tf true kw
    /\ forall r, __call__ fuel self k0 N ms cs tf true kw = Some (Ok r) ->
         n_per_sample r = None /\ log_p r = None /\ res_log_X r = None
         /\ log_L_samples r = None /\ res_sampler_efficiency r = None
         /\ samples r = None.
Proof.
  intros fuel self k0 N ms cs tf kw.
  assert (Heq : __call__ fuel self k0 N ms cs tf true kw
                = __call__ fuel self k0 N ms false tf true kw).
  { destruct cs; [|reflexivity]. unfold __call__.
    change (initial_state self k0 N ms true true (default ∅ kw))
      with (initial_state self k0 N ms false true (default ∅ kw)).
    destruct (initial_state self k0 N ms false true (default ∅ kw))
      as [s0|e]; [|reflexivity].
    unfold run_loop.
    rewrite (while_loop_ext fuel _
               (body self true true (default ∅ kw) tf ms)
               (body self false true (default ∅ kw) tf ms) s0)
      by (intros x; reflexivity).
    destruct (while_loop _ _ _ _) as [[s|e]|]; reflexivity. }
  split; [exact Heq|]. rewrite Heq. clear Heq. intros r Hr.
  unfold __call__ in Hr.
  destruct (initial_state _ _ _ _ _ _ _) as [s0|e]; [|discriminate].
  destruct (run_loop _ _ _ _ _ _ _ _) as [[s|e]|]; try discriminate.
  inversion Hr as [Hf]. clear Hr. unfold _finalise_results in Hf.
  destruct (te_update_from_live_points _ _ _ _) as [te [[[a lL] lX] lw]].
  simpl in Hf. inversion Hf. simpl. repeat split; reflexivity.
Qed.

(** The live set is empty or the loop never returns a state. *)
Lemma loop_needs_a_live_point (self : NestedSampler Val) (k0 : Key) (N ms : Z)
    (cs om : bool) (kw : gmap string Z) (tf : float) (s0 s : State)
    (fuel : nat) :
  initial_state self k0 N ms cs om kw = Ok s0 ->
  run_loop fuel self cs om kw tf ms s0 = Some (Ok s) ->
  log_L_live s0 <> [] /\ length (log_L_live s) = length (log_L_live s0).
Proof.
  intros Hinit Hrun. unfold run_loop in Hrun.
  apply while_loop_Ok in Hrun as (n & _ & Hn & Hdone & _).
  destruct (run_invariant_holds _ _ _ _ _ _ _ tf _ Hinit _ _ Hn)
    as (_ & Hlen & _).
  split; [|exact Hlen].
  destruct n as [|n].
  { inversion Hn. subst s.
    apply initial_state_inv in Hinit as (Hd0 & _). rewrite Hd0 in Hdone.
    discriminate. }
  destruct (iterate_prefix _ _ _ 1 _ Hn) as (s1 & Hs1); [lia|].
  simpl in Hs1. apply bind_Ok in Hs1 as (s1' & Hb & _).
  apply body_inv in Hb as (s2 & Hstep & _).
  pose proof (initial_state_wf _ _ _ _ _ _ _ _ Hinit) as Hwf.
  destruct (one_step_frame _ _ _ _ _ _ Hwf Hstep)
    as (i_min & _ & _ & _ & _ & Hargmin & _).
  apply argmin_lt_length in Hargmin. intros Hnil. rewrite Hnil in Hargmin.
  simpl in Hargmin. lia.
Qed.

(** X8: a call returns a result only for at least one live point, and,
    unless [only_marginalise], only when [max_samples] is at least the
    number of live points: with no live point the first step raises, and
    with fewer buffer entries than live points [_finalise_results]
    raises. *)
Theorem call_result_needs_live_points_and_room :
  forall (fuel : nat) (self : NestedSampler Val) (k0 : Key) (N ms : Z)
         (cs om : bool) (tf : float) (kw : option (gmap string Z))
         (r : NestedSamplerResults Val),
    (forall k m, length (random_split k m) = m) ->
    __call__ fuel self k0 N ms cs tf om kw = Some (Ok r) ->
    1 <= N /\ (om = false -> N <= ms).
Proof.
  intros fuel self k0 N ms cs om tf kw r Hsplit Hr. unfold __call__ in Hr.
  destruct (initial_state _ _ _ _ _ _ _) as [s0|e] eqn:Hinit; [|discriminate].
  destruct (run_loop _ _ _ _ _ _ _ _) as [[s|e]|] eqn:Hrun; try discriminate.
  inversion Hr as [Hf]. clear Hr.
  destruct (loop_needs_a_live_point _ _ _ _ _ _ _ _ _ _ _ Hinit Hrun)
    as (Hne & Hlen).
  assert (HN : 0 <= N /\ length (log_L_live s0) = Z.to_nat N).
  { apply initial_state_inv in Hinit
      as (_ & _ & _ & _ & HN & (k1 & ik & batch & _ & Hb & HL & _) & _).
    split; [exact HN|].
    apply result_mapM_Ok, Forall2_length in Hb.
    rewrite HL, length_fmap, <- Hb. apply Hsplit. }
  destruct HN as (HN0 & HN).
  assert (H1 : 1 <= N).
  { destruct (log_L_live s0) as [|x l]; [congruence|]. simpl in HN. lia. }
  split; [exact H1|]. intros ->.
  apply finalise_inv in Hf
    as (te & a & lL & lX & lw & npl & bE & eff & bW & w & bX & X & bL & Ls
        & _ & Hnpl & _).
  apply dynamic_update_slice_Ok in Hnpl as (Hle & _).
  rewrite !length_fmap, !length_arange in Hle. lia.
Qed.

Lemma clamp_start_nonneg (n m : nat) (start : Z) :
  0 <= start -> (m <= n)%nat ->
  clamp_start n m start = Z.to_nat (Z.min start (Z.of_nat n - Z.of_nat m)).
Proof.
  intros Hs Hle. unfold clamp_start.
  destruct (Z.ltb_spec start 0); [lia|]. f_equal. lia.
Qed.

(** The entries of an updated array: the operand before the clamped start
    and after the update, the update in between. *)
Lemma dynamic_update_slice_lookup {A} (operand update r : list A) (start : Z) :
  dynamic_update_slice operand update start = Ok r ->
  (forall j, (j < clamp_start (length operand) (length update) start)%nat ->
             r !! j = operand !! j)
  /\ (forall j, (j < length update)%nat ->
        r !! (clamp_start (length operand) (length update) start + j)%nat
        = update !! j)
  /\ (forall j,
        (clamp_start (length operand) (length update) start + length update
         <= j)%nat ->
        r !! j = operand !! j).
Proof.
  intros H'. apply dynamic_update_slice_Ok in H' as (Hle & ->).
  pose proof (clamp_start_fits _ _ start Hle) as Hfit.
  set (c := clamp_start (length operand) (length update) start) in *.
  split; [|split].
  - intros j Hj. rewrite lookup_app_l by (rewrite length_take; lia).
    apply lookup_take_lt. exact Hj.
  - intros j Hj. rewrite lookup_app_r by (rewrite length_take; lia).
    rewrite length_take, Nat.min_l by lia.
    replace (c + j - c)%nat with j by lia.
    apply lookup_app_l. exact Hj.
  - intros j Hj. rewrite lookup_app_r by (rewrite length_take; lia).
    rewrite length_take, Nat.min_l by lia.
    rewrite lookup_app_r by lia. rewrite lookup_drop. f_equal. lia.
Qed.

(** X9: [_finalise_results] writes the live points into the arrays at index
    [c = min(num_dead, max_samples - N)], not always at [num_dead]: below
    [c] the arrays keep the dead record, the [N] entries from [c] on are
    those of the live points ([n_per_sample] counts down from [N], the
    efficiency is 1), and after them [n_per_sample] is [inf]. When
    [num_dead + N] exceeds [max_samples], the live points therefore replace
    the last dead entries, while [num_samples] is still [num_dead + N]. *)
Theorem finalise_places_live_points_at_clamped_index :
  forall (self : NestedSampler Val) (s : State) (cs : bool) (ms : Z)
         (r : NestedSamplerResults Val),
    buffers_wf cs false (Z.to_nat ms) s ->
    0 <= num_dead s ->
    _finalise_results self s cs false ms = Ok r ->
    let N := length (log_L_live s) in
    let c := Z.to_nat (Z.min (num_dead s) (ms - Z.of_nat N)) in
    (N <= Z.to_nat ms)%nat
    /\ (num_dead s + Z.of_nat N <= ms -> c = Z.to_nat (num_dead s))
    /\ (ms < num_dead s + Z.of_nat N -> (c + N)%nat = Z.to_nat ms)
    /\ num_samples r = wrap64 (num_dead s + Z.of_nat N)
    /\ (exists npl,
          n_per_sample r = Some npl /\ length npl = Z.to_nat ms
          /\ (forall j, (j < c)%nat ->
                npl !! j = Some (float_of_int (Z.of_nat N)))
          /\ (forall j, (j < N)%nat ->
                npl !! (c + j)%nat
                = Some (float_of_int (Z.of_nat N)
                        - float_of_int (Z.of_nat j))%float)
          /\ (forall j, (c + N <= j < Z.to_nat ms)%nat ->
                npl !! j = Some F64.inf))
    /\ (exists bE eff,
          sampler_efficiency s = Some bE
          /\ res_sampler_efficiency r = Some eff
          /\ length eff = Z.to_nat ms
          /\ (forall j, (j < c)%nat -> eff !! j = bE !! j)
          /\ (forall j, (j < N)%nat -> eff !! (c + j)%nat = Some 1%float)
          /\ (forall j, (c + N <= j)%nat -> eff !! j = bE !! j))
    /\ (forall te a lL lX lw,
          te_update_from_live_points (marginalised self)
            (tracked_expectations_state s) (live_points s) (log_L_live s)
          = (te, (a, lL, lX, lw)) ->
          length lL = N ->
          exists bL Ls,
            log_L_dead s = Some bL /\ log_L_samples r = Some Ls
            /\ length Ls = Z.to_nat ms
            /\ (forall j, (j < c)%nat -> Ls !! j = bL !! j)
            /\ (forall j, (j < N)%nat -> Ls !! (c + j)%nat = lL !! j)
            /\ (forall j, (c + N <= j)%nat -> Ls !! j = bL !! j)).
Proof.
  intros self s cs ms r Hbuf Hnd Hf N c.
  destruct Hbuf as ((bX0 & bw0 & bL0 & be0 & HX0 & Hw0 & HL0 & He0
                     & HlX & Hlw & HlL & Hle) & _).
  apply finalise_inv in Hf
    as (te & a & lL & lX & lw & npl & bE & eff & bW & w & bX & X & bL & Ls
        & Hte & Hnpl & HbE & Heff & _ & _ & _ & _ & HbL & HLs
        & Hrn & _ & _ & HrL & Hre & Hns & _).
  fold N in Hnpl, Heff, Hns.
  rewrite HbE in He0. rewrite HbL in HL0. inversion He0. inversion HL0.
  subst be0 bL0.
  pose proof (dynamic_update_slice_Ok _ _ _ _ Hnpl) as (HleN & _).
  rewrite !length_fmap, !length_arange, Nat2Z.id in HleN.
  assert (Hc : forall m, m = N ->
            clamp_start (Z.to_nat ms) m (num_dead s) = c).
  { intros m ->. rewrite clamp_start_nonneg by assumption.
    unfold c. lia. }
  split; [exact HleN|].
  split; [intros Hroom; unfold c; lia|].
  split; [intros Hfull; unfold c; lia|].
  split; [exact Hns|].
  split; [|split].
  - exists npl. split; [exact Hrn|].
    pose proof (dynamic_update_slice_length _ _ _ _ Hnpl) as Hlen.
    rewrite length_fmap, length_arange in Hlen.
    split; [exact Hlen|].
    apply dynamic_update_slice_lookup in Hnpl as (Hlo & Hmid & Hhi).
    rewrite !length_fmap, !length_arange, Nat2Z.id in Hlo, Hmid, Hhi.
    rewrite (Hc N eq_refl) in Hlo, Hmid, Hhi.
    split; [|split].
    + intros j Hj. rewrite (Hlo j Hj), list_lookup_fmap.
      rewrite lookup_arange by (unfold c in Hj; lia). simpl.
      destruct (Z.ltb_spec (Z.of_nat j) (num_dead s)) as [_|Hge];
        [reflexivity|]. unfold c in Hj. lia.
    + intros j Hj. rewrite (Hmid j Hj), list_lookup_fmap.
      rewrite lookup_arange by lia. reflexivity.
    + intros j (Hj1 & Hj2). rewrite (Hhi j Hj1), list_lookup_fmap.
      rewrite lookup_arange by exact Hj2. simpl.
      destruct (Z.ltb_spec (Z.of_nat j) (num_dead s)) as [Hlt|_];
        [|reflexivity]. unfold c in Hj1. lia.
  - exists bE, eff. split; [exact HbE|]. split; [exact Hre|].
    pose proof (dynamic_update_slice_length _ _ _ _ Heff) as Hlen.
    split; [lia|].
    apply dynamic_update_slice_lookup in Heff as (Hlo & Hmid & Hhi).
    rewrite !length_replicate, Nat2Z.id, Hle in Hlo, Hmid, Hhi.
    rewrite (Hc N eq_refl) in Hlo, Hmid, Hhi.
    split; [exact Hlo|]. split; [|exact Hhi].
    intros j Hj. rewrite (Hmid j Hj). apply lookup_replicate_2. exact Hj.
  - intros te' a' lL' lX' lw' Hte' HlenL. rewrite Hte in Hte'.
    inversion Hte'. subst te' a' lL' lX' lw'.
    exists bL, Ls. split; [exact HbL|]. split; [exact HrL|].
    pose proof (dynamic_update_slice_length _ _ _ _ HLs) as Hlen.
    split; [lia|].
    apply dynamic_update_slice_lookup in HLs as (Hlo & Hmid & Hhi).
    rewrite HlL, (Hc _ HlenL) in Hlo, Hmid, Hhi.
    rewrite HlenL in Hmid, Hhi.
    split; [exact Hlo|]. split; [exact Hmid | exact Hhi].
Qed.

Lemma bind_total {A B} (m : result A) (f : A -> result B) :
  (exists a, m = Ok a) ->
  (forall a, m = Ok a -> exists y, f a = Ok y) ->
  exists y, (m ≫= f) = Ok y.
Proof.
  intros (a & Ha) Hf. destruct (Hf a Ha) as (y & Hy).
  exists y. rewrite Ha. exact Hy.
Qed.

Lemma is_Ok_total {A} (m : result A) : is_Ok m = true -> exists a, m = Ok a.
Proof. destruct m; simpl; [eauto | discriminate]. Qed.

Lemma getitem_total {A} (x : list A) (idx : nat) :
  x <> [] -> exists v, getitem x idx = Ok v.
Proof.
  intros Hx. unfold getitem.
  destruct (lookup_lt_is_Some_2 x (Nat.min idx (length x - 1))) as (v & Hv).
  { destruct x; [congruence | simpl; lia]. }
  rewrite Hv. eauto.
Qed.

Lemma split2_total (k : Key) :
  (forall (k : Key) m, length (random_split k m) = m) ->
  exists k1 k2, split2 k = Ok (k1, k2).
Proof.
  intros Hsplit. unfold split2. specialize (Hsplit k 2%nat).
  destruct (random_split k 2) as [|a [|b [|c l]]]; simpl in Hsplit;
    try discriminate. eauto.
Qed.

Lemma init_sampler_total (self : NestedSampler Val) (k : Key)
    (U : list (list float)) (x : float) (kw : gmap string Z) :
  (forall (k : Key) m, length (random_split k m) = m) ->
  sampler_name self ∈ _available_samplers ->
  exists r, init_sampler self k U x kw = Ok r.
Proof.
  intros Hsplit Hname. unfold init_sampler.
  destruct (split2_total k Hsplit) as (k1 & k2 & Hk). rewrite Hk. simpl.
  unfold _available_samplers in Hname.
  apply elem_of_cons in Hname as [->|Hname]; [simpl; eauto|].
  apply list_elem_of_singleton in Hname. rewrite Hname. simpl. eauto.
Qed.

Lemma full_total {A} (n : Z) (row : A) :
  0 <= n -> full n row = Ok (replicate (Z.to_nat n) row).
Proof. intros Hn. unfold full. destruct (Z.ltb_spec n 0); [lia | reflexivity]. Qed.

(** [initial_state] returns under the contract. *)
Lemma initial_state_total (self : NestedSampler Val) (k0 : Key) (N ms : Z)
    (cs om : bool) (kw : gmap string Z) :
  engine_contract self -> 0 <= N -> (om = false -> 0 <= ms) ->
  exists s0, initial_state self k0 N ms cs om kw = Ok s0.
Proof.
  intros ((Hsplit & _ & _) & _ & Hname & Hlik & Htracked & _ & _) HN Hms.
  unfold initial_state.
  apply bind_total; [|intros [k1 ik] _].
  { destruct (split2_total k0 Hsplit) as (k1 & k2 & Hk). eauto. }
  apply bind_total; [|intros keys _].
  { destruct (Z.ltb_spec N 0); [lia | eauto]. }
  apply bind_total; [|intros batch _].
  { assert (Hone : forall kx, exists y, single_sample self kx = Ok y).
    { intros kx. unfold single_sample.
      destruct (is_Ok_total _ (Hlik (pc_call (prior_chain self)
                  (random_uniform kx (pc_U_ndims (prior_chain self))))))
        as (v & Hv).
      rewrite Hv. simpl. eauto. }
    destruct keys as [|kx keys].
    - destruct (Hone ik) as (y & Hy). rewrite Hy. simpl. eauto.
    - apply result_mapM_total. apply Forall_forall. intros kx' _.
      apply Hone. }
  apply bind_total; [|intros dp _].
  { destruct om; simpl; [eauto|]. destruct cs; simpl; [|eauto].
    pose proof (filter_prior_chain_spec self (pc_to_shapes (prior_chain self)))
      as Hspec.
    destruct (_filter_prior_chain self (pc_to_shapes (prior_chain self)))
      as [shapes|e].
    - simpl.
      destruct (imapM_total (fun (_ : string) shape => full ms (zeros shape))
                  shapes) as (r & Hr).
      + intros k x _. rewrite full_total by auto. eauto.
      + unfold dict_multimap. rewrite Hr. simpl. eauto.
    - destruct Hspec as (k & _ & Ht & Hnone).
      destruct (Htracked k Ht) as (sh & Hsh). congruence. }
  apply bind_total; [|intros bL _].
  { destruct om; simpl; [eauto|]. rewrite full_total by auto. simpl. eauto. }
  apply bind_total; [|intros be _].
  { destruct om; simpl; [eauto|]. rewrite full_total by auto. simpl. eauto. }
  apply bind_total; [|intros bX _].
  { destruct om; simpl; [eauto|]. rewrite full_total by auto. simpl. eauto. }
  apply bind_total; [|intros bw _].
  { destruct om; simpl; [eauto|]. rewrite full_total by auto. simpl. eauto. }
  apply bind_total; [|intros [k2 ss] _].
  { apply init_sampler_total; assumption. }
  eauto.
Qed.
(** The state [initial_state] returns is well formed. *)
Lemma initial_state_state_wf (self : NestedSampler Val) (k0 : Key) (N ms : Z)
    (cs om : bool) (kw : gmap string Z) (s0 : State) :
  engine_contract self ->
  initial_state self k0 N ms cs om kw = Ok s0 ->
  state_wf self cs om (Z.to_nat ms) s0
  /\ length (log_L_live s0) = Z.to_nat N.
Proof.
  intros ((Hsplit & Huniform & _) & _ & _ & _ & _ & Hchain & _) Hinit.
  pose proof (initial_state_wf _ _ _ _ _ _ _ _ Hinit) as Hwf.
  destruct (initial_state_shape _ _ _ _ _ _ _ _ Hsplit Huniform Hinit)
    as (_ & (HlenL & _ & Hrows & Hcols) & Hom & Hbuf).
  pose proof (initial_state_inv _ _ _ _ _ _ _ _ Hinit)
    as (_ & _ & _ & _ & _ & (k1 & ik & batch & _ & Hb & _ & _ & Hp) & _).
  split; [|exact HlenL].
  split; [exact Hwf|]. split; [exact Hrows|]. split.
  { intros k (col & Hcol). apply (Hcols _ _ Hcol). }
  unfold buffers_wf. destruct om; [apply Hom; reflexivity|].
  destruct (Hbuf eq_refl) as (_ & HX & Hw & HL & He & Hcs0 & Hcs1). split.
  { eexists _, _, _, _. do 4 (split; [eassumption|]).
    rewrite !length_replicate. repeat split; reflexivity. }
  destruct cs; [|apply Hcs0; reflexivity].
  destruct (Hcs1 eq_refl) as (dp & Hdp & Hlook). exists dp.
  split; [exact Hdp|]. intros k col Hcol.
  apply Hlook in Hcol as (_ & shape & Hshape & ->).
  split; [apply length_replicate|]. rewrite Hp.
  apply stack_dicts_is_Some; [eauto|].
  apply result_mapM_Ok in Hb. clear -Hb Hshape Hchain Huniform.
  induction Hb as [|kx [[U c] v] keys batch Hs _ IH]; simpl;
    constructor; [|exact IH].
  unfold single_sample in Hs. apply bind_Ok in Hs as (v' & _ & Hs).
  inversion Hs. simpl. apply Hchain; [apply Huniform | eauto].
Qed.

(** One step keeps the state well formed. *)
Lemma one_step_state_wf (self : NestedSampler Val) (s s' : State)
    (cs om : bool) (kw : gmap string Z) (m : nat) :
  state_wf self cs om m s ->
  _one_step self s cs om kw = Ok s' ->
  state_wf self cs om m s'
  /\ length (log_L_live s') = length (log_L_live s).
Proof.
  intros (Hwf & Hrows & Hnames & Hbuf) Hstep.
  destruct (one_step_frame _ _ _ _ _ _ Hwf Hstep)
    as (i_min & dp & Lm & sr & Hnext & _ & _ & _ & Hframe).
  destruct (overwrites_slot_wf _ _ _ _ Hwf Hframe) as (Hwf' & Hlen).
  split; [|exact Hlen]. split; [exact Hwf'|].
  destruct Hframe as (_ & (old & new & Hold & Hdus & _ & HU) & Hnone & Hsome).
  split; [|split].
  - rewrite HU. apply Forall_insert; [exact Hrows|].
    rewrite (dynamic_update_slice_length _ _ _ _ Hdus).
    exact (Forall_lookup_1 _ _ _ _ Hrows Hold).
  - intros k Hk. apply Hnames.
    destruct (live_points s !! k) as [col|] eqn:Hcol; [eauto|].
    rewrite (Hnone _ Hcol) in Hk. destruct Hk as (? & ?). discriminate.
  - destruct (one_step_buffers_inv _ _ _ _ _ _ Hstep)
      as (i' & dp' & Lm' & sr' & Hnext' & _ & _ & _ & _ & Hb).
    rewrite Hnext in Hnext'. inversion Hnext'. subst i' dp' Lm'.
    unfold buffers_wf in *. destruct om.
    + destruct Hb as (-> & -> & -> & -> & ->). exact Hbuf.
    + destruct Hbuf as ((bX0 & bw0 & bL0 & be0 & HX0 & Hw0 & HL0 & He0
                         & HlX & Hlw & HlL & Hle) & Hdead).
      destruct Hb as (bX & bw & bL & be & bX' & bw' & bL' & be'
                      & HX & Hw & HL & He & HdX & Hdw & HdL & Hde
                      & HX' & Hw' & HL' & He' & Hdp).
      rewrite HX in HX0. rewrite Hw in Hw0. rewrite HL in HL0.
      rewrite He in He0. inversion HX0. inversion Hw0. inversion HL0.
      inversion He0. subst bX0 bw0 bL0 be0.
      apply dynamic_update_slice_length in HdX, Hdw, HdL, Hde. split.
      { exists bX', bw', bL', be'. do 4 (split; [assumption|]).
        repeat split; congruence. }
      destruct cs; [|rewrite Hdp; exact Hdead].
      destruct Hdead as (bd & Hbd & Hcols).
      destruct Hdp as (bd0 & bd' & Hbd0 & Hmm & Hbd').
      rewrite Hbd in Hbd0. inversion Hbd0. subst bd0.
      exists bd'. split; [exact Hbd'|]. intros k col' Hcol'.
      pose proof (imapM_Ok _ _ _ Hmm k) as Hk.
      destruct (bd !! k) as [col|] eqn:Hcol; [|congruence].
      destruct Hk as (col'' & Hd & Hlook).
      rewrite Hlook in Hcol'. inversion Hcol'. subst col''.
      destruct (Hcols _ _ Hcol) as (Hl & (lc & Hlive)).
      destruct (dp !! k); [|discriminate].
      apply dynamic_update_slice_length in Hd. split; [congruence|].
      destruct (Hsome _ _ Hlive) as (y & _ & Hl'). eauto.
Qed.

(** One step returns under the sampler's contract, on a well-formed state
    with a live point and, unless [only_marginalise], a buffer entry. *)
Lemma one_step_total (self : NestedSampler Val) (s : State)
    (cs om : bool) (kw : gmap string Z) (m : nat) :
  sampler_contract self ->
  state_wf self cs om m s ->
  log_L_live s <> [] -> (om = false -> (1 <= m)%nat) ->
  exists s', _one_step self s cs om kw = Ok s'.
Proof.
  intros Hsampler ((HwU & Hwp) & Hrows & Hnames & Hbuf) Hne Hm.
  assert (HN : (1 <= length (log_L_live s))%nat).
  { destruct (log_L_live s); [congruence | simpl; lia]. }
  destruct (argmin_total _ Hne) as (i_min & Hargmin).
  pose proof (argmin_lt_length _ _ Hargmin) as Hlt.
  assert (Hnext : exists dp Lm, next_dead_point s = Ok (i_min, dp, Lm)).
  { unfold next_dead_point. rewrite Hargmin. simpl.
    destruct (imapM_total (fun (_ : string) (x : list Val) => getitem x i_min)
                (live_points s)) as (dp & Hdp).
    { intros k col Hcol. apply getitem_total. intros ->.
      apply Hwp in Hcol. simpl in Hcol. lia. }
    unfold dict_multimap. rewrite Hdp. simpl.
    destruct (getitem_total (log_L_live s) i_min Hne) as (Lm & HLm).
    rewrite HLm. simpl. eauto. }
  destruct Hnext as (dp & Lm & Hnext).
  assert (Hdpk : forall k, is_Some (live_points s !! k) -> is_Some (dp !! k)).
  { intros k (col & Hcol).
    apply next_dead_point_inv in Hnext as (_ & _ & Hdp).
    pose proof (imapM_Ok _ _ _ Hdp k) as Hk. rewrite Hcol in Hk.
    destruct Hk as (y & _ & Hy). eauto. }
  unfold _one_step. rewrite Hnext. simpl.
  set (te := te_update (marginalised self) (tracked_expectations_state s) dp
               (length (log_L_live s)) Lm).
  assert (Hrest : forall s1 : State,
            key s1 = key s -> live_points_U s1 = live_points_U s ->
            sampler_state s1 = sampler_state s ->
            log_L_live s1 = log_L_live s -> live_points s1 = live_points s ->
            sampler_efficiency s1 = sampler_efficiency s ->
            exists s',
              (sampler_results ← call_sampler self s1 kw i_min Lm te;
               log_L_live ← dynamic_update_slice (log_L_live s1)
                              [sr_log_L_new sampler_results] (Z.of_nat i_min);
               live_points ←
                 dict_multimap2
                   (fun x y => dynamic_update_slice x [astype_like x y]
                                 (Z.of_nat i_min))
                   (live_points s1) (sr_x_new sampler_results);
               live_points_U ← dynamic_update_slice2 (live_points_U s1)
                                 [sr_u_new sampler_results] (Z.of_nat i_min) 0;
               state ←
                 (if negb om then
                    b_e ← the_buffer (sampler_efficiency s1);
                    sampler_efficiency ←
                      dynamic_update_slice b_e
                        [(1 / float_of_int
                                (sr_num_likelihood_evaluations
                                   sampler_results))%float]
                        (num_dead s1);
                    Ok (replace_sampler_efficiency s1 sampler_efficiency)
                  else Ok s1);
               Ok (replace_step state (sr_key sampler_results)
                     (wrap64 (num_likelihood_evaluations state
                              + sr_num_likelihood_evaluations sampler_results))
                     log_L_live live_points live_points_U
                     (sr_sampler_state sampler_results) te
                     (wrap64 (num_dead state + 1)))) = Ok s').
  { intros s1 Hk1 HU1 Hss1 HL1 Hp1 He1.
    destruct (Hsampler s kw i_min Lm te Hrows ltac:(lia))
      as (sr & Hsr & Hu & Hx).
    rewrite (call_sampler_ext self s1 s kw i_min Lm te Hk1 HU1 Hss1), Hsr.
    simpl. rewrite HL1, Hp1, HU1, He1.
    apply bind_total; [|intros L' _].
    { apply dynamic_update_slice_total. simpl. lia. }
    apply bind_total; [|intros p' _].
    { unfold dict_multimap2. apply imapM_total. intros k col Hcol.
      destruct (Hx k (Hnames k (ex_intro _ col Hcol))) as (y & Hy).
      rewrite Hy. apply dynamic_update_slice_total.
      apply Hwp in Hcol. simpl. lia. }
    apply bind_total; [|intros U' _].
    { unfold dynamic_update_slice2. simpl.
      destruct (Nat.ltb_spec (length (live_points_U s)) 1); [lia|].
      rewrite clamp_start_in_range by (simpl; lia). rewrite Nat2Z.id.
      destruct (lookup_lt_is_Some_2 (live_points_U s) i_min ltac:(lia))
        as (old & Hold).
      rewrite (drop_S _ _ _ Hold). simpl.
      destruct (dynamic_update_slice_total old (sr_u_new sr) 0) as (new & Hnew).
      { rewrite Hu, (Forall_lookup_1 _ _ _ _ Hrows Hold). lia. }
      rewrite Hnew. simpl. eauto. }
    apply bind_total; [|intros s2 _; eauto].
    destruct om; simpl; [eauto|].
    destruct Hbuf as ((bX & bw & bL & be & HX & Hw & HL & He
                       & HlX & Hlw & HlL & Hle) & _).
    rewrite He. simpl.
    apply bind_total; [|intros e' _; eauto].
    apply dynamic_update_slice_total. simpl. specialize (Hm eq_refl). lia. }
  destruct om; simpl.
  { apply Hrest; reflexivity. }
  specialize (Hm eq_refl).
  destruct Hbuf as ((bX & bw & bL & be & HX & Hw & HL & He
                     & HlX & Hlw & HlL & Hle) & Hdead).
  rewrite HX. simpl.
  destruct (dynamic_update_slice_total bX [te_X_log_value te] (num_dead s))
    as (bX' & HX'); [simpl; lia|]. rewrite HX'. simpl.
  rewrite Hw. simpl.
  destruct (dynamic_update_slice_total bw [te_dw_log_value te] (num_dead s))
    as (bw' & Hw'); [simpl; lia|]. rewrite Hw'. simpl.
  rewrite HL. simpl.
  destruct (dynamic_update_slice_total bL [Lm] (num_dead s))
    as (bL' & HL'); [simpl; lia|]. rewrite HL'. simpl.
  destruct cs.
  - destruct Hdead as (bd & Hbd & Hcols). rewrite Hbd. simpl.
    destruct (imapM_total
                (fun (key : string) (x : list Val) =>
                   match dp !! key with
                   | Some y =>
                       dynamic_update_slice x [astype_like x y] (num_dead s)
                   | None => Raise (KeyError key)
                   end) bd) as (bd' & Hbd').
    { intros k col Hcol. destruct (Hcols _ _ Hcol) as (Hl & Hlive).
      destruct (Hdpk _ Hlive) as (y & Hy). rewrite Hy.
      apply dynamic_update_slice_total. simpl. lia. }
    unfold dict_multimap2. rewrite Hbd'. simpl.
    apply (Hrest (replace_dead_points (replace_buffers s bX' bw' bL') bd'));
      reflexivity.
  - apply (Hrest (replace_buffers s bX' bw' bL')); reflexivity.
Qed.
(** [_finalise_results] returns on a well-formed state whose buffers have
    room for the live points. *)
Lemma finalise_total (self : NestedSampler Val) (s : State) (cs om : bool)
    (ms : Z) :
  jax_contract -> tracker_contract ->
  state_wf self cs om (Z.to_nat ms) s ->
  log_L_live s <> [] ->
  (om = false -> (length (log_L_live s) <= Z.to_nat ms)%nat) ->
  exists r, _finalise_results self s cs om ms = Ok r.
Proof.
  intros (_ & _ & Hargsort) Htracker ((HwU & Hwp) & _ & _ & Hbuf) Hne Hroom.
  assert (HN : (1 <= length (log_L_live s))%nat).
  { destruct (log_L_live s); [congruence | simpl; lia]. }
  unfold _finalise_results.
  pose proof (Htracker (marginalised self) (tracked_expectations_state s)
                (live_points s) (log_L_live s)) as Ht.
  destruct (te_update_from_live_points _ _ _ _) as [te [[[a lL] lX] lw]].
  destruct Ht as (HlL & HlX & Hlw).
  destruct om; simpl.
  { rewrite andb_false_r. simpl. eauto. }
  specialize (Hroom eq_refl).
  destruct Hbuf as ((bX & bw & bL & be & HX & Hw & HL & He
                     & HbX & Hbw & HbL & Hbe) & Hdead).
  rewrite HX, Hw, HL, He. simpl.
  apply bind_total; [|intros [[[[o1 o2] o3] o4] o5] _].
  { apply bind_total; [|intros npl _].
    { apply dynamic_update_slice_total.
      rewrite !length_fmap, !length_arange, Nat2Z.id. exact Hroom. }
    apply bind_total; [|intros eff _].
    { apply dynamic_update_slice_total.
      rewrite length_replicate, Nat2Z.id. lia. }
    apply bind_total; [|intros w _].
    { apply dynamic_update_slice_total. lia. }
    apply bind_total; [|intros X _].
    { apply dynamic_update_slice_total. lia. }
    apply bind_total; [|intros Ls _; eauto].
    apply dynamic_update_slice_total. lia. }
  apply bind_total; [|intros sm _; eauto].
  rewrite andb_true_r. destruct cs; simpl; [|eauto].
  destruct Hdead as (bd & Hbd & Hcols). rewrite Hbd. simpl.
  destruct (imapM_total
              (fun (key : string) (x : list Val) =>
                 match live_points s !! key with
                 | Some y =>
                     rows ← result_mapM (getitem (astype_like x <$> y))
                              (argsort (log_L_live s));
                     dynamic_update_slice x rows (num_dead s)
                 | None => Raise (KeyError key)
                 end) bd) as (sm & Hsm).
  { intros k col Hcol. destruct (Hcols _ _ Hcol) as (Hl & (y & Hy)).
    rewrite Hy.
    destruct (result_mapM_total (getitem (astype_like col <$> y))
                (argsort (log_L_live s))) as (rows & Hrows).
    { apply Forall_forall. intros idx _. apply getitem_total.
      intros Hnil. apply (f_equal length) in Hnil.
      rewrite length_fmap, (Hwp _ _ Hy) in Hnil. simpl in Hnil. lia. }
    rewrite Hrows. simpl. apply dynamic_update_slice_total.
    apply result_mapM_Ok, Forall2_length in Hrows.
    rewrite <- Hrows, Hargsort. lia. }
  unfold dict_multimap2. rewrite Hsm. simpl. eauto.
Qed.

Lemma while_loop_returns {S} (bound fuel : nat) (cond : S -> bool)
    (body : S -> result S) (s0 : S) :
  (bound < fuel)%nat ->
  (forall n, (n <= bound)%nat -> exists s, iterate n body s0 = Ok s) ->
  (forall s_B, iterate bound body s0 = Ok s_B -> cond s_B = false) ->
  exists s, while_loop fuel cond body s0 = Some (Ok s).
Proof.
  revert fuel s0. induction bound as [|bound IH]; intros fuel s0 Hlt Hex Hb.
  - destruct fuel as [|fuel]; [lia|]. simpl.
    rewrite (Hb s0) by reflexivity. eauto.
  - destruct fuel as [|fuel]; [lia|]. simpl.
    destruct (cond s0); [|eauto].
    destruct (Hex 1%nat ltac:(lia)) as (s1 & Hs1). simpl in Hs1.
    destruct (body s0) as [s1'|e] eqn:Hbody; [|discriminate].
    apply IH; [lia | |].
    + intros n Hn. destruct (Hex (Datatypes.S n) ltac:(lia)) as (s & Hs).
      simpl in Hs. rewrite Hbody in Hs. eauto.
    + intros s_B HsB. apply Hb. simpl. rewrite Hbody. exact HsB.
Qed.

(** Every iteration of the loop returns under the contract. *)
Lemma iterates_exist (self : NestedSampler Val) (k0 : Key) (N ms : Z)
    (cs om : bool) (kw : gmap string Z) (tf : float) (s0 : State) :
  engine_contract self ->
  initial_state self k0 N ms cs om kw = Ok s0 ->
  1 <= N -> (om = false -> 1 <= ms) ->
  forall n, exists s,
    iterate n (body self cs om kw tf ms) s0 = Ok s
    /\ state_wf self cs om (Z.to_nat ms) s
    /\ length (log_L_live s) = Z.to_nat N.
Proof.
  intros Hc Hinit HN Hms n.
  destruct (initial_state_state_wf _ _ _ _ _ _ _ _ Hc Hinit) as (Hwf0 & Hlen0).
  induction n as [|n (s & Hs & Hwf & Hlen)].
  - exists s0. split; [reflexivity|]. split; [exact Hwf0 | exact Hlen0].
  - destruct (one_step_total self s cs om kw (Z.to_nat ms)) as (s1 & Hs1).
    + apply Hc.
    + exact Hwf.
    + intros Hnil. rewrite Hnil in Hlen. simpl in Hlen. lia.
    + intros Hom. specialize (Hms Hom). lia.
    + destruct (one_step_state_wf _ _ _ _ _ _ _ Hwf Hs1) as (Hwf1 & Hlen1).
      eexists. rewrite iterate_succ_r, Hs. simpl. unfold body.
      rewrite Hs1. simpl. split; [reflexivity|].
      split; [exact Hwf1 | simpl; lia].
Qed.

(** X10: a call cannot fail when its collaborators keep their contracts:
    with at least one live point, and unless [only_marginalise] with
    [max_samples] at least the number of live points, [initial_state], every
    step of the loop and [_finalise_results] return, so the call returns a
    result, whatever the flags, the key and the termination fraction. *)
Theorem call_returns_a_result_under_the_contract :
  forall (fuel : nat) (self : NestedSampler Val) (k0 : Key) (N ms : Z)
         (cs om : bool) (tf : float) (kw : option (gmap string Z)),
    engine_contract self ->
    1 <= N -> (om = false -> N <= ms) -> ms < 2 ^ 63 ->
    Z.max 1 ms < Z.of_nat fuel ->
    exists r, __call__ fuel self k0 N ms cs tf om kw = Some (Ok r).
Proof.
  intros fuel self k0 N ms cs om tf kw Hc HN Hroom Hms Hfuel.
  destruct (initial_state_total self k0 N ms cs om (default ∅ kw) Hc)
    as (s0 & Hinit); [lia | intros Hom; specialize (Hroom Hom); lia|].
  pose proof (iterates_exist self k0 N ms cs om (default ∅ kw) tf s0 Hc Hinit
                HN ltac:(intros Hom; specialize (Hroom Hom); lia)) as Hex.
  pose proof (run_invariant_holds _ _ _ _ _ _ _ tf _ Hinit) as Hinv.
  destruct (while_loop_returns (Z.to_nat (Z.max 1 ms)) fuel
              (fun state : State => negb (done state))
              (body self cs om (default ∅ kw) tf ms) s0) as (s & Hs).
  { lia. }
  { intros n _. destruct (Hex n) as (s & Hs & _). eauto. }
  { intros s_B HsB. destruct (Hinv _ _ HsB) as (_ & _ & _ & Hcount).
    destruct Hcount as (_ & _ & Hd); [lia|]. rewrite Hd by lia.
    apply negb_false_iff, orb_true_iff. right. apply Z.leb_le. lia. }
  unfold __call__. rewrite Hinit. unfold run_loop. rewrite Hs.
  pose proof Hs as Hs'.
  apply while_loop_Ok in Hs' as (n & _ & Hn & _).
  destruct (Hex n) as (s' & Hn' & Hwf & Hlen).
  rewrite Hn in Hn'. inversion Hn'. subst s'.
  destruct (finalise_total self s cs om ms) as (r & Hr).
  - apply Hc.
  - apply Hc.
  - exact Hwf.
  - intros Hnil. rewrite Hnil in Hlen. simpl in Hlen. lia.
  - intros Hom. specialize (Hroom Hom). lia.
  - exists r. rewrite Hr. reflexivity.
Qed.
(** The four diagnostic buffers keep [max_samples] entries along a run. *)
Lemma buffer_lengths_along (self : NestedSampler Val) (k0 : Key) (N ms : Z)
    (cs : bool) (kw : gmap string Z) (tf : float) (s0 : State) :
  initial_state self k0 N ms cs false kw = Ok s0 ->
  forall n s,
    iterate n (body self cs false kw tf ms) s0 = Ok s ->
    exists bX bw bL be,
      log_X s = Some bX /\ log_w s = Some bw /\ log_L_dead s = Some bL
      /\ sampler_efficiency s = Some be
      /\ length bX = Z.to_nat ms /\ length bw = Z.to_nat ms
      /\ length bL = Z.to_nat ms /\ length be = Z.to_nat ms.
Proof.
  intros Hinit. apply iterate_ind.
  - pose proof (initial_state_buffers _ _ _ _ _ _ _ _ Hinit)
      as (_ & _ & HX & Hw & HL & He & _).
    eexists _, _, _, _. do 4 (split; [eassumption|]).
    rewrite !length_replicate. repeat split; reflexivity.
  - intros k s s' (bX0 & bw0 & bL0 & be0 & HX0 & Hw0 & HL0 & He0
                   & HlX & Hlw & HlL & Hle) Hbody.
    apply body_inv in Hbody as (s1 & Hstep & -> & _).
    destruct (one_step_buffers_inv _ _ _ _ _ _ Hstep)
      as (i_min & dp & Lm & sr & _ & _ & _ & _ & _
          & (bX & bw & bL & be & bX' & bw' & bL' & be'
             & HX & Hw & HL & He & HdX & Hdw & HdL & Hde
             & HX' & Hw' & HL' & He' & _)).
    rewrite HX in HX0. rewrite Hw in Hw0. rewrite HL in HL0.
    rewrite He in He0. inversion HX0. inversion Hw0. inversion HL0.
    inversion He0. subst bX0 bw0 bL0 be0.
    apply dynamic_update_slice_length in HdX, Hdw, HdL, Hde.
    exists bX', bw', bL', be'. simpl. do 4 (split; [assumption|]).
    repeat split; congruence.
Qed.

(** X11: the [num_samples] of a result is the number of iterations the loop
    made plus the number of live points, with at least one iteration and at
    most [max(1, max_samples)] of them; the arrays of the result have
    [max_samples] entries each, whatever [num_samples] is. *)
Theorem num_samples_counts_iterations_and_live_points :
  forall (fuel : nat) (self : NestedSampler Val) (k0 : Key) (N ms : Z)
         (cs om : bool) (tf : float) (kw : option (gmap string Z))
         (r : NestedSamplerResults Val),
    (forall k m, length (random_split k m) = m) ->
    ms < 2 ^ 63 ->
    __call__ fuel self k0 N ms cs tf om kw = Some (Ok r) ->
    exists n : nat,
      (1 <= n)%nat /\ Z.of_nat n <= Z.max 1 ms
      /\ num_samples r = wrap64 (Z.of_nat n + N)
      /\ (om = false ->
          exists lL lX lp ln le,
            log_L_samples r = Some lL /\ res_log_X r = Some lX
            /\ log_p r = Some lp /\ n_per_sample r = Some ln
            /\ res_sampler_efficiency r = Some le
            /\ length lL = Z.to_nat ms /\ length lX = Z.to_nat ms
            /\ length lp = Z.to_nat ms /\ length ln = Z.to_nat ms
            /\ length le = Z.to_nat ms).
Proof.
  intros fuel self k0 N ms cs om tf kw r Hsplit Hms Hr. unfold __call__ in Hr.
  destruct (initial_state _ _ _ _ _ _ _) as [s0|e] eqn:Hinit; [|discriminate].
  destruct (run_loop _ _ _ _ _ _ _ _) as [[s|e]|] eqn:Hrun; try discriminate.
  inversion Hr as [Hf]. clear Hr.
  set (big := (fuel + Z.to_nat (Z.max 1 ms) + 1)%nat).
  assert (Hrun' : run_loop big self cs om (default ∅ kw) tf ms s0
                  = Some (Ok s)).
  { unfold run_loop in *.
    apply (while_loop_fuel_mono fuel big _ _ _ _ Hrun). unfold big. lia. }
  destruct (run_loop_halting self k0 N ms cs om (default ∅ kw) tf s0 big
              Hinit Hms ltac:(unfold big; lia)) as (r' & Hr' & Hn).
  rewrite Hrun' in Hr'. inversion Hr'. subst r'.
  destruct (Hn s eq_refl) as (n & Hn1 & Hiter & _ & HnB & _).
  destruct (run_invariant_holds _ _ _ _ _ _ _ tf _ Hinit _ _ Hiter)
    as (_ & Hlen & _ & Hcount).
  destruct Hcount as (_ & Hnd & _); [lia|].
  assert (HN : 0 <= N /\ length (log_L_live s0) = Z.to_nat N).
  { pose proof Hinit as Hinit'. apply initial_state_inv in Hinit'
      as (_ & _ & _ & _ & HN & (k1 & ik & batch & _ & Hb & HL & _) & _).
    split; [exact HN|].
    apply result_mapM_Ok, Forall2_length in Hb.
    rewrite HL, length_fmap, <- Hb. apply Hsplit. }
  destruct HN as (HN0 & HN).
  assert (HlenZ : Z.of_nat (length (log_L_live s)) = N) by lia.
  exists n. split; [exact Hn1|]. split; [exact HnB|].
  destruct om.
  - split; [|discriminate]. unfold _finalise_results in Hf.
    destruct (te_update_from_live_points _ _ _ _) as [te [[[a lL] lX] lw]].
    simpl in Hf. rewrite andb_false_r in Hf. simpl in Hf.
    inversion Hf. simpl. rewrite Hnd, HlenZ. reflexivity.
  - destruct (buffer_lengths_along self k0 N ms cs (default ∅ kw) tf s0 Hinit
                n s Hiter)
      as (bX0 & bw0 & bL0 & be0 & HX0 & Hw0 & HL0 & He0
          & HlX & Hlw & HlL & Hle).
    apply finalise_inv in Hf
      as (te & a & lL & lX & lw & npl & bE & eff & bW & w & bX & X & bL & Ls
          & _ & Hnpl & HbE & Heff & HbW & Hw & HbX & HX & HbL & HLs
          & Hrn & Hrp & HrX & HrL & Hre & Hns & _).
    split; [rewrite Hns, Hnd, HlenZ; reflexivity|]. intros _.
    exists Ls, X, ((fun x => (x - logsumexp w)%float) <$> w), npl, eff.
    do 5 (split; [assumption|]).
    apply dynamic_update_slice_length in Hnpl, Heff, Hw, HX, HLs.
    rewrite !length_fmap, !length_arange in Hnpl.
    rewrite HbL in HL0. rewrite HbX in HX0. rewrite HbW in Hw0.
    rewrite HbE in He0. inversion HL0. inversion HX0. inversion Hw0.
    inversion He0. subst bL0 bX0 bw0 be0.
    rewrite length_fmap. repeat split; congruence.
Qed.

End Engine.
End EngineRuns.

(** ** The further properties on the small instance *)
Module DemoChecks.
Import Jnp PriorTransforms NestedSampling ArgminLemmas EngineProps Demo.
Import EngineRuns.

Lemma demo_uniform_length (k : Z) (m : nat) : length (random_uniform k m) = m.
Proof. simpl. unfold demo_uniform. rewrite length_fmap. apply length_seq. Qed.

Lemma demo_likelihood_total (x : gmap string (list num)) :
  is_Ok (fixed_likelihood peak_loglikelihood x) = true.
Proof.
  unfold fixed_likelihood, peak_loglikelihood.
  destruct (x !! "x") as [[|v [|v' l]]|]; reflexivity.
Qed.

Lemma demo_chain_call (u : float) :
  exists x, pc_call demo_chain [u]
            = {[ "x" := x; "_x_low" := [NInt 0]; "_x_high" := [NInt 1] ]}.
Proof.
  simpl. eexists. reflexivity.
Qed.

Lemma demo_chain_contract : chain_contract demo_chain.
Proof.
  intros U k HU Hk. destruct U as [|u [|u' U]]; try discriminate.
  destruct (demo_chain_call u) as (x & Hx). rewrite Hx.
  simpl in Hk. rewrite !lookup_insert_is_Some' in Hk.
  rewrite !lookup_insert_is_Some'.
  destruct Hk as [Hk|[Hk|Hk]]; [auto | auto |].
  right. right. destruct Hk as (v & Hv).
  apply lookup_singleton_Some in Hv as (<- & _).
  rewrite lookup_singleton_eq. eauto.
Qed.

Lemma demo_sampler_contract :
  sampler_contract (SamplerState := unit) (TrackedState := DemoTracked)
    (demo_sampler peak_loglikelihood).
Proof.
  intros s kw i_min L te Hrows Hlt.
  destruct (lookup_lt_is_Some_2 _ _ Hlt) as (row & Hrow).
  pose proof (Forall_lookup_1 _ _ _ _ Hrows Hrow) as Hlen. simpl in Hlen.
  destruct row as [|u [|u' row]]; try discriminate.
  unfold call_sampler. simpl. unfold halfway_sampler. rewrite Hrow.
  destruct (is_Ok_total _ (demo_likelihood_total
              (pc_call demo_chain
                 ((fun u => ((u + 0.5) / 2)%float) <$> default [] (Some [u])))))
    as (v & Hv).
  rewrite Hv. simpl. eexists. split; [reflexivity|]. simpl.
  split; [reflexivity|]. intros k Hk.
  exact (demo_chain_contract [((u + 0.5) / 2)%float] k eq_refl Hk).
Qed.

Lemma demo_engine_contract :
  engine_contract (SamplerState := unit) (TrackedState := DemoTracked)
    (demo_sampler peak_loglikelihood).
Proof.
  split; [|split; [|split; [|split; [|split; [|split]]]]].
  - split; [exact DemoRuns.demo_split_length|].
    split; [exact demo_uniform_length|].
    intros l. simpl. apply length_seq.
  - intros marg st lp lL. simpl.
    rewrite length_fmap, length_replicate. auto.
  - exact DemoRuns.slice_is_available.
  - exact demo_likelihood_total.
  - intros k (prior & Hin & Ht). simpl in Hin.
    repeat (apply elem_of_cons in Hin as [Hin|Hin];
            [inversion Hin; subst; eexists; reflexivity|]).
    apply elem_of_nil in Hin. contradiction.
  - exact demo_chain_contract.
  - exact demo_sampler_contract.
Qed.


Lemma initial_state_allocates_by_the_flags_witness :
  exists s0,
    (forall (k : Z) m, length (random_split k m) = m)
    /\ (forall (k : Z) m, length (random_uniform k m) = m)
    /\ initial_state (demo_sampler peak_loglikelihood) 42 3 10 true false ∅
       = Ok s0
    /\ length (log_L_live s0) = Z.to_nat 3
    /\ log_L_dead s0 = Some (replicate (Z.to_nat 10) 0%float)
    /\ exists dp, dead_points s0 = Some dp
         /\ forall k col, dp !! k = Some col <->
              (tracked_name (demo_sampler peak_loglikelihood) k
               /\ exists shape,
                    pc_to_shapes
                      (prior_chain (demo_sampler peak_loglikelihood)) !! k
                    = Some shape
                    /\ col = replicate (Z.to_nat 10) (zeros shape)).
Proof.
  eexists. split; [exact DemoRuns.demo_split_length|].
  split; [exact demo_uniform_length|].
  match goal with
  | |- ?I = Ok ?s0 /\ _ =>
      assert (Hinit : I = Ok s0) by (vm_compute; reflexivity)
  end.
  match goal with
  | |- _ = Ok ?s0 /\ _ => set (v0 := s0) in *
  end.
  split; [exact Hinit|].
  destruct (initial_state_allocates_by_the_flags
              (demo_sampler peak_loglikelihood) 42 3 10 true false ∅ v0
              DemoRuns.demo_split_length demo_uniform_length Hinit)
    as (_ & (Hlen & _) & _ & Hbuf).
  destruct (Hbuf eq_refl) as (_ & _ & _ & HL & _ & _ & Hdp).
  split; [exact Hlen|]. split; [exact HL|]. exact (Hdp eq_refl).
Defined.

Lemma initial_live_log_likelihoods_are_numbers_witness :
  exists s0,
    __init__ peak_loglikelihood demo_chain "slice" ∅
    = Ok (demo_sampler peak_loglikelihood)
    /\ initial_state (demo_sampler peak_loglikelihood) 42 3 10 true false ∅
       = Ok s0
    /\ Forall (fun x => F64.is_nan x = false /\ F64.le F64.ninf x = true)
         (log_L_live s0).
Proof.
  eexists. split; [reflexivity|]. split; [vm_compute; reflexivity|].
  eapply (initial_live_log_likelihoods_are_numbers peak_loglikelihood
            demo_chain "slice" ∅ (demo_sampler peak_loglikelihood) 42 3 10 true
            false ∅).
  - reflexivity.
  - vm_compute. reflexivity.
Defined.

Lemma one_step_records_at_num_dead_witness :
  exists s0 s s',
    initial_state (demo_sampler peak_loglikelihood) 42 3 10 false false ∅
    = Ok s0
    /\ iterate 2 (body (demo_sampler peak_loglikelihood) false false ∅
                    0x1p-10%float 10) s0 = Ok s
    /\ _one_step (demo_sampler peak_loglikelihood) s false false ∅ = Ok s'
    /\ live_wf s
    /\ buffers_wf false false 10 s
    /\ 0 <= num_dead s
    /\ (Z.to_nat (num_dead s) < 10)%nat
    /\ buffers_wf false false 10 s'
    /\ num_dead s' = wrap64 (num_dead s + 1).
Proof.
  eexists _, _, _.
  match goal with
  | |- ?I = Ok ?s0 /\ ?IT = Ok ?s /\ ?ST = Ok ?s' /\ _ =>
      assert (Hinit : I = Ok s0) by (vm_compute; reflexivity);
      assert (Hiter : IT = Ok s) by (vm_compute; reflexivity);
      assert (Hstep : ST = Ok s') by (vm_compute; reflexivity)
  end.
  match goal with
  | |- _ = Ok ?s0 /\ _ = Ok ?s /\ _ = Ok ?s' /\ _ =>
      set (v0 := s0) in *; set (v := s) in *; set (v' := s') in *
  end.
  split; [exact Hinit|]. split; [exact Hiter|]. split; [exact Hstep|].
  destruct (run_invariant_holds _ _ _ _ _ _ _ 0x1p-10%float _ Hinit _ _ Hiter)
    as (Hwf & _).
  assert (Hbuf : buffers_wf false false 10 v).
  { split; [eexists _, _, _, _; repeat split; reflexivity | reflexivity]. }
  assert (Hnd : 0 <= num_dead v) by (vm_compute; discriminate).
  assert (Hroom : (Z.to_nat (num_dead v) < 10)%nat) by (vm_compute; lia).
  split; [exact Hwf|]. split; [exact Hbuf|].
  split; [exact Hnd|]. split; [exact Hroom|].
  destruct (one_step_records_at_num_dead
              (demo_sampler peak_loglikelihood) v v' false ∅ 10%nat
              Hwf Hbuf Hnd Hroom Hstep)
    as (Hbuf' & Hnd' & _).
  split; [exact Hbuf' | exact Hnd'].
Defined.

Lemma dead_buffers_record_each_elimination_witness :
  exists s0 s,
    initial_state (demo_sampler peak_loglikelihood) 42 3 10 true false ∅
    = Ok s0
    /\ 10 < 2 ^ 63
    /\ iterate 3 (body (demo_sampler peak_loglikelihood) true false ∅
                    0x1p-10%float 10) s0 = Ok s
    /\ Z.of_nat 3 <= 10
    /\ exists bL bX,
         log_L_dead s = Some bL /\ log_X s = Some bX
         /\ length bL = Z.to_nat 10 /\ length bX = Z.to_nat 10
         /\ (forall j s_j i_min m,
               (j < 3)%nat ->
               iterate j (body (demo_sampler peak_loglikelihood) true false ∅
                            0x1p-10%float 10) s0 = Ok s_j ->
               argmin (log_L_live s_j) = Ok i_min ->
               log_L_live s_j !! i_min = Some m ->
               bL !! j = Some m)
         /\ (forall j s_j1,
               (j < 3)%nat ->
               iterate (Datatypes.S j)
                 (body (demo_sampler peak_loglikelihood) true false ∅
                    0x1p-10%float 10) s0 = Ok s_j1 ->
               bX !! j
               = Some (te_X_log_value (tracked_expectations_state s_j1)))
         /\ (forall j, (3 <= j < Z.to_nat 10)%nat ->
               bL !! j = Some 0%float /\ bX !! j = Some F64.ninf).
Proof.
  eexists _, _.
  match goal with
  | |- ?I = Ok ?s0 /\ _ /\ ?IT = Ok ?s /\ _ =>
      assert (Hinit : I = Ok s0) by (vm_compute; reflexivity);
      assert (Hiter : IT = Ok s) by (vm_compute; reflexivity)
  end.
  match goal with
  | |- _ = Ok ?s0 /\ _ /\ _ = Ok ?s /\ _ =>
      set (v0 := s0) in *; set (v := s) in *
  end.
  split; [exact Hinit|]. split; [lia|]. split; [exact Hiter|].
  split; [lia|].
  exact (dead_buffers_record_each_elimination
           (demo_sampler peak_loglikelihood) 42 3 10 true ∅ 0x1p-10%float
           v0 v 3 Hinit ltac:(lia) Hiter ltac:(lia)).
Defined.

Lemma call_result_needs_live_points_and_room_witness :
  exists r,
    (forall (k : Z) m, length (random_split k m) = m)
    /\ __call__ 20 (demo_sampler peak_loglikelihood) 42 3 10 true
         0x1p-10%float false None = Some (Ok r)
    /\ 1 <= 3 /\ (false = false -> 3 <= 10).
Proof.
  eexists. split; [exact DemoRuns.demo_split_length|].
  match goal with
  | |- ?C = Some (Ok ?r) /\ _ =>
      assert (Hcall : C = Some (Ok r)) by (vm_compute; reflexivity)
  end.
  split; [exact Hcall|].
  exact (call_result_needs_live_points_and_room 20
           (demo_sampler peak_loglikelihood) 42 3 10 true false 0x1p-10%float
           None _ DemoRuns.demo_split_length Hcall).
Defined.

(** At the cap the live points are written over the last dead entries:
    four iterations, three live points and four entries per array. *)
Lemma finalise_places_live_points_at_clamped_index_witness :
  exists s0 s r,
    initial_state (demo_sampler peak_loglikelihood) 42 3 4 false false ∅
    = Ok s0
    /\ run_loop 20 (demo_sampler peak_loglikelihood) false false ∅
         0x1p-40%float 4 s0 = Some (Ok s)
    /\ _finalise_results (demo_sampler peak_loglikelihood) s false false 4
       = Ok r
    /\ buffers_wf false false (Z.to_nat 4) s
    /\ 0 <= num_dead s
    /\ num_dead s = 4 /\ length (log_L_live s) = 3%nat
    /\ num_samples r = 7
    /\ exists bL Ls,
         log_L_dead s = Some bL /\ log_L_samples r = Some Ls
         /\ length Ls = 4%nat
         /\ Ls !! 0%nat = bL !! 0%nat
         /\ forall j, (j < 3)%nat ->
              Ls !! (1 + j)%nat = log_L_live s !! j.
Proof.
  eexists _, _, _.
  match goal with
  | |- ?I = Ok ?s0 /\ ?R = Some (Ok ?s) /\ ?F = Ok ?r /\ _ =>
      assert (Hinit : I = Ok s0) by (vm_compute; reflexivity);
      assert (Hrun : R = Some (Ok s)) by (vm_compute; reflexivity);
      assert (Hfin : F = Ok r) by (vm_compute; reflexivity)
  end.
  match goal with
  | |- _ = Ok ?s0 /\ _ = Some (Ok ?s) /\ _ = Ok ?r /\ _ =>
      set (v0 := s0) in *; set (v := s) in *; set (vr := r) in *
  end.
  split; [exact Hinit|]. split; [exact Hrun|]. split; [exact Hfin|].
  assert (Hbuf : buffers_wf false false (Z.to_nat 4) v).
  { split; [eexists _, _, _, _; repeat split; reflexivity | reflexivity]. }
  assert (Hnd : 0 <= num_dead v) by (vm_compute; discriminate).
  split; [exact Hbuf|]. split; [exact Hnd|].
  split; [reflexivity|]. split; [reflexivity|].
  destruct (finalise_places_live_points_at_clamped_index
              (demo_sampler peak_loglikelihood) v false 4 vr Hbuf Hnd Hfin)
    as (_ & _ & _ & Hns & _ & _ & HLs).
  split; [exact Hns|].
  match type of HLs with
  | (forall te a lL lX lw, ?T = _ -> _) =>
      eassert (Hte : T = (_, (_, _, _, _))) by (vm_compute; reflexivity)
  end.
  destruct (HLs _ _ _ _ _ Hte eq_refl)
    as (bL & Ls & HbL & HrL & Hlen & Hlo & Hmid & _).
  exists bL, Ls. split; [exact HbL|]. split; [exact HrL|].
  split; [exact Hlen|]. split; [apply Hlo; vm_compute; lia|].
  exact Hmid.
Defined.

Lemma call_returns_a_result_under_the_contract_witness :
  engine_contract (SamplerState := unit) (TrackedState := DemoTracked)
    (demo_sampler peak_loglikelihood)
  /\ 1 <= 3 /\ (false = false -> 3 <= 10) /\ 10 < 2 ^ 63
  /\ Z.max 1 10 < Z.of_nat 20
  /\ exists r,
       __call__ 20 (demo_sampler peak_loglikelihood) 42 3 10 true
         0x1p-10%float false None = Some (Ok r).
Proof.
  split; [exact demo_engine_contract|]. split; [lia|].
  split; [intros _; lia|]. split; [lia|]. split; [lia|].
  apply (call_returns_a_result_under_the_contract 20
           (demo_sampler peak_loglikelihood) 42 3 10 true false 0x1p-10%float
           None demo_engine_contract).
  - lia.
  - intros _. lia.
  - lia.
  - lia.
Defined.

Lemma num_samples_counts_iterations_and_live_points_witness :
  exists r,
    (forall (k : Z) m, length (random_split k m) = m)
    /\ 10 < 2 ^ 63
    /\ __call__ 20 (demo_sampler peak_loglikelihood) 42 3 10 true
         0x1p-10%float false None = Some (Ok r)
    /\ exists n : nat,
         (1 <= n)%nat /\ Z.of_nat n <= Z.max 1 10
         /\ num_samples r = wrap64 (Z.of_nat n + 3)
         /\ (false = false ->
             exists lL lX lp ln le,
               log_L_samples r = Some lL /\ res_log_X r = Some lX
               /\ log_p r = Some lp /\ n_per_sample r = Some ln
               /\ res_sampler_efficiency r = Some le
               /\ length lL = Z.to_nat 10 /\ length lX = Z.to_nat 10
               /\ length lp = Z.to_nat 10 /\ length ln = Z.to_nat 10
               /\ length le = Z.to_nat 10).
Proof.
  eexists. split; [exact DemoRuns.demo_split_length|]. split; [lia|].
  match goal with
  | |- ?C = Some (Ok ?r) /\ _ =>
      assert (Hcall : C = Some (Ok r)) by (vm_compute; reflexivity)
  end.
  split; [exact Hcall|].
  exact (num_samples_counts_iterations_and_live_points 20
           (demo_sampler peak_loglikelihood) 42 3 10 true false 0x1p-10%float
           None _ DemoRuns.demo_split_length ltac:(lia) Hcall).
Defined.

Lemma categorical_forward_returns_first_maximum_witness :
  cls (mkPriorTransform "c" 2
         [Gumbel "_c_gumbel" 2 false;
          DeltaPrior "_c_logits" (PySeq [NFloat 0%float; NFloat 1%float]) false]
         true (ClsCategorical [1%nat]))
  = ClsCategorical [1%nat]
  /\ forward log_approx
       (mkPriorTransform "c" 2
          [Gumbel "_c_gumbel" 2 false;
           DeltaPrior "_c_logits" (PySeq [NFloat 0%float; NFloat 1%float])
             false]
          true (ClsCategorical [1%nat]))
       [0.25%float; 0.75%float]
       [[NFloat 0.5%float; NFloat 0.5%float]; [NFloat 0%float; NFloat 1%float]]
     = Ok [NInt 1]
  /\ exists k s,
       elementwise num_add [NFloat 0%float; NFloat 1%float]
         [NFloat 0.5%float; NFloat 0.5%float] = Ok s
       /\ [NInt 1] = [NInt (Z.of_nat k)]
       /\ is_first_max (map to_float s) k
       /\ forall U',
            forward log_approx
              (mkPriorTransform "c" 2
                 [Gumbel "_c_gumbel" 2 false;
                  DeltaPrior "_c_logits"
                    (PySeq [NFloat 0%float; NFloat 1%float]) false]
                 true (ClsCategorical [1%nat]))
              U'
              [[NFloat 0.5%float; NFloat 0.5%float];
               [NFloat 0%float; NFloat 1%float]]
            = Ok [NInt 1].
Proof.
  split; [reflexivity|]. split; [vm_compute; reflexivity|].
  apply (PriorForward.categorical_forward_returns_first_maximum log_approx _
           [1%nat] [0.25%float; 0.75%float]
           [NFloat 0.5%float; NFloat 0.5%float]
           [NFloat 0%float; NFloat 1%float] [NInt 1]).
  - reflexivity.
  - vm_compute. reflexivity.
Defined.

Lemma categorical_forward_outcome_witness :
  cls (mkPriorTransform "c" 2
         [Gumbel "_c_gumbel" 2 false;
          DeltaPrior "_c_logits" (PySeq [NFloat 0%float; NFloat 1%float]) false]
         true (ClsCategorical [1%nat]))
  = ClsCategorical [1%nat]
  /\ match forward log_approx
             (mkPriorTransform "c" 2
                [Gumbel "_c_gumbel" 2 false;
                 DeltaPrior "_c_logits"
                   (PySeq [NFloat 0%float; NFloat 1%float]) false]
                true (ClsCategorical [1%nat]))
             [0.25%float; 0.75%float]
             [[NFloat 0.5%float; NFloat 0.5%float; NFloat 0.5%float];
              [NFloat 0%float; NFloat 1%float]] with
     | Ok out =>
         exists k, out = [NInt (Z.of_nat k)]
                   /\ (k < Nat.max 2 3)%nat
     | Raise e =>
         (e = TypeError "incompatible shapes for broadcasting"
          /\ 2%nat <> 3%nat /\ 2%nat <> 1%nat /\ 3%nat <> 1%nat)
         \/ (e = ValueError "attempt to get argmax of an empty sequence"
             /\ ([NFloat 0%float; NFloat 1%float] = []
                 \/ [NFloat 0.5%float; NFloat 0.5%float; NFloat 0.5%float]
                    = []))
     end.
Proof.
  split; [reflexivity|].
  apply (PriorForward.categorical_forward_outcome log_approx _ [1%nat]
           [0.25%float; 0.75%float]
           [NFloat 0.5%float; NFloat 0.5%float; NFloat 0.5%float]
           [NFloat 0%float; NFloat 1%float]).
  reflexivity.
Defined.

(** At the uniform inputs 0 and 1: the noise at 0 is the finite value at
    [eps], the noise at 1 is infinite, and the category is an index. *)
Lemma categorical_forward_is_finite_witness :
  [NFloat 0%float; NFloat 1%float] <> []
  /\ length [0%float; 1%float] = length [NFloat 0%float; NFloat 1%float]
  /\ exists p gumbel logits_out g0,
       CategoricalPrior "c" (inr (PySeq [NFloat 0%float; NFloat 1%float])) true
       = Ok p
       /\ forward log_approx (Gumbel "_c_gumbel" 2 false) [0%float; 1%float] []
          = Ok gumbel
       /\ gumbel = [NFloat g0; NFloat infinity]
       /\ g0 = (- log_approx (- log_approx eps))%float
       /\ PrimFloat.is_finite g0 = true
       /\ forward log_approx
            (DeltaPrior "_c_logits" (PySeq [NFloat 0%float; NFloat 1%float])
               false) [] [] = Ok logits_out
       /\ forward log_approx p [0.25%float; 0.75%float] [gumbel; logits_out]
          = Ok [NInt 1]
       /\ (1 < length [NFloat 0%float; NFloat 1%float])%nat
       /\ Forall (fun a => num_is_finite a = true) [NInt 1].
Proof.
  split; [discriminate|]. split; [reflexivity|].
  destruct (PriorForward.categorical_forward_is_finite log_approx "c" true
              [NFloat 0%float; NFloat 1%float] [0.25%float; 0.75%float]
              [0%float; 1%float] ltac:(discriminate) eq_refl)
    as (p & gumbel & lo & k & Hp & _ & Hg & Hlo & _ & _ & _ & Hzero & Hfwd
        & Hk & Hfin & _).
  assert (Hg' : forward log_approx (Gumbel "_c_gumbel" 2 false)
                  [0%float; 1%float] []
                = Ok [NFloat (- log_approx (- log_approx eps))%float;
                      NFloat infinity]) by (vm_compute; reflexivity).
  assert (Hgumbel : gumbel = [NFloat (- log_approx (- log_approx eps))%float;
                              NFloat infinity]).
  { change ("_" +:+ "c" +:+ "_gumbel") with "_c_gumbel" in Hg.
    simpl length in Hg. rewrite Hg' in Hg. inversion Hg. reflexivity. }
  assert (Hk1 : k = 1%nat).
  { subst gumbel. inversion Hp. subst p. inversion Hlo. subst lo.
    match type of Hfwd with
    | ?L = _ => assert (HL : L = Ok [NInt 1]) by (vm_compute; reflexivity)
    end.
    rewrite HL in Hfwd. inversion Hfwd as [Hz]. lia. }
  subst k.
  exists p, gumbel, lo, (- log_approx (- log_approx eps))%float.
  split; [exact Hp|]. split; [exact Hg|]. split; [exact Hgumbel|].
  split; [reflexivity|]. split; [vm_compute; reflexivity|].
  split; [exact Hlo|]. split; [exact Hfwd|]. split; [exact Hk | exact Hfin].
Defined.

End DemoChecks.
